(** * covid19_npis: the generative model and its likelihood

    A shallow embedding of the Python sources

      - [covid19_npis/model/likelihood.py]         ([studentT_likelihood])
      - [covid19_npis/model/model.py]              ([main_model])
      - [covid19_npis/model/weekly_modulation.py]  ([week_modulation])
      - [covid19_npis/modelParams.py]              ([ModelParams])

    Numbers.  The entries of a tensor are real numbers ([R]), or, where a
    [nan] is followed, of the type [npfloat], a real number or [nan]: in the
    observed data, whose missing entries are [nan]; in the output of the
    infection model, whose [nan] pass the clipping; and in the scale of the
    likelihood, where [tf.sqrt] of a negative expected count is [nan].
    Rounding, overflow and the infinities are outside the model.

    Tensors.  A tensor of rank [n] is an [n]-fold nested list, indexed by its
    rank; a Python tensor value, whose rank is only known at run time, is a
    rank together with a tensor of that rank ([ndarray]). *)

From Stdlib Require Import String Ascii.
From Stdlib Require Import List Bool Arith Lia ZArith.
From Stdlib Require Import Reals Lra.
Import ListNotations.

Set Warnings "-register-all".

(* ------------------------------------------------------------------------ *)
(** ** Rank-indexed tensors *)
(* ------------------------------------------------------------------------ *)

Module Tensor.

Fixpoint tensor (A : Type) (n : nat) : Type :=
  match n with
  | O => A
  | S n' => list (tensor A n')
  end.

(** A tensor as Python sees it: its rank is [len(x.shape)]. *)
Record ndarray (A : Type) : Type := Nd { rank : nat; body : tensor A rank }.

Arguments Nd {A} rank body.
Arguments rank {A} _.
Arguments body {A} _.

(** Collecting a list of optional results, failing as soon as one fails. *)
Fixpoint sequence {A : Type} (l : list (option A)) : option (list A) :=
  match l with
  | [] => Some []
  | None :: _ => None
  | Some a :: l' =>
      match sequence l' with
      | Some r => Some (a :: r)
      | None => None
      end
  end.

Definition mapM {A B : Type} (f : A -> option B) (l : list A) : option (list B) :=
  sequence (map f l).

(** Element-wise application of a unary operation ([tf.sqrt], [np.isnan],
    [x + 1] with a Python scalar). *)
Fixpoint tmap {A B : Type} (f : A -> B) (n : nat) : tensor A n -> tensor B n :=
  match n with
  | O => fun x => f x
  | S n' => fun l => map (tmap f n') l
  end.

(** All entries in row-major order. *)
Fixpoint elems {A : Type} (n : nat) : tensor A n -> list A :=
  match n with
  | O => fun x => [x]
  | S n' => fun l => flat_map (elems n') l
  end.

(** [x[..., tf.newaxis]]: a new axis of length one in the last position. *)
Fixpoint newaxis_last {A : Type} (n : nat) : tensor A n -> tensor A (S n) :=
  match n with
  | O => fun x => [x]
  | S n' => fun l => map (newaxis_last n') l
  end.

(** [x[tf.newaxis, ...]]: a new axis of length one in the first position. *)
Definition newaxis_first {A : Type} (n : nat) (x : tensor A n) : tensor A (S n) :=
  [x].

(** Exchange of the two leading axes of a list of lists.  The width of the
    result is the length of the first row. *)
Fixpoint swap_axes01 {X : Type} (l : list (list X)) : list (list X) :=
  match l with
  | [] => []
  | [row] => map (fun x => [x]) row
  | row :: rest =>
      (fix zip (r : list X) (t : list (list X)) : list (list X) :=
         match r, t with
         | x :: r', c :: t' => (x :: c) :: zip r' t'
         | _, _ => []
         end) row (swap_axes01 rest)
  end.

(** [tf.transpose(x, perm=(1, 0, 2, 3))] on a tensor of rank 4. *)
Definition transpose_1023 {A : Type} (x : tensor A 4) : tensor A 4 :=
  swap_axes01 x.

(** Re-reading a tensor at another rank: the identity when the ranks agree,
    and a failure when they differ (unless an empty axis hides it). *)
Fixpoint recast {A : Type} (n m : nat) : tensor A n -> option (tensor A m) :=
  match n, m with
  | O, O => fun x => Some x
  | S n', S m' => fun l => mapM (recast n' m') l
  | _, _ => fun _ => None
  end.

(** Broadcasting prepends axes of length one until the rank is [r]. *)
Fixpoint expand_to {A : Type} (r n : nat) (x : tensor A n) : option (tensor A r) :=
  if Nat.eqb r n then recast n r x
  else match r with
       | O => None
       | S r' => option_map (fun t => [t]) (expand_to r' n x)
       end.

Fixpoint zipM {A B C : Type} (f : A -> B -> option C) (la : list A) (lb : list B)
  : option (list C) :=
  match la, lb with
  | [], [] => Some []
  | a :: la', b :: lb' =>
      match f a b, zipM f la' lb' with
      | Some c, Some r => Some (c :: r)
      | _, _ => None
      end
  | _, _ => None
  end.

(** A binary element-wise operation on two tensors of one rank, with the
    broadcasting rule: along each axis the lengths agree or one of them is
    one (that operand is then repeated).  Any other pair of lengths is a
    shape error ([None]). *)
Fixpoint broadcast {A B C : Type} (f : A -> B -> C) (n : nat)
  : tensor A n -> tensor B n -> option (tensor C n) :=
  match n return tensor A n -> tensor B n -> option (tensor C n) with
  | O => fun x y => Some (f x y)
  | S n' => fun (la : list (tensor A n')) (lb : list (tensor B n')) =>
      if Nat.eqb (length la) (length lb) then zipM (broadcast f n') la lb
      else match la, lb with
           | [a], _ => mapM (fun b => broadcast f n' a b) lb
           | _, [b] => mapM (fun a => broadcast f n' a b) la
           | _, _ => None
           end
  end.

(** The binary operation on two Python tensors: the operand of lower rank
    is first expanded to the rank of the other. *)
Definition binop {A B C : Type} (f : A -> B -> C) (x : ndarray A) (y : ndarray B)
  : option (ndarray C) :=
  let r := Nat.max (rank x) (rank y) in
  match expand_to r (rank x) (body x), expand_to r (rank y) (body y) with
  | Some x', Some y' =>
      match broadcast f r x' y' with
      | Some z => Some (Nd r z)
      | None => None
      end
  | _, _ => None
  end.

Definition unop {A B : Type} (f : A -> B) (x : ndarray A) : ndarray B :=
  Nd (rank x) (tmap f (rank x) (body x)).

(** Same shape, as far as it can be read off the nesting. *)
Fixpoint same_shape {A B : Type} (n : nat) : tensor A n -> tensor B n -> bool :=
  match n return tensor A n -> tensor B n -> bool with
  | O => fun _ _ => true
  | S n' => fun (la : list (tensor A n')) (lb : list (tensor B n')) =>
      Nat.eqb (length la) (length lb) &&
      (fix all2 (la : list (tensor A n')) (lb : list (tensor B n')) : bool :=
         match la, lb with
         | a :: la', b :: lb' => same_shape n' a b && all2 la' lb'
         | _, _ => true
         end) la lb
  end.

(** Keeps the entries of [l] at the positions where [m] is [true]. *)
Fixpoint select {A : Type} (l : list A) (m : list bool) : list A :=
  match l, m with
  | x :: l', b :: m' => if b then x :: select l' m' else select l' m'
  | _, _ => []
  end.

(** [tf.boolean_mask(x, mask, axis)] for a mask of rank 3: the three axes
    of [x] that start at [axis] must have the shape of the mask; they are
    flattened to one axis that keeps the entries where the mask holds.  The
    result has rank [axis + 1]. *)
Fixpoint boolean_mask {A : Type} (axis : nat) (n : nat) (mask : tensor bool 3)
  : tensor A n -> option (tensor A (S axis)) :=
  match axis return tensor A n -> option (tensor A (S axis)) with
  | O =>
      match n return tensor A n -> option (tensor A 1) with
      | 3 => fun x =>
          if same_shape 3 x mask
          then Some (select (elems 3 x) (elems 3 mask))
          else None
      | _ => fun _ => None
      end
  | S axis' =>
      match n return tensor A n -> option (tensor A (S (S axis'))) with
      | O => fun _ => None
      | S n' => fun l => mapM (boolean_mask axis' n' mask) l
      end
  end.

End Tensor.

Import Tensor.

Open Scope string_scope.
Open Scope list_scope.

(* ------------------------------------------------------------------------ *)
(** ** Python values, exceptions and generators *)
(* ------------------------------------------------------------------------ *)

(** An entry of the observed data: a number, or [nan] for a missing one. *)
Inductive npfloat : Type :=
| NaN
| Val (x : R).

(** [np.isnan] on one entry. *)
Definition isnan (d : npfloat) : bool :=
  match d with
  | NaN => true
  | Val _ => false
  end.

(** The values of the configuration dicts of [ModelParams]. *)
Inductive cfgval : Type :=
| CStr (s : string)
| CInt (z : Z)
| CTuple (l : list cfgval).

(** A Python dict: its items in insertion order, without repeated keys. *)
Definition pydict (V : Type) : Type := list (string * V).

Fixpoint dict_get {V : Type} (d : pydict V) (key : string) : option V :=
  match d with
  | [] => None
  | (k, v) :: d' => if String.eqb k key then Some v else dict_get d' key
  end.

(** The [ModelParams] object that the model functions are written for.
    [data_tensor] (time, country, age group) and [N_data_tensor] (country,
    age group) are the attributes that the model functions read;
    [distributions] is the dict that [get_distribution_by_name] searches.
    The [__init__] of [modelParams.py] sets neither of the two tensors (see
    [ModelParams_init]): the statements about the model functions are about
    an object that has them. *)
Record ModelParams : Type := {
  num_countries : nat;
  num_age_groups : nat;
  len_df : nat;
  distributions : pydict (pydict cfgval);
  data_tensor : tensor npfloat 3;
  N_data_tensor : tensor R 2
}.

(** Python values.  A tensor is a [VTensor] when all its entries are real
    numbers, and a [VObserved] when its entries may be [nan]. *)
Inductive pyvalue : Type :=
| VNone
| VBool (b : bool)
| VInt (z : Z)
| VFloat (x : R)
| VStr (s : string)
| VTuple (l : list pyvalue)
| VTensor (t : ndarray R)
| VObserved (t : ndarray npfloat)
| VParams (mp : ModelParams)
| VObj (cls : string) (kwargs : list (string * pyvalue)).

Inductive exn : Type :=
| TypeError (msg : string)
| NameError (name : string)
| UnboundLocalError (name : string)
| AttributeError (attr : string)
| KeyError (key : string)
| IndexError (msg : string)
| ShapeError (op : string)
| Failure (msg : string).

(** What a generator function does between two returns of control: it
    yields an object to the framework, or calls a function that is not part
    of these sources; in both cases it goes on with the value it gets back. *)
Inductive event : Type :=
| Yielded (obj : pyvalue)
| Called (fn : string) (kwargs : list (string * pyvalue)).

Inductive Gen (A : Type) : Type :=
| Ret (a : A)
| Raise (e : exn)
| Vis (ev : event) (k : pyvalue -> Gen A).

Arguments Ret {A} a.
Arguments Raise {A} e.
Arguments Vis {A} ev k.

Fixpoint bind {A B : Type} (g : Gen A) (f : A -> Gen B) : Gen B :=
  match g with
  | Ret a => f a
  | Raise e => Raise e
  | Vis ev k => Vis ev (fun v => bind (k v) f)
  end.

Declare Scope gen_scope.
Delimit Scope gen_scope with gen.
Notation "x <- c1 ;; c2" := (bind c1 (fun x => c2))
  (at level 61, c1 at next level, right associativity) : gen_scope.
Notation "' pat <- c1 ;; c2" := (bind c1 (fun x => match x with pat => c2 end))
  (at level 61, pat pattern, c1 at next level, right associativity) : gen_scope.
Open Scope gen_scope.

Definition yield_ (obj : pyvalue) : Gen pyvalue := Vis (Yielded obj) Ret.

Definition call (fn : string) (kwargs : list (string * pyvalue)) : Gen pyvalue :=
  Vis (Called fn kwargs) Ret.

(** A tensor operation that fails raises in the generator. *)
Definition tf {A : Type} (op : string) (r : option A) : Gen A :=
  match r with
  | Some a => Ret a
  | None => Raise (ShapeError op)
  end.

Definition as_tensor (v : pyvalue) : Gen (ndarray R) :=
  match v with
  | VTensor t => Ret t
  | _ => Raise (TypeError "tensor expected")
  end.

(** [a, b = v] *)
Definition unpack2 (v : pyvalue) : Gen (pyvalue * pyvalue) :=
  match v with
  | VTuple [a; b] => Ret (a, b)
  | _ => Raise (TypeError "cannot unpack")
  end.

(** A function of these sources as Python calls it: the positional
    arguments are bound to the parameters one by one, and a call with a
    different number of arguments raises [TypeError] before the body runs. *)
Record pyfunction : Type := {
  fn_name : string;
  fn_params : list string;
  fn_body : list pyvalue -> Gen pyvalue
}.

Definition py_call (f : pyfunction) (args : list pyvalue) : Gen pyvalue :=
  if Nat.eqb (length args) (length (fn_params f))
  then fn_body f args
  else Raise (TypeError (fn_name f ++ "() takes a different number of positional arguments")).

(** *** Running a generator

    The answers come from outside the sources: [oracle n ev] is what the
    [n]-th event [ev] gets back, a value or an exception. *)
Definition oracle : Type := nat -> event -> exn + pyvalue.

(** Modelled from the spec: the wrapper [Deterministic] of
    [covid19_npis.model.distributions] is not part of these sources; by the
    spec it is a named declaration for trace recording between the
    deterministic tensor transforms, so a yielded [Deterministic] is
    answered with its own [value].  All other events are answered by the
    oracle. *)
Definition respond (o : oracle) (n : nat) (ev : event) : exn + pyvalue :=
  match ev with
  | Yielded (VObj cls kwargs) =>
      if String.eqb cls "Deterministic" then
        match dict_get kwargs "value" with
        | Some v => inr v
        | None => o n ev
        end
      else o n ev
  | _ => o n ev
  end.

Fixpoint run_from {A : Type} (o : oracle) (n : nat) (g : Gen A)
  : list (event * (exn + pyvalue)) * (exn + A) :=
  match g with
  | Ret a => ([], inr a)
  | Raise e => ([], inl e)
  | Vis ev k =>
      match respond o n ev with
      | inl e => ([(ev, inl e)], inl e)
      | inr v => let (log, res) := run_from o (S n) (k v) in ((ev, inr v) :: log, res)
      end
  end.

Definition run {A : Type} (o : oracle) (g : Gen A) := run_from o 0 g.

(** The events of a run, in order, and its outcome. *)
Definition events {A : Type} (o : oracle) (g : Gen A) : list event :=
  map fst (fst (run o g)).

Definition outcome {A : Type} (o : oracle) (g : Gen A) : exn + A :=
  snd (run o g).

(* ------------------------------------------------------------------------ *)
(** ** likelihood.py *)
(* ------------------------------------------------------------------------ *)

Open Scope R_scope.

(** Operations of the tensor library on Python tensors. *)
Definition nd_newaxis_last {A : Type} (x : ndarray A) : ndarray A :=
  Nd (S (rank x)) (newaxis_last (rank x) (body x)).

Definition nd_newaxis_first {A : Type} (x : ndarray A) : ndarray A :=
  Nd (S (rank x)) (newaxis_first (rank x) (body x)).

Definition nd_transpose_1023 {A : Type} (x : ndarray A) : option (ndarray A) :=
  match x with
  | Nd n t =>
      match n return tensor A n -> option (ndarray A) with
      | 4%nat => fun t => Some (Nd 4 (transpose_1023 t))
      | _ => fun _ => None
      end t
  end.

(** [tf.boolean_mask(x, mask, axis=axis)]; [axis] is a Python integer. *)
Definition nd_boolean_mask {A : Type} (x : ndarray A) (mask : tensor bool 3) (axis : Z)
  : option (ndarray A) :=
  if (axis <? 0)%Z then None
  else
    let a := Z.to_nat axis in
    match boolean_mask a (rank x) mask (body x) with
    | Some t => Some (Nd (S a) t)
    | None => None
    end.

(** Lines 26-29: the per-country scale gets an age-group axis and a time
    axis; with a batch axis (rank 4 by then) the batch is moved to the
    front again. *)
Definition align_sigma (sigma : ndarray R) : Gen (ndarray R) :=
  let sigma := nd_newaxis_last sigma in
  let sigma := nd_newaxis_first sigma in
  if Nat.eqb (rank sigma) 4
  then tf "transpose" (nd_transpose_1023 sigma)
  else Ret sigma.

(** [sigma * tf.sqrt(new_cases) + 1] where the expected counts are
    nonnegative: there [tf.sqrt] is the real square root.  For the [nan]
    that [tf.sqrt] gives for a negative number see [scale_expr_nan], which
    agrees with this expression on nonnegative counts. *)
Definition scale_expr (sigma new_cases : ndarray R) : option (ndarray R) :=
  option_map (unop (fun x => x + 1)) (binop Rmult sigma (unop sqrt new_cases)).





Definition HalfCauchy_sigma (modelParams : ModelParams) : pyvalue :=
  VObj "HalfCauchy"
    [ ("name", VStr "sigma");
      ("scale", VFloat 50);
      ("event_stack", VInt (Z.of_nat (num_countries modelParams)));
      ("conditionally_independent", VBool true);
      ("transform",
         VObj "transformations.SoftPlus" [("reinterpreted_batch_ndims", VInt 2)]);
      ("shape_label", VStr "country") ].

Definition StudentT_like (loc scale : ndarray R) (observed : ndarray npfloat) : pyvalue :=
  VObj "pm.StudentT"
    [ ("name", VStr "like");
      ("loc", VTensor loc);
      ("scale", VTensor scale);
      ("df", VInt 4);
      ("observed", VObserved observed);
      ("reinterpreted_batch_ndims", VInt 1) ].

Definition studentT_likelihood (modelParams : ModelParams) (new_cases : ndarray R)
  : Gen pyvalue :=
  (* Get scale of likelihood *)
  sigma <- yield_ (HalfCauchy_sigma modelParams) ;;
  sigma <- as_tensor sigma ;;
  sigma <- align_sigma sigma ;;
  (* Likelihood of the data *)
  let data := Nd 3 (data_tensor modelParams) in
  let mask := tmap (fun d => negb (isnan d)) 3 (data_tensor modelParams) in
  let len_batch_shape := (Z.of_nat (rank new_cases) - 3)%Z in
  (* the masked tensors that are formatted for the debug log (lines 36-41) *)
  _ <- tf "boolean_mask" (nd_boolean_mask data mask 0) ;;
  _ <- tf "boolean_mask" (nd_boolean_mask new_cases mask len_batch_shape) ;;
  loc <- tf "boolean_mask" (nd_boolean_mask new_cases mask len_batch_shape) ;;
  scale <- tf "mul" (scale_expr sigma new_cases) ;;
  scale <- tf "boolean_mask" (nd_boolean_mask scale mask len_batch_shape) ;;
  observed <- tf "boolean_mask" (nd_boolean_mask data mask 0) ;;
  likelihood <- yield_ (StudentT_like loc scale observed) ;;
  Ret likelihood.


(** [def studentT_likelihood(modelParams, new_cases)] *)
Definition studentT_likelihood_fn : pyfunction :=
  {| fn_name := "studentT_likelihood";
     fn_params := ["modelParams"; "new_cases"];
     fn_body := fun args =>
       match args with
       | [VParams modelParams; VTensor new_cases] =>
           studentT_likelihood modelParams new_cases
       | _ => Raise (TypeError "studentT_likelihood: unsupported operand")
       end |}.

(** *** Reading the yielded Student-t distribution

    [pm.StudentT] with vector parameters is a product of independent
    Student-t densities, one per position; [reinterpreted_batch_ndims=1]
    sums their logarithms over the last axis.  A [term] is one factor. *)
Record term : Type := {
  t_df : Z;
  t_loc : R;
  t_scale : R;
  t_observed : npfloat
}.

Definition rank1 {A : Type} (x : ndarray A) : option (list A) :=
  match x with
  | Nd n t =>
      match n return tensor A n -> option (list A) with
      | 1%nat => fun t => Some t
      | _ => fun _ => None
      end t
  end.

Definition rank2 {A : Type} (x : ndarray A) : option (list (list A)) :=
  match x with
  | Nd n t =>
      match n return tensor A n -> option (list (list A)) with
      | 2%nat => fun t => Some t
      | _ => fun _ => None
      end t
  end.

Definition zip_terms (df : Z) (loc scale : list R) (observed : list npfloat) : list term :=
  map (fun '(x, (s, d)) => {| t_df := df; t_loc := x; t_scale := s; t_observed := d |})
      (combine loc (combine scale observed)).

(** The parameters of a yielded [pm.StudentT] object. *)
Definition student_params (d : pyvalue)
  : option (Z * ndarray R * ndarray R * ndarray npfloat) :=
  match d with
  | VObj cls kw =>
      if String.eqb cls "pm.StudentT" then
        match dict_get kw "df", dict_get kw "loc", dict_get kw "scale",
              dict_get kw "observed" with
        | Some (VInt df), Some (VTensor loc), Some (VTensor scale),
          Some (VObserved observed) => Some (df, loc, scale, observed)
        | _, _, _, _ => None
        end
      else None
  | _ => None
  end.

(** The factors of a likelihood without batch axis. *)
Definition terms_of (d : pyvalue) : option (list term) :=
  match student_params d with
  | Some (df, loc, scale, observed) =>
      match rank1 loc, rank1 scale, rank1 observed with
      | Some l, Some s, Some ob => Some (zip_terms df l s ob)
      | _, _, _ => None
      end
  | None => None
  end.

(** The factors of a likelihood with one batch axis, batch by batch: the
    observations are shared by all batches. *)
Definition batched_terms_of (d : pyvalue) : option (list (list term)) :=
  match student_params d with
  | Some (df, loc, scale, observed) =>
      match rank2 loc, rank2 scale, rank1 observed with
      | Some l, Some s, Some ob =>
          Some (map (fun '(lb, sb) => zip_terms df lb sb ob) (combine l s))
      | _, _, _ => None
      end
  | None => None
  end.

(** [shaped [d1; ...; dn] x]: the tensor [x] has the shape [(d1, ..., dn)]. *)
Fixpoint shaped {A : Type} (s : list nat) : tensor A (length s) -> Prop :=
  match s return tensor A (length s) -> Prop with
  | [] => fun _ => True
  | d :: s' => fun (l : list (tensor A (length s'))) =>
      length l = d /\ Forall (shaped s') l
  end.

(** What one entry of the data contributes: nothing when it is [nan], and
    otherwise one factor with 4 degrees of freedom, observed at the entry. *)
Definition entry_term (d : npfloat) (x s : R) : list term :=
  if isnan d then []
  else [ {| t_df := 4; t_loc := x; t_scale := s; t_observed := d |} ].

(** The contributions of all entries, in row-major order, for an expected
    tensor [X] and a scale tensor [S] of the shape of the data [D]. *)
Definition masked_terms (D : list npfloat) (X S : list R) : list term :=
  flat_map (fun '(d, (x, s)) => entry_term d x s) (combine D (combine X S)).

(** The same with the scale of an entry given by a rule in the scale
    parameter [s] of the entry's country and its expected count [x]. *)
Definition ruled_terms (rule : R -> R -> R)
  (data : tensor npfloat 3) (new_cases : tensor R 3) (sigma : list R) : list term :=
  flat_map (fun '(dplane, xplane) =>
    flat_map (fun '(s, (drow, xrow)) =>
      flat_map (fun '(d, x) => entry_term d x (rule s x)) (combine drow xrow))
      (combine sigma (combine dplane xplane)))
    (combine data new_cases).

(** All entries of a tensor satisfy [P]. *)
Definition all_entries {A : Type} (P : A -> Prop) (n : nat) (x : tensor A n) : Prop :=
  Forall P (elems n x).

(** Modelled from the spec: the soft-plus transform of
    [covid19_npis.transformations] (not part of these sources), which the
    spec names as the guarantee of a positive scale; the value handed to the
    model is [log (1 + exp u)] for the unconstrained value [u] of a draw. *)
Definition softplus (u : R) : R := ln (1 + exp u).

(** Modelled from the spec: what the framework hands to the model for a
    distribution that is declared with [transform=transformations.SoftPlus]
    (the framework and the transformation are not part of these sources):
    the soft-plus of the unconstrained value [u] of the draw, entry by
    entry. *)
Definition constrained_draw (dist : pyvalue) (u : ndarray R) : option pyvalue :=
  match dist with
  | VObj _ kwargs =>
      match dict_get kwargs "transform" with
      | Some (VObj transform _) =>
          if String.eqb transform "transformations.SoftPlus"
          then Some (VTensor (unop softplus u))
          else None
      | _ => None
      end
  | _ => None
  end.

(** The unmasked scale tensor of a likelihood without batch axis, for a
    rule that gives the scale of an entry from the scale parameter of its
    country and its expected count. *)
Definition scale_tensor (rule : R -> R -> R) (sigma : list R) (new_cases : tensor R 3)
  : tensor R 3 :=
  map (fun plane => map (fun '(s, row) => map (rule s) row) (combine sigma plane))
      new_cases.


(* ------------------------------------------------------------------------ *)
(** ** model.py *)
(* ------------------------------------------------------------------------ *)

Definition Rsum (l : list R) : R := fold_right Rplus 0 l.

Definition dot (a b : list R) : R :=
  Rsum (map (fun '(x, y) => x * y) (combine a b)).

(** [tf.einsum("...an,...bn->...ab", X, Y)]: on the two last axes the
    entry [(a, b)] is the sum over [n] of [X[a][n] * Y[b][n]]; the leading
    axes are matched one to one. *)
Fixpoint einsum_an_bn_ab (n : nat) : tensor R n -> tensor R n -> option (tensor R n) :=
  match n return tensor R n -> tensor R n -> option (tensor R n) with
  | O => fun _ _ => None
  | S n' =>
      match n' return (tensor R n' -> tensor R n' -> option (tensor R n')) ->
                      tensor R (S n') -> tensor R (S n') -> option (tensor R (S n')) with
      | O => fun _ _ _ => None
      | S O => fun _ (X Y : list (list R)) =>
          Some (map (fun a => map (fun b => dot a b) Y) X)
      | S (S _) => fun rec lx ly => zipM rec lx ly
      end (einsum_an_bn_ab n')
  end.

Definition nd_einsum_an_bn_ab (x y : ndarray R) : option (ndarray R) :=
  match recast (rank y) (rank x) (body y) with
  | Some y' =>
      match einsum_an_bn_ab (rank x) (body x) y' with
      | Some z => Some (Nd (rank x) z)
      | None => None
      end
  | None => None
  end.

(** [tf.linalg.normalize(x, ord=1, axis=-1)]: every vector along the last
    axis is divided by the sum of the absolute values of its entries; the
    second component are these sums (with the last axis kept, of length
    one). *)
Definition l1_norm (row : list R) : R := Rsum (map Rabs row).

Definition l1_normalize_row (row : list R) : list R :=
  map (fun x => x / l1_norm row) row.

Fixpoint normalize_ord1 (n : nat) : tensor R n -> option (tensor R n * tensor R n) :=
  match n return tensor R n -> option (tensor R n * tensor R n) with
  | O => fun _ => None
  | S n' =>
      match n' return (tensor R n' -> option (tensor R n' * tensor R n')) ->
                      tensor R (S n') -> option (tensor R (S n') * tensor R (S n')) with
      | O => fun _ (row : list R) => Some (l1_normalize_row row, [l1_norm row])
      | S _ => fun rec l =>
          match mapM rec l with
          | Some r => Some (map fst r, map snd r)
          | None => None
          end
      end (normalize_ord1 n')
  end.

Definition nd_normalize_ord1 (x : ndarray R) : option (ndarray R * ndarray R) :=
  match normalize_ord1 (rank x) (body x) with
  | Some (y, nrm) => Some (Nd (rank x) y, Nd (rank x) nrm)
  | None => None
  end.

(** [tf.einsum("t...ca->...tca", x)]: the leading (time) axis is moved
    behind the batch axes. *)
Fixpoint einsum_time_inwards (n : nat) : tensor R n -> option (tensor R n) :=
  match n return tensor R n -> option (tensor R n) with
  | O => fun _ => None
  | S n' =>
      match n' return (tensor R n' -> option (tensor R n')) ->
                      tensor R (S n') -> option (tensor R (S n')) with
      | 2%nat => fun _ x => Some x
      | S (S (S k)) => fun rec (x : list (list (tensor R (S (S k))))) =>
          mapM rec (swap_axes01 x)
      | _ => fun _ _ => None
      end (einsum_time_inwards n')
  end.

Definition nd_einsum_time_inwards (x : ndarray R) : option (ndarray R) :=
  option_map (Nd (rank x)) (einsum_time_inwards (rank x) (body x)).

(** [x[0, :]] *)
Definition nd_first_slice {A : Type} (x : ndarray A) : option (ndarray A) :=
  match x with
  | Nd n t =>
      match n return tensor A n -> option (ndarray A) with
      | S (S n') => fun (l : list (tensor A (S n'))) =>
          match l with
          | t0 :: _ => Some (Nd (S n') t0)
          | [] => None
          end
      | _ => fun _ => None
      end t
  end.

(** [tf.clip_by_value(x, lo, hi)] on a tensor of real numbers, which is
    [tf.maximum(tf.minimum(x, hi), lo)]. *)
Definition clip_by_value (x : ndarray R) (lo hi : R) : ndarray R :=
  unop (fun v => Rmax (Rmin v hi) lo) x.

(** [tf.clip_by_value] on an entry that may be [nan]: a [nan] passes the
    clipping unchanged. *)
Definition clip_nan (lo hi : R) (d : npfloat) : npfloat :=
  match d with
  | NaN => NaN
  | Val v => Val (Rmax (Rmin v hi) lo)
  end.

(** [x[0, :]] for a tensor of either kind: the output of the infection
    model is followed where it holds [nan]. *)
Definition first_slice (x : pyvalue) : Gen pyvalue :=
  match x with
  | VTensor t => tf "strided_slice" (option_map VTensor (nd_first_slice t))
  | VObserved t => tf "strided_slice" (option_map VObserved (nd_first_slice t))
  | _ => Raise (TypeError "tensor expected")
  end.

(** [tf.clip_by_value(x, lo, hi)] on a tensor of either kind. *)
Definition tf_clip_by_value (x : pyvalue) (lo hi : R) : Gen pyvalue :=
  match x with
  | VTensor t => Ret (VTensor (clip_by_value t lo hi))
  | VObserved t => Ret (VObserved (unop (clip_nan lo hi) t))
  | _ => Raise (TypeError "tensor expected")
  end.

Definition shape_label3 (a b c : string) : pyvalue := VTuple [VStr a; VStr b; VStr c].

Definition Deterministic (name : string) (value : ndarray R) (shape_label : pyvalue)
  : pyvalue :=
  VObj "Deterministic"
    [("name", VStr name); ("value", VTensor value); ("shape_label", shape_label)].

(** The same for a tensor value of either kind. *)
Definition Deterministic_of (name : string) (value : pyvalue) (shape_label : pyvalue)
  : pyvalue :=
  VObj "Deterministic"
    [("name", VStr name); ("value", value); ("shape_label", shape_label)].

(** [main_model] up to the likelihood: the statements of lines 37-166,
    returning the three observables as they are in scope at line 208. *)
Definition main_model_observables (modelParams : ModelParams)
  : Gen (pyvalue * pyvalue * pyvalue) :=
  (* Create initial Reproduction Number R_0 *)
  R_0 <- yield_ (VObj "reproduction_number.construct_R_0"
           [ ("name", VStr "R_0"); ("modelParams", VParams modelParams);
             ("loc", VFloat 2.0); ("scale", VFloat 0.5); ("hn_scale", VFloat 0.3) ]) ;;
  (* Create time dependent reproduction number R(t) *)
  R_t <- yield_ (VObj "reproduction_number.construct_R_t"
           [ ("name", VStr "R_t"); ("modelParams", VParams modelParams); ("R_0", R_0) ]) ;;
  (* Create Contact matrix C *)
  C <- yield_ (VObj "LKJCholesky"
         [ ("name", VStr "C_cholesky");
           ("dimension", VInt (Z.of_nat (num_age_groups modelParams)));
           ("concentration", VInt 4);
           ("conditionally_independent", VBool true);
           ("event_stack", VInt (Z.of_nat (num_countries modelParams)));
           ("validate_args", VBool true);
           ("transform", VObj "transformations.CorrelationCholesky" []);
           ("shape_label", shape_label3 "country" "age_group_i" "age_group_j") ]) ;;
  C <- as_tensor C ;;
  (* We add C to the trace via Deterministics *)
  CC <- tf "einsum" (nd_einsum_an_bn_ab C C) ;;
  C <- yield_ (Deterministic "C" CC (shape_label3 "country" "age_group_i" "age_group_j")) ;;
  C <- as_tensor C ;;
  (* Finally we normalize C *)
  '(C, _) <- tf "normalize" (nd_normalize_ord1 C) ;;
  (* Create generation interval g *)
  let len_gen_interv_kernel := 12%Z in
  g <- yield_ (VObj "construct_generation_interval" [("l", VInt len_gen_interv_kernel)]) ;;
  '(gen_kernel, mean_gen_interv) <- unpack2 g ;;
  (* Generate exponential distribution initial infections h_0(t) *)
  h_0_t <- yield_ (VObj "construct_h_0_t"
             [ ("modelParams", VParams modelParams);
               ("len_gen_interv_kernel", VInt len_gen_interv_kernel);
               ("R_t", R_t);
               ("mean_gen_interv", mean_gen_interv);
               ("mean_test_delay", VInt 0) ]) ;;
  (* Add h_0(t) to trace *)
  h <- as_tensor h_0_t ;;
  h <- tf "einsum" (nd_einsum_time_inwards h) ;;
  _ <- yield_ (Deterministic "h_0_t" h (shape_label3 "time" "country" "age_group")) ;;
  (* Get population size tensor from modelParams *)
  let N := VTensor (Nd 2 (N_data_tensor modelParams)) in
  (* Create new cases new_I(t) *)
  new_E_t <- call "InfectionModel"
               [ ("N", N); ("h_0_t", h_0_t); ("R_t", R_t); ("C", VTensor C);
                 ("gen_kernel", gen_kernel) ] ;;
  _ <- first_slice new_E_t ;;
  (* Clip in order to avoid infinities *)
  new_E_t <- tf_clip_by_value new_E_t 1e-7 1e9 ;;
  (* Add new_E_t to trace *)
  new_E_t <- yield_ (Deterministic_of "new_E_t" new_E_t
                       (shape_label3 "time" "country" "age_group")) ;;
  (* Tests *)
  tests <- yield_ (VObj "number_of_tests.generate_testing"
             [ ("name_total", VStr "total_tests");
               ("name_positive", VStr "positive_tests");
               ("modelParams", VParams modelParams);
               ("new_E_t", new_E_t) ]) ;;
  '(total_tests, positive_tests) <- unpack2 tests ;;
  (* Deaths *)
  death_Phi <- yield_ (VObj "deaths._calc_Phi_IFR"
                 [ ("name", VStr "IFR"); ("modelParams", VParams modelParams) ]) ;;
  delay <- yield_ (VObj "deaths._construct_reporting_delay"
             [ ("name", VStr "delay_deaths"); ("modelParams", VParams modelParams) ]) ;;
  '(death_m, death_theta) <- unpack2 delay ;;
  deaths_delayed <- yield_ (VObj "deaths.calc_delayed_deaths"
                      [ ("name", VStr "cases_delayed_deaths");
                        ("new_cases", new_E_t);
                        ("Phi_IFR", death_Phi);
                        ("m", death_m);
                        ("theta", death_theta) ]) ;;
  (* the weekly modulations of lines 176-201 are comments *)
  Ret (total_tests, positive_tests, deaths_delayed).

(** Lines 208-211: the likelihood generator is created by a call with four
    positional arguments, yielded (the framework runs it and sends back what
    it returns), and its value is returned. *)
Definition main_model (modelParams : ModelParams) : Gen pyvalue :=
  '(total_tests, positive_tests, deaths_delayed) <- main_model_observables modelParams ;;
  likelihood <- py_call studentT_likelihood_fn
                  [VParams modelParams; positive_tests; total_tests; deaths_delayed] ;;
  Ret likelihood.

(* ------------------------------------------------------------------------ *)
(** ** weekly_modulation.py *)
(* ------------------------------------------------------------------------ *)

(** The names that [model.py] binds at module level and therefore hands on
    through [from .model import *]; [pkg] are the names that its own star
    import of the package [covid19_npis.model] binds (the package
    initialisation is not part of these sources). *)
Definition model_py_names (pkg : list string) : list string :=
  ["logging"; "pm"; "tf"; "np"; "covid19_npis"; "transformations"] ++ pkg ++
  ["LKJCholesky"; "Deterministic"; "Gamma"; "HalfCauchy"; "Normal"; "LogNormal";
   "convolution_with_varying_kernel"; "gamma"; "log"; "main_model"].

(** The names bound at module level of [weekly_modulation.py], by its
    import statements (lines 5-24) and its one definition. *)
Definition weekly_modulation_globals (pkg : list string) : list string :=
  ["tf"; "tfp"; "logging"; "pm"; "np"] ++ model_py_names pkg ++
  ["ut"; "log"; "transformations";
   "Normal"; "LogNormal"; "Deterministic"; "HalfNormal"; "Gamma"; "VonMises";
   "week_modulation"].

(** Reading a name that is not local to the function. *)
Definition global (G : list string) (name : string) : Gen unit :=
  if existsb (String.eqb name) G then Ret tt else Raise (NameError name).

(** The [model] argument: [None], or an object with the attributes that
    the function reads. *)
Record Cov19Model : Type := {
  sim_shape : list nat;
  is_hierarchical : bool;
  sim_begin_isoweekday : Z
}.

Definition getattr {A : Type} (model : option Cov19Model) (attr : string)
  (field : Cov19Model -> A) : Gen A :=
  match model with
  | Some m => Ret (field m)
  | None => Raise (AttributeError attr)
  end.

(** [np.ones(shape)] and [np.zeros(n)] *)
Fixpoint full (s : list nat) (v : R) : tensor R (length s) :=
  match s return tensor R (length s) with
  | [] => v
  | d :: s' => repeat (full s' v) d
  end.

Definition isoweekday_after (start : Z) (days : nat) : Z :=
  ((start - 1 + Z.of_nat days) mod 7 + 1)%Z.

(** The loop of [step_modulation] (lines 81-84), from day [i] on. *)
Fixpoint step_modulation_loop (G : list string) (model : option Cov19Model)
  (weekend_days : list Z) (i count : nat) : Gen (list R) :=
  match count with
  | O => Ret []
  | S count' =>
      sim_begin <- getattr model "sim_begin" sim_begin_isoweekday ;;
      _ <- global G "datetime" ;;
      let date_curr := isoweekday_after sim_begin i in
      let entry := if existsb (Z.eqb date_curr) weekend_days then 1 else 0 in
      rest <- step_modulation_loop G model weekend_days (S i) count' ;;
      Ret (entry :: rest)
  end.

Definition step_modulation (G : list string) (model : option Cov19Model)
  (weekend_days : list Z) (shape_modulation : list nat) : Gen pyvalue :=
  _ <- global G "np" ;;
  match shape_modulation with
  | [] => Raise (IndexError "list index out of range")
  | n :: _ =>
      modulation <- step_modulation_loop G model weekend_days 0 n ;;
      Ret (VTensor (Nd 1 modulation))
  end.

(** [abs_sine_modulation] contains a [yield]: calling it makes a generator
    and runs none of its body (lines 99-116). *)
Definition abs_sine_modulation : Gen pyvalue :=
  Ret (VObj "generator" [("function", VStr "abs_sine_modulation")]).

(** Lines 167-168. *)
Definition select_modulation (week_modulation_type : string)
  (step abs_sine : Gen pyvalue) : Gen pyvalue :=
  modulation <- (if String.eqb week_modulation_type "step" then step else Ret (VInt 0)) ;;
  modulation <- (if String.eqb week_modulation_type "abs_sine" then abs_sine
                 else Ret (VInt 0)) ;;
  Ret modulation.

(** The amplitude of the weekly modulation (lines 130-135). *)
Definition weekly_modulation_weight : pyvalue :=
  VObj "HalfNormal"
    [ ("name", VStr "weekly_modulation_weight"); ("scale", VFloat 0.5);
      ("conditionally_independent", VBool true);
      ("transform", VObj "transformations.SoftPlus" [("scale", VFloat 0.5)]) ].

Definition week_modulation (G : list string)
  (name : string) (modelParams : ModelParams) (cases : pyvalue)
  (week_modulation_type : string)
  (name_weekend_factor name_offset_modulation : string)
  (pr_mean_weekend_factor pr_sigma_weekend_factor : R)
  (weekend_days : list Z) (model : option Cov19Model) : Gen pyvalue :=
  _ <- global G "log" ;;
  _ <- global G "Normal" ;;
  let delta_d_i :=
    VObj "Normal" [ ("name", VStr "delta_d_i"); ("loc", VFloat 0.0); ("scale", VFloat 1.0);
                    ("shape_label", VTuple [VStr "intervention"; VNone; VNone]);
                    ("conditionally_independent", VBool true) ] in
  (* amplitude of weekly modulation *)
  _ <- global G "HalfNormal" ;;
  _ <- global G "transformations" ;;
  weight <- yield_ weekly_modulation_weight ;;
  (* Get the shape of the modulation from the shape of our simulation *)
  shape_modulation <- getattr model "sim_shape" sim_shape ;;
  hierarchical <- getattr model "is_hierarchical" is_hierarchical ;;
  weekend_factor <-
    (if negb hierarchical then
       _ <- global G "pm" ;;
       _ <- global G "tt" ;;
       mu <- call "tt.log" [("x", VFloat pr_mean_weekend_factor)] ;;
       weekend_factor_log <- call "pm.Normal"
           [ ("name", VStr (name_weekend_factor ++ "_log")); ("mu", mu);
             ("sigma", VFloat pr_sigma_weekend_factor) ] ;;
       _ <- global G "tt" ;;
       weekend_factor <- call "tt.exp" [("x", weekend_factor_log)] ;;
       _ <- global G "pm" ;;
       _ <- call "pm.Deterministic"
              [("name", VStr name_weekend_factor); ("var", weekend_factor)] ;;
       Ret weekend_factor
     else
       _ <- global G "ut" ;;
       _ <- global G "tt" ;;
       pr_mean <- call "tt.log" [("x", VFloat pr_mean_weekend_factor)] ;;
       levels <- call "ut.hierarchical_normal"
           [ ("name_L1", VStr (name_weekend_factor ++ "_hc_L1_log"));
             ("name_L2", VStr (name_weekend_factor ++ "_hc_L2_log"));
             ("name_sigma", VStr ("sigma_" ++ name_weekend_factor));
             ("pr_mean", pr_mean);
             ("pr_sigma", VFloat pr_sigma_weekend_factor) ] ;;
       '(weekend_factor_L2_log, weekend_factor_L1_log) <- unpack2 levels ;;
       _ <- global G "tt" ;;
       weekend_factor_L1 <- call "tt.exp" [("x", weekend_factor_L1_log)] ;;
       _ <- global G "tt" ;;
       weekend_factor_L2 <- call "tt.exp" [("x", weekend_factor_L2_log)] ;;
       _ <- global G "pm" ;;
       _ <- call "pm.Deterministic"
              [("name", VStr (name_weekend_factor ++ "_hc_L1")); ("var", weekend_factor_L1)] ;;
       _ <- global G "pm" ;;
       _ <- call "pm.Deterministic"
              [("name", VStr (name_weekend_factor ++ "_hc_L2")); ("var", weekend_factor_L2)] ;;
       Ret weekend_factor_L2) ;;
  (* Different modulation types *)
  modulation <- select_modulation week_modulation_type
                  (step_modulation G model weekend_days shape_modulation)
                  abs_sine_modulation ;;
  hierarchical <- getattr model "is_hierarchical" is_hierarchical ;;
  modulation <-
    (if hierarchical then
       _ <- global G "tt" ;;
       call "tt.shape_padaxis" [("t", modulation); ("axis", VInt (-1))]
     else Ret modulation) ;;
  _ <- global G "tt" ;;
  _ <- global G "np" ;;
  let ones := VTensor (Nd (length shape_modulation) (full shape_modulation 1)) in
  product <- call "*" [("left", weekend_factor); ("right", modulation)] ;;
  difference <- call "-" [("left", ones); ("right", product)] ;;
  multiplication_vec <- call "tt.abs_" [("x", difference)] ;;
  new_cases_inferred_eff <- call "*" [("left", cases); ("right", multiplication_vec)] ;;
  _ <- global G "name_cases" ;;
  name_cases <- call "globals" [("name", VStr "name_cases")] ;;
  _ <- match name_cases with
       | VNone => Ret VNone
       | _ =>
           _ <- global G "pm" ;;
           call "pm.Deterministic" [("name", name_cases); ("var", new_cases_inferred_eff)]
       end ;;
  Ret new_cases_inferred_eff.

(* ------------------------------------------------------------------------ *)
(** ** modelParams.py *)
(* ------------------------------------------------------------------------ *)

Definition cfg_shape (dims : list nat) : cfgval :=
  CTuple (map (fun d => CInt (Z.of_nat d)) dims).

Definition cfg_labels (labels : list string) : cfgval :=
  CTuple (map CStr labels).

(** [__get_default_dist_config] (lines 52-107).  [(1)] is the integer 1 and
    [("g_mu")] is a string: parentheses without a comma make no tuple. *)
Definition get_default_dist_config (num_countries num_age_groups len_df : nat)
  : pydict (pydict cfgval) :=
  [ ("I_0",
       [ ("name", CStr "I_0");
         ("long_name", CStr "Initial infectious people");
         ("shape", cfg_shape [num_countries; num_age_groups]);
         ("shape_label", cfg_labels ["country"; "age_group"]);
         ("math", CStr "I_0") ]);
    ("R",
       [ ("name", CStr "R");
         ("long_name", CStr "Reproduction number");
         ("shape", cfg_shape [num_countries; num_age_groups]);
         ("shape_label", cfg_labels ["country"; "age_group"]);
         ("math", CStr "R") ]);
    ("C",
       [ ("name", CStr "C");
         ("long_name", CStr "Contact matrix");
         ("shape", cfg_shape [num_countries; num_age_groups; num_age_groups]);
         ("shape_label", cfg_labels ["country"; "age_group_i"; "age_group_j"]);
         ("math", CStr "C") ]);
    ("sigma",
       [ ("name", CStr "sigma");
         ("long_name", CStr "likelihood scale");
         ("shape", CInt 1);
         ("shape_label", CStr "likelihood scale");
         ("math", CStr "\sigma") ]);
    ("g_mu",
       [ ("name", CStr "g_mu");
         ("long_name", CStr "long_name g_mu");
         ("shape", CInt 1);
         ("shape_label", CStr "g_mu");
         ("math", CStr "g_{\mu}") ]);
    ("g_theta",
       [ ("name", CStr "g_theta");
         ("long_name", CStr "long_name g_theta");
         ("shape", CInt 1);
         ("shape_label", CStr "g_theta");
         ("math", CStr "g_{\theta}") ]);
    ("new_cases",
       [ ("name", CStr "new_cases");
         ("long_name", CStr "Daily new infectious cases");
         ("shape", cfg_shape [len_df; num_countries; num_age_groups]);
         ("shape_label", cfg_labels ["time"; "country"; "age_group"]) ]) ].

(** [value["name"] == name] for a string [name]. *)
Definition name_is (v : cfgval) (name : string) : bool :=
  match v with
  | CStr s => String.eqb s name
  | _ => false
  end.

(** The loop of [get_distribution_by_name] (lines 47-49): [this_dist] is
    the local variable, [None] as long as it is unbound. *)
Fixpoint find_dist (items : pydict (pydict cfgval)) (name : string)
  (this_dist : option string) : exn + option string :=
  match items with
  | [] => inr this_dist
  | (dist, value) :: items' =>
      match dict_get value "name" with
      | None => inl (KeyError "name")
      | Some v =>
          if name_is v name
          then find_dist items' name (Some dist)
          else find_dist items' name this_dist
      end
  end.

Definition get_distribution_by_name (self : ModelParams) (name : string)
  : exn + pydict cfgval :=
  match find_dist (distributions self) name None with
  | inl e => inl e
  | inr None => inl (UnboundLocalError "this_dist")
  | inr (Some this_dist) =>
      match dict_get (distributions self) this_dist with
      | Some config => inr config
      | None => inl (KeyError this_dist)
      end
  end.

(** A [ModelParams] object as the model functions use it: the default
    configuration of [__init__] for the given numbers of countries and age
    groups, with the two tensors as attributes. *)
Definition new_ModelParams (num_countries num_age_groups : nat)
  (data : tensor npfloat 3) (N : tensor R 2) : ModelParams :=
  {| num_countries := num_countries;
     num_age_groups := num_age_groups;
     len_df := length data;
     distributions := get_default_dist_config num_countries num_age_groups (length data);
     data_tensor := data;
     N_data_tensor := N |}.

(** [d[key] = v]: the value of a key that is there is replaced in place, a
    new key is added at the end. *)
Fixpoint dict_set {V : Type} (d : pydict V) (key : string) (v : V) : pydict V :=
  match d with
  | [] => [(key, v)]
  | (k, w) :: d' =>
      if String.eqb k key then (k, v) :: d' else (k, w) :: dict_set d' key v
  end.

(** The override that the docstring of the class shows (lines 16-20),
    [params.distributions[dist]["name"] = new_name]: the configuration of
    [dist] is looked up, with [KeyError] for a missing key, and its ["name"]
    is set in place. *)
Definition set_distribution_name (self : ModelParams) (dist new_name : string)
  : exn + ModelParams :=
  match dict_get (distributions self) dist with
  | None => inl (KeyError dist)
  | Some config =>
      inr {| num_countries := num_countries self;
             num_age_groups := num_age_groups self;
             len_df := len_df self;
             distributions :=
               dict_set (distributions self) dist (dict_set config "name" (CStr new_name));
             data_tensor := data_tensor self;
             N_data_tensor := N_data_tensor self |}
  end.

(** The data frame, as far as [ModelParams] reads it: its datetime index
    (one day number for each row) and the two levels of its columns, the
    countries and the age groups. *)
Record DataFrame : Type := {
  df_index : list Z;
  columns_levels0 : list string;
  columns_levels1 : list string
}.

(** [index.min()] and [index.max()]; [None] is the [NaT] of an empty
    index. *)
Definition index_min (index : list Z) : option Z :=
  match index with
  | [] => None
  | d :: rest => Some (fold_right Z.min d rest)
  end.

Definition index_max (index : list Z) : option Z :=
  match index with
  | [] => None
  | d :: rest => Some (fold_right Z.max d rest)
  end.

(** The dict that [__get_default_data_config] returns. *)
Record data_config : Type := {
  cfg_begin : option Z;
  cfg_end : option Z;
  cfg_age_groups : list string;
  cfg_countries : list string
}.

(** The two loops of lines 118-123: for [i] in [range(len(levels))] the
    label [levels[i]] is appended to the list [acc]. *)
Fixpoint append_levels (levels : list string) (i count : nat) (acc : list string)
  : exn + list string :=
  match count with
  | O => inr acc
  | S count' =>
      match nth_error levels i with
      | Some label => append_levels levels (S i) count' (acc ++ [label])
      | None => inl (IndexError "index out of bounds")
      end
  end.

(** [__get_default_data_config] (lines 109-125). *)
Definition get_default_data_config (df : DataFrame) : exn + data_config :=
  let begin_ := index_min (df_index df) in
  let end_ := index_max (df_index df) in
  match append_levels (columns_levels0 df) 0 (length (columns_levels0 df)) [] with
  | inl e => inl e
  | inr countries =>
      match append_levels (columns_levels1 df) 0 (length (columns_levels1 df)) [] with
      | inl e => inl e
      | inr age_groups =>
          inr {| cfg_begin := begin_; cfg_end := end_;
                 cfg_age_groups := age_groups; cfg_countries := countries |}
      end
  end.

(** The attributes that [__init__] sets on the new object (lines 29-41):
    the two numbers, the data frame and the two configurations.  It sets
    neither [data_tensor] nor [N_data_tensor]. *)
Record ModelParams_attributes : Type := {
  init_num_countries : nat;
  init_num_age_groups : nat;
  init_df : DataFrame;
  init_distributions : pydict (pydict cfgval);
  init_data : data_config
}.

(** [ModelParams.__init__] *)
Definition ModelParams_init (data : DataFrame) : exn + ModelParams_attributes :=
  (* Get number of age groups and countries from data *)
  let num_countries := length (columns_levels0 data) in
  let num_age_groups := length (columns_levels1 data) in
  (* Data object *)
  let df := data in
  (* Configs for distribution *)
  let distributions :=
    get_default_dist_config num_countries num_age_groups (length (df_index df)) in
  (* Config for input data *)
  match get_default_data_config data with
  | inl e => inl e
  | inr data_cfg =>
      inr {| init_num_countries := num_countries;
             init_num_age_groups := num_age_groups;
             init_df := df;
             init_distributions := distributions;
             init_data := data_cfg |}
  end.

(** [distributions[key]["shape"]] *)
Definition shape_of (distributions : pydict (pydict cfgval)) (key : string)
  : option cfgval :=
  match dict_get distributions key with
  | Some config => dict_get config "shape"
  | None => None
  end.

(* ------------------------------------------------------------------------ *)
(** ** A concrete run *)
(* ------------------------------------------------------------------------ *)

(** One country with two age groups, observed on two days; the second day
    of the older group is missing. *)
Definition example_params : ModelParams :=
  new_ModelParams 1 2 [[[Val 3; Val 1]]; [[Val 4; NaN]]] [[1000; 500]].

(** A [ModelParams] whose entry ["R"] has lost its ["name"] field. *)
Definition example_params_nameless : ModelParams :=
  {| num_countries := 1;
     num_age_groups := 2;
     len_df := 2;
     distributions :=
       [ ("I_0", [("name", CStr "I_0"); ("math", CStr "I_0")]);
         ("R", [("long_name", CStr "Reproduction number")]);
         ("C", [("name", CStr "C")]) ];
     data_tensor := data_tensor example_params;
     N_data_tensor := N_data_tensor example_params |}.

Definition tensor3 (x : tensor R 3) : pyvalue := VTensor (Nd 3 x).

(** Answers of the framework and of the functions outside the sources:
    the contact Cholesky factor is [chol], the likelihood scale is [sigma],
    the infection model returns [infections], and every observable is
    [cases]. *)
Definition example_oracle (chol sigma infections cases : pyvalue) : oracle :=
  fun _ ev =>
    match ev with
    | Yielded (VObj cls _) =>
        if String.eqb cls "LKJCholesky" then inr chol
        else if String.eqb cls "HalfCauchy" then inr sigma
        else if String.eqb cls "construct_generation_interval"
          then inr (VTuple [VTensor (Nd 2 [[0.5; 0.5]]); VTensor (Nd 2 [[4]])])
        else if String.eqb cls "number_of_tests.generate_testing"
          then inr (VTuple [cases; cases])
        else if String.eqb cls "deaths._construct_reporting_delay"
          then inr (VTuple [VTensor (Nd 2 [[20]]); VTensor (Nd 2 [[5]])])
        else if String.eqb cls "deaths.calc_delayed_deaths" then inr cases
        else inr (tensor3 [[[1; 1]]; [[1; 1]]])
    | Yielded _ => inr VNone
    | Called _ _ => inr infections
    end.

(** A Cholesky factor of the correlation matrix [[1, -0.6], [-0.6, 1]]. *)
Definition example_chol : tensor R 3 := [[[1; 0]; [-0.6; 0.8]]].

(* ------------------------------------------------------------------------ *)
(** ** Vocabulary of the statements *)
(* ------------------------------------------------------------------------ *)

(** The logarithm of the density of a product of factors, for a given
    logarithmic density of one Student-t factor. *)
Definition log_density (logpdf : term -> R) (ts : list term) : R :=
  Rsum (map logpdf ts).

(** What an entry adds to the log-density. *)
Definition entry_log_density (logpdf : term -> R) (d : npfloat) (x s : R) : R :=
  if isnan d then 0
  else logpdf {| t_df := 4; t_loc := x; t_scale := s; t_observed := d |}.

(** The oracle [o] only gives answers that satisfy [ok]. *)
Definition answers (o : oracle) (ok : event -> pyvalue -> Prop) : Prop :=
  forall n ev v, o n ev = inr v -> ok ev v.

(** [v] is a possible answer to the event [ev] in a run whose oracle
    satisfies [ok]. *)
Definition answerable (ok : event -> pyvalue -> Prop) (ev : event) (v : pyvalue) : Prop :=
  exists o n, answers o ok /\ respond o n ev = inr v.

(** The answered events of a log, with their answers. *)
Definition answered (log : list (event * (exn + pyvalue))) : list (event * pyvalue) :=
  flat_map (fun '(ev, r) => match r with inr v => [(ev, v)] | inl _ => [] end) log.

(** [wp ok P Q g]: in every run of [g] whose oracle satisfies [ok], all
    events satisfy [P], and when the run returns a value, [Q] holds of the
    answered events of the run and that value.  [wp_from] is the same
    after the answered events [hist]. *)
Fixpoint wp_from {A : Type} (ok : event -> pyvalue -> Prop) (P : event -> Prop)
  (Q : list (event * pyvalue) -> A -> Prop) (hist : list (event * pyvalue))
  (g : Gen A) : Prop :=
  match g with
  | Ret a => Q hist a
  | Raise _ => True
  | Vis ev k =>
      P ev /\ forall v, answerable ok ev v -> wp_from ok P Q (hist ++ [(ev, v)]) (k v)
  end.

Definition wp {A : Type} (ok : event -> pyvalue -> Prop) (P : event -> Prop)
  (Q : list (event * pyvalue) -> A -> Prop) (g : Gen A) : Prop :=
  wp_from ok P Q [] g.

(** No condition on the answers. *)
Definition any_answer (ev : event) (v : pyvalue) : Prop := True.

(** The argument [key] of the event is a tensor that satisfies [P]. *)
Definition tensor_arg (kw : list (string * pyvalue)) (key : string)
  (P : ndarray R -> Prop) : Prop :=
  exists t, dict_get kw key = Some (VTensor t) /\ P t.

(** The vectors along the last axis of a tensor. *)
Fixpoint rows (n : nat) : tensor R n -> list (list R) :=
  match n return tensor R n -> list (list R) with
  | O => fun _ => []
  | S n' =>
      match n' return (tensor R n' -> list (list R)) -> tensor R (S n') -> list (list R) with
      | O => fun _ (row : list R) => [row]
      | S _ => fun rec l => flat_map rec l
      end (rows n')
  end.

(** The matrices along the two last axes of a tensor. *)
Fixpoint matrices (n : nat) : tensor R n -> list (list (list R)) :=
  match n return tensor R n -> list (list (list R)) with
  | O => fun _ => []
  | S n' =>
      match n' return (tensor R n' -> list (list (list R))) ->
                      tensor R (S n') -> list (list (list R)) with
      | O => fun _ _ => []
      | S O => fun _ (M : list (list R)) => [M]
      | S (S _) => fun rec l => flat_map rec l
      end (matrices n')
  end.

(** The support of [LKJCholesky]: a Cholesky factor of a correlation
    matrix is square and lower triangular with a positive diagonal, and
    each of its rows has Euclidean norm one. *)
Definition corr_cholesky (L : list (list R)) : Prop :=
  Forall (fun row => length row = length L) L
  /\ (forall i j, (i < j)%nat -> nth j (nth i L []) 0 = 0)
  /\ (forall i, (i < length L)%nat -> 0 < nth i (nth i L []) 0)
  /\ Forall (fun row => dot row row = 1) L.

(** The answer to a yielded [LKJCholesky] is a tensor of such factors. *)
Definition cholesky_answers (ev : event) (v : pyvalue) : Prop :=
  match ev with
  | Yielded (VObj cls _) =>
      cls = "LKJCholesky" ->
      exists t, v = VTensor t /\ (2 <= rank t)%nat
                /\ Forall corr_cholesky (matrices (rank t) (body t))
  | _ => True
  end.

(** A row of the normalised contact matrix: the absolute values of its
    entries sum to one, and so do the entries themselves when none of them
    is negative. *)
Definition l1_normalised (row : list R) : Prop :=
  l1_norm row = 1 /\ (Forall (fun x => 0 <= x) row -> Rsum row = 1).

(** The contact matrices that a call of [InfectionModel] receives. *)
Definition contacts_satisfy (P : list R -> Prop) (ev : event) : Prop :=
  match ev with
  | Called fn kw =>
      fn = "InfectionModel" ->
      tensor_arg kw "C" (fun t => Forall P (rows (rank t) (body t)))
  | _ => True
  end.

(** The event is a weekly modulation: [modulation.weekly_modulation] of the
    lines that are commented out, or [week_modulation] itself. *)
Definition is_week_modulation (ev : event) : bool :=
  let named cls :=
    String.eqb cls "modulation.weekly_modulation" || String.eqb cls "week_modulation" in
  match ev with
  | Yielded (VObj cls _) => named cls
  | Yielded _ => false
  | Called fn _ => named fn
  end.

(** The answered events [hist] end with the four events of lines 144-166,
    and the observables are the answers to the first and the last of
    them: [generate_testing] returned the pair of the total and the positive
    tests, and [calc_delayed_deaths] returned the delayed deaths. *)
Definition observables_come_from (hist : list (event * pyvalue))
  (obs : pyvalue * pyvalue * pyvalue) : Prop :=
  let '(total_tests, positive_tests, deaths_delayed) := obs in
  exists pre kw_tests kw_phi phi kw_delay m theta kw_deaths,
    hist = pre ++
      [ (Yielded (VObj "number_of_tests.generate_testing" kw_tests),
         VTuple [total_tests; positive_tests]);
        (Yielded (VObj "deaths._calc_Phi_IFR" kw_phi), phi);
        (Yielded (VObj "deaths._construct_reporting_delay" kw_delay), VTuple [m; theta]);
        (Yielded (VObj "deaths.calc_delayed_deaths" kw_deaths), deaths_delayed) ].

(** An entry of [distributions] has a ["name"] field; its ["name"] field
    is the string [name]. *)
Definition has_name (item : string * pydict cfgval) : Prop :=
  dict_get (snd item) "name" <> None.

Definition named (name : string) (item : string * pydict cfgval) : Prop :=
  dict_get (snd item) "name" = Some (CStr name).

(** The entry of a tensor of rank 3 at the position [(t, c, a)], and
    [dflt] outside the tensor. *)
Definition entry3 {A : Type} (x : tensor A 3) (dflt : A) (t c a : nat) : A :=
  nth a (nth c (nth t x []) []) dflt.

(** Two tensors of expected cases agree at every position where the data
    has an observation. *)
Definition agree_where_observed (data : tensor npfloat 3) (x y : tensor R 3) : Prop :=
  forall t c a,
    isnan (entry3 data NaN t c a) = false -> entry3 x 0 t c a = entry3 y 0 t c a.




(** The event declares one of the two distributions of the likelihood. *)
Definition is_likelihood_event (ev : event) : bool :=
  match ev with
  | Yielded (VObj cls _) => String.eqb cls "pm.StudentT" || String.eqb cls "HalfCauchy"
  | _ => false
  end.

(** [always_from P hist g]: in every run of [g] after the answered events
    [hist], every event satisfies [P] of the answered events before it. *)
Fixpoint always_from {A : Type} (P : list (event * pyvalue) -> event -> Prop)
  (hist : list (event * pyvalue)) (g : Gen A) : Prop :=
  match g with
  | Ret _ => True
  | Raise _ => True
  | Vis ev k =>
      P hist ev
      /\ forall v, answerable any_answer ev v -> always_from P (hist ++ [(ev, v)]) (k v)
  end.

(** [w] is [v] clipped to the interval from [lo] to [hi]. *)
Definition clipped_from (lo hi v w : R) : Prop :=
  (v < lo /\ w = lo) \/ (lo <= v <= hi /\ w = v) \/ (hi < v /\ w = hi).

(** The entries of a tensor value of either kind, in row-major order. *)
Definition float_entries (v : pyvalue) : option (list npfloat) :=
  match v with
  | VTensor t => Some (map Val (elems (rank t) (body t)))
  | VObserved t => Some (elems (rank t) (body t))
  | _ => None
  end.

(** The places where the infections appear in a run after the clipping
    step, with the tensor that is there: the trace entry ["new_E_t"], the
    input [new_E_t] of [generate_testing] and the input [new_cases] of
    [calc_delayed_deaths]. *)
Definition carried_infections (ev : event) : option pyvalue :=
  match ev with
  | Yielded (VObj cls kw) =>
      if String.eqb cls "Deterministic" then
        match dict_get kw "name" with
        | Some (VStr name) =>
            if String.eqb name "new_E_t" then dict_get kw "value" else None
        | _ => None
        end
      else if String.eqb cls "number_of_tests.generate_testing" then dict_get kw "new_E_t"
      else if String.eqb cls "deaths.calc_delayed_deaths" then dict_get kw "new_cases"
      else None
  | _ => None
  end.

(** The entry is a number of the closed interval from [1e-7] to [1e9]; such
    a number is positive. *)
Definition in_range (w : npfloat) : Prop :=
  match w with
  | Val c => 1e-7 <= c <= 1e9 /\ 0 < c
  | NaN => False
  end.

(** What the clipping to the interval from [lo] to [hi] makes of the entry
    [d]: a number becomes a number of the interval, and a [nan] stays a
    [nan]. *)
Definition clipped_entry (lo hi : R) (d w : npfloat) : Prop :=
  match d, w with
  | NaN, NaN => True
  | Val v, Val c => lo <= c <= hi /\ clipped_from lo hi v c
  | _, _ => False
  end.

(** The event does not carry the infections, or it carries the tensor
    that the call of [InfectionModel] before it returned, clipped entry by
    entry. *)
Definition carries_clipped_infections (hist : list (event * pyvalue)) (ev : event) : Prop :=
  forall t,
    carried_infections ev = Some t ->
    exists kw x xs ts,
      In (Called "InfectionModel" kw, x) hist
      /\ float_entries x = Some xs
      /\ float_entries t = Some ts
      /\ Forall2 (clipped_entry 1e-7 1e9) xs ts.




(** The event is not the call of [InfectionModel], or its arguments are
    the population tensor of the model parameters, the [R_t] that
    [construct_R_t] returned, the generation kernel that
    [construct_generation_interval] returned, and the [h_0_t] that
    [construct_h_0_t] returned for this [R_t] and the mean generation
    interval; [hist] are the answered events before the call. *)
Definition feeds_infection_model (mp : ModelParams)
  (hist : list (event * pyvalue)) (ev : event) : Prop :=
  forall kw,
    ev = Called "InfectionModel" kw ->
    exists kw_R R_t kw_g gen_kernel mean_gen_interv kw_h h_0_t C,
      kw = [ ("N", VTensor (Nd 2 (N_data_tensor mp))); ("h_0_t", h_0_t); ("R_t", R_t);
             ("C", VTensor C); ("gen_kernel", gen_kernel) ]
      /\ In (Yielded (VObj "reproduction_number.construct_R_t" kw_R), R_t) hist
      /\ In (Yielded (VObj "construct_generation_interval" kw_g),
             VTuple [gen_kernel; mean_gen_interv]) hist
      /\ In (Yielded (VObj "construct_h_0_t" kw_h), h_0_t) hist
      /\ dict_get kw_h "R_t" = Some R_t
      /\ dict_get kw_h "mean_gen_interv" = Some mean_gen_interv.

(** The only object that [week_modulation] hands to the framework is the
    amplitude of line 130. *)
Definition yields_only_the_weight (ev : event) : Prop :=
  match ev with
  | Yielded obj => obj = weekly_modulation_weight
  | Called _ _ => True
  end.

(** The defaults of the signature of [week_modulation] (lines 31-37). *)
Definition default_week_modulation_type : string := "abs_sine".
Definition default_weekend_days : list Z := [6%Z; 7%Z].

(** The names that [model.py] uses without defining or importing them by
    name: its star import of the package has to bind them. *)
Definition example_pkg : list string :=
  ["reproduction_number"; "construct_generation_interval"; "construct_h_0_t";
   "InfectionModel"; "number_of_tests"; "deaths"; "studentT_likelihood"].

(** A star import that binds the three names that [weekly_modulation.py]
    uses and neither defines nor imports. *)
Definition example_pkg_complete : list string :=
  "tt" :: "name_cases" :: "datetime" :: example_pkg.

(** A simulation of two days that begins on a Saturday. *)
Definition example_model : Cov19Model :=
  {| sim_shape := [2; 1; 2]%nat; is_hierarchical := false; sim_begin_isoweekday := 6 |}.

(** The expected cases and the output of the infection model of the
    concrete run; the latter has entries outside the clipping interval. *)
Definition example_cases : tensor R 3 := [[[9; 4]]; [[1; 16]]].

Definition example_infections : tensor R 3 := [[[5; -1]]; [[2e9; 7]]].


(** Expected cases that differ from [example_cases] at the one position
    where the data of [example_params] is missing. *)
Definition example_cases_elsewhere : tensor R 3 := [[[9; 4]]; [[1; 25]]].

Definition example_run (sigma : list R) : oracle :=
  example_oracle (tensor3 example_chol) (VTensor (Nd 1 sigma))
                 (tensor3 example_infections) (tensor3 example_cases).

(** An infection model whose output holds a [nan]. *)
Definition example_infections_nan : tensor npfloat 3 :=
  [[[NaN; Val 2e9]]; [[Val (-1); Val 7]]].

Definition example_run_nan : oracle :=
  example_oracle (tensor3 example_chol) (VTensor (Nd 1 [2]))
                 (VObserved (Nd 3 example_infections_nan)) (tensor3 example_cases).


(* ======================================================================== *)
(** * Properties *)
(* ======================================================================== *)

(* ------------------------------------------------------------------------ *)
(** ** Tensor operations on tensors of the documented shapes *)
(* ------------------------------------------------------------------------ *)

Lemma mapM_total {A B : Type} (f : A -> option B) (g : A -> B) (l : list A) :
  (forall a, In a l -> f a = Some (g a)) -> mapM f l = Some (map g l).
Proof.
  unfold mapM. induction l as [|a l IH]; intros H; simpl.
  - reflexivity.
  - rewrite (H a (or_introl eq_refl)).
    rewrite IH; [reflexivity|].
    intros b Hb. apply H. now right.
Qed.

Lemma mapM_id {A : Type} (f : A -> option A) (l : list A) :
  (forall a, In a l -> f a = Some a) -> mapM f l = Some l.
Proof.
  intros H. rewrite (mapM_total f (fun a => a)) by exact H.
  now rewrite map_id.
Qed.

Lemma recast_refl {A : Type} (n : nat) (x : tensor A n) : recast n n x = Some x.
Proof.
  induction n as [|n IH]; simpl; [reflexivity|].
  apply mapM_id. intros a _. apply IH.
Qed.

Lemma expand_to_refl {A : Type} (n : nat) (x : tensor A n) : expand_to n n x = Some x.
Proof.
  destruct n; simpl.
  - reflexivity.
  - rewrite Nat.eqb_refl. apply (recast_refl (S n)).
Qed.

Lemma zipM_total {A B C : Type} (f : A -> B -> option C) (g : A -> B -> C)
  (la : list A) (lb : list B) :
  length la = length lb ->
  (forall a b, In (a, b) (combine la lb) -> f a b = Some (g a b)) ->
  zipM f la lb = Some (map (fun '(a, b) => g a b) (combine la lb)).
Proof.
  revert lb. induction la as [|a la IH]; intros [|b lb] Hlen H; simpl in *; try discriminate.
  - reflexivity.
  - rewrite (H a b (or_introl eq_refl)).
    rewrite IH; [reflexivity| lia |].
    intros a' b' Hin. apply H. now right.
Qed.

Lemma broadcast_row {A B C : Type} (f : A -> B -> C) (s : A) (row : list B) :
  broadcast f 1 [s] row = Some (map (f s) row).
Proof.
  simpl. destruct row as [|x [|y row]]; simpl; try reflexivity.
  change (Some (f s x :: f s y :: map (f s) row)) with (Some (map (f s) (x :: y :: row))).
  apply mapM_total. reflexivity.
Qed.

Lemma broadcast_S {A B C : Type} (f : A -> B -> C) (n : nat)
  (la : list (tensor A n)) (lb : list (tensor B n)) :
  broadcast f (S n) la lb
  = if Nat.eqb (length la) (length lb) then zipM (broadcast f n) la lb
    else match la, lb with
         | [a], _ => mapM (fun b => broadcast f n a b) lb
         | _, [b] => mapM (fun a => broadcast f n a b) la
         | _, _ => None
         end.
Proof. reflexivity. Qed.

Lemma broadcast_plane {A B C : Type} (f : A -> B -> C) (sg : list A) (plane : list (list B)) :
  length plane = length sg ->
  broadcast f 2 (map (fun s => [s]) sg) plane
  = Some (map (fun '(s, row) => map (f s) row) (combine sg plane)).
Proof.
  intros Hlen. rewrite broadcast_S. cbn [tensor]. rewrite length_map, Hlen, Nat.eqb_refl.
  revert plane Hlen.
  induction sg as [|s sg IH]; intros [|row plane] Hlen; simpl in *; try discriminate.
  - reflexivity.
  - rewrite (IH plane) by lia.
    destruct row as [|x [|y row]]; try reflexivity.
    change (mapM (fun b => Some (f s b)) (x :: y :: row))
      with (mapM (fun b => Some (f s b)) (x :: y :: row)).
    cbn [length Nat.eqb].
    rewrite (mapM_total (fun b => Some (f s b)) (f s)) by reflexivity.
    reflexivity.
Qed.

Lemma broadcast_sigma3 {A B C : Type} (f : A -> B -> C) (sg : list A)
  (nc : list (list (list B))) :
  Forall (fun plane => length plane = length sg) nc ->
  broadcast f 3 [map (fun s => [s]) sg] nc
  = Some (map (fun plane => map (fun '(s, row) => map (f s) row) (combine sg plane)) nc).
Proof.
  intros H. rewrite broadcast_S. cbn [tensor].
  assert (Hall : forall plane, In plane nc ->
            broadcast f 2 (map (fun s => [s]) sg) plane
            = Some (map (fun '(s, row) => map (f s) row) (combine sg plane))).
  { intros plane Hin. apply broadcast_plane.
    rewrite Forall_forall in H. now apply H. }
  destruct (Nat.eqb (length [map (fun s : A => [s]) sg]) (length nc)) eqn:E.
  - apply Nat.eqb_eq in E. destruct nc as [|p [|q nc]]; try discriminate.
    cbn [zipM]. rewrite (Hall p) by now left. reflexivity.
  - apply mapM_total. exact Hall.
Qed.

Lemma elems_tmap {A B : Type} (f : A -> B) (n : nat) (x : tensor A n) :
  elems n (tmap f n x) = map f (elems n x).
Proof.
  induction n as [|n IH]; simpl; [reflexivity|].
  induction x as [|a x IHx]; simpl; [reflexivity|].
  now rewrite map_app, IH, IHx.
Qed.

Lemma shaped_tmap {A B : Type} (f : A -> B) (s : list nat) (x : tensor A (length s)) :
  shaped s x -> shaped s (tmap f (length s) x).
Proof.
  induction s as [|d s IH]; simpl; [trivial|].
  intros [Hlen Hall]. split.
  - now rewrite length_map.
  - apply Forall_map. revert Hall. apply Forall_impl. exact (IH).
Qed.

Lemma shaped_same_shape {A B : Type} (s : list nat)
  (x : tensor A (length s)) (y : tensor B (length s)) :
  shaped s x -> shaped s y -> same_shape (length s) x y = true.
Proof.
  induction s as [|d s IH]; simpl; [reflexivity|].
  intros [Hx Hax] [Hy Hay]. rewrite Hx, Hy, Nat.eqb_refl. simpl.
  clear Hx Hy. revert y Hay.
  induction Hax as [|a x Ha Hax IHx]; intros [|b y] Hay; try reflexivity.
  inversion Hay; subst.
  rewrite (IH a b) by assumption. simpl. now apply IHx.
Qed.

Lemma shaped_elems_length {A : Type} (s : list nat) (x : tensor A (length s)) :
  shaped s x -> length (elems (length s) x) = fold_right Nat.mul 1%nat s.
Proof.
  induction s as [|d s IH]; simpl; [reflexivity|].
  intros [Hlen Hall]. rewrite <- Hlen. clear Hlen.
  induction Hall as [|a x Ha Hall IHx]; simpl; [reflexivity|].
  rewrite length_app. cbn [tensor] in *. rewrite IHx, (IH a Ha). reflexivity.
Qed.

Lemma select_terms (D : list npfloat) (X S : list R) :
  length X = length D -> length S = length D ->
  zip_terms 4 (select X (map (fun d => negb (isnan d)) D))
              (select S (map (fun d => negb (isnan d)) D))
              (select D (map (fun d => negb (isnan d)) D))
  = masked_terms D X S.
Proof.
  unfold zip_terms, masked_terms.
  revert X S. induction D as [|d D IH]; intros [|x X] [|s S] HX HS; simpl in *;
    try discriminate; try reflexivity.
  unfold entry_term at 1.
  destruct (isnan d); simpl; rewrite IH by lia; reflexivity.
Qed.

Lemma scale_plane (sg : list R) (plane : list (list R)) :
  map (map (fun x => x + 1))
      (map (fun '(s, row) => map (Rmult s) row) (combine sg (map (map sqrt) plane)))
  = map (fun '(s, row) => map (fun x => s * sqrt x + 1) row) (combine sg plane).
Proof.
  revert plane. induction sg as [|s sg IH]; intros [|row plane]; simpl; try reflexivity.
  rewrite IH. f_equal. rewrite !map_map. reflexivity.
Qed.

Lemma scale_expr_unbatched (sg : list R) (nc : tensor R 3) :
  Forall (fun plane => length plane = length sg) nc ->
  scale_expr (Nd 3 [map (fun s => [s]) sg]) (Nd 3 nc)
  = Some (Nd 3 (scale_tensor (fun s x => s * sqrt x + 1) sg nc)).
Proof.
  intros H. unfold scale_expr, binop, unop. cbn [rank body Nat.max].
  rewrite !expand_to_refl.
  rewrite (broadcast_sigma3 Rmult sg (tmap sqrt 3 nc)).
  - cbn [option_map rank body]. do 2 f_equal.
    unfold scale_tensor. cbn [tmap]. rewrite !map_map.
    apply map_ext. intros plane. apply scale_plane.
  - cbn [tmap]. apply Forall_map. revert H. apply Forall_impl.
    intros plane Hp. now rewrite length_map.
Qed.

Lemma shaped3_planes {A : Type} (T C Ag : nat) (x : tensor A 3) :
  shaped [T; C; Ag] x -> Forall (fun plane => length plane = C) x.
Proof.
  intros [_ H]. revert H. apply Forall_impl. intros plane [Hp _]. exact Hp.
Qed.

Lemma nd_boolean_mask_rank3 {A : Type} (x : tensor A 3) (mask : tensor bool 3) :
  same_shape 3 x mask = true ->
  nd_boolean_mask (Nd 3 x) mask 0
  = Some (Nd 1 (select (elems 3 x) (elems 3 mask))).
Proof.
  intros H. unfold nd_boolean_mask.
  change (0 <? 0)%Z with false. change (Z.to_nat 0) with 0%nat. cbv iota.
  cbn [rank body].
  change (boolean_mask 0 3 mask x)
    with (if same_shape 3 x mask then Some (select (elems 3 x) (elems 3 mask)) else None).
  now rewrite H.
Qed.

Lemma align_sigma_rank1 (sg : list R) :
  align_sigma (Nd 1 sg) = Ret (Nd 3 [map (fun s => [s]) sg]).
Proof. reflexivity. Qed.

Lemma run_from_vis {A : Type} (o : oracle) (n : nat) (ev : event) (k : pyvalue -> Gen A) :
  run_from o n (Vis ev k)
  = match respond o n ev with
    | inl e => ([(ev, inl e)], inl e)
    | inr v => let (log, res) := run_from o (S n) (k v) in ((ev, inr v) :: log, res)
    end.
Proof. reflexivity. Qed.

Lemma scale_tensor_shaped (rule : R -> R -> R) (T C Ag : nat) (sg : list R) (nc : tensor R 3) :
  shaped [T; C; Ag] nc -> length sg = C ->
  shaped [T; C; Ag] (scale_tensor rule sg nc).
Proof.
  intros [HT Hplanes] Hs. split.
  - unfold scale_tensor. now rewrite length_map.
  - unfold scale_tensor. apply Forall_map. revert Hplanes. apply Forall_impl.
    intros plane [HC Hrows]. split.
    + cbn [tensor length] in *. rewrite length_map, length_combine, Hs, HC. apply Nat.min_id.
    + apply Forall_map. rewrite Forall_forall in *.
      intros [s row] Hin. apply in_combine_r in Hin.
      destruct (Hrows row Hin) as [HA _]. split; [|apply Forall_forall; intros; exact I].
      now rewrite length_map.
Qed.

Lemma studentT_likelihood_unbatched (mp : ModelParams) (T C Ag : nat)
  (nc : tensor R 3) (sg : list R) (o : oracle) :
  shaped [T; C; Ag] (data_tensor mp) ->
  shaped [T; C; Ag] nc ->
  length sg = C ->
  o 0%nat (Yielded (HalfCauchy_sigma mp)) = inr (VTensor (Nd 1 sg)) ->
  let m := map (fun d => negb (isnan d)) (elems 3 (data_tensor mp)) in
  let S := scale_tensor (fun s x => s * sqrt x + 1) sg nc in
  events o (studentT_likelihood mp (Nd 3 nc))
  = [ Yielded (HalfCauchy_sigma mp);
      Yielded (StudentT_like (Nd 1 (select (elems 3 nc) m))
                             (Nd 1 (select (elems 3 S) m))
                             (Nd 1 (select (elems 3 (data_tensor mp)) m))) ].
Proof.
  intros Hd Hn Hs Ho m S.
  assert (Hmask : shaped [T; C; Ag] (tmap (fun d => negb (isnan d)) 3 (data_tensor mp)))
    by exact (shaped_tmap _ [T; C; Ag] _ Hd).
  unfold events, run, studentT_likelihood.
  cbn [bind yield_]. rewrite run_from_vis.
  change (respond o 0 (Yielded (HalfCauchy_sigma mp))) with (o 0%nat (Yielded (HalfCauchy_sigma mp))).
  rewrite Ho. cbn [bind as_tensor]. rewrite align_sigma_rank1. cbn [bind rank].
  change (Z.of_nat 3 - 3)%Z with 0%Z.
  rewrite !nd_boolean_mask_rank3 by (apply (shaped_same_shape [T; C; Ag]); assumption).
  cbn [bind tf].
  rewrite scale_expr_unbatched by (rewrite Hs; exact (shaped3_planes T C Ag nc Hn)).
  cbn [bind tf].
  rewrite nd_boolean_mask_rank3
    by (apply (shaped_same_shape [T; C; Ag]);
        [apply scale_tensor_shaped|]; assumption).
  cbn [bind tf]. rewrite run_from_vis.
  rewrite (elems_tmap (fun d => negb (isnan d)) 3 (data_tensor mp)).
  fold m. fold S.
  destruct (respond o 1 _); reflexivity.
Qed.

Lemma elems_rank1 {A : Type} (row : list A) : elems 1 row = row.
Proof.
  induction row as [|x row IH]; simpl in *; [reflexivity|]. now rewrite IH.
Qed.

Lemma masked_terms_app (D1 D2 : list npfloat) (X1 X2 S1 S2 : list R) :
  length X1 = length D1 -> length S1 = length D1 ->
  masked_terms (D1 ++ D2) (X1 ++ X2) (S1 ++ S2)
  = masked_terms D1 X1 S1 ++ masked_terms D2 X2 S2.
Proof.
  unfold masked_terms.
  revert X1 S1. induction D1 as [|d D1 IH]; intros [|x X1] [|s S1] HX HS;
    simpl in *; try discriminate; [reflexivity|].
  rewrite IH by lia. now rewrite app_assoc.
Qed.

Lemma masked_row (rule : R -> R -> R) (s : R) (drow : list npfloat) (xrow : list R) :
  masked_terms drow xrow (map (rule s) xrow)
  = flat_map (fun '(d, x) => entry_term d x (rule s x)) (combine drow xrow).
Proof.
  unfold masked_terms.
  revert xrow. induction drow as [|d drow IH]; intros [|x xrow]; simpl; try reflexivity.
  now rewrite IH.
Qed.

Lemma masked_plane (rule : R -> R -> R) (Ag : nat) (sg : list R)
  (dplane : tensor npfloat 2) (xplane : tensor R 2) :
  Forall (fun row => length row = Ag) dplane ->
  Forall (fun row => length row = Ag) xplane ->
  length dplane = length sg -> length xplane = length sg ->
  masked_terms (elems 2 dplane) (elems 2 xplane)
     (elems 2 (map (fun '(s, row) => map (rule s) row) (combine sg xplane)))
  = flat_map (fun '(s, (drow, xrow)) =>
      flat_map (fun '(d, x) => entry_term d x (rule s x)) (combine drow xrow))
      (combine sg (combine dplane xplane)).
Proof.
  revert dplane xplane.
  induction sg as [|s sg IH]; intros [|drow dplane] [|xrow xplane] Hd Hx Ld Lx;
    simpl in *; try discriminate; try reflexivity.
  inversion Hd; subst. inversion Hx; subst.
  change (flat_map (elems 1) dplane) with (elems 2 dplane).
  change (flat_map (elems 1) xplane) with (elems 2 xplane).
  change (flat_map (fun x => [x]) drow) with (elems 1 drow).
  change (flat_map (fun x => [x]) xrow) with (elems 1 xrow).
  change (flat_map (fun x => [x]) (map (rule s) xrow)) with (elems 1 (map (rule s) xrow)).
  rewrite !elems_rank1.
  rewrite masked_terms_app by (rewrite ?length_map; congruence).
  rewrite masked_row. f_equal.
  apply IH; auto.
Qed.

Lemma shaped2_rows {A : Type} (C Ag : nat) (p : tensor A 2) :
  shaped [C; Ag] p -> Forall (fun row => length row = Ag) p.
Proof.
  intros [_ H]. revert H. apply Forall_impl. intros row [Hr _]. exact Hr.
Qed.

Lemma masked_ruled (rule : R -> R -> R) (T C Ag : nat) (sg : list R)
  (data : tensor npfloat 3) (nc : tensor R 3) :
  shaped [T; C; Ag] data -> shaped [T; C; Ag] nc -> length sg = C ->
  masked_terms (elems 3 data) (elems 3 nc) (elems 3 (scale_tensor rule sg nc))
  = ruled_terms rule data nc sg.
Proof.
  intros [HT Hd] [HT' Hn] Hs. unfold ruled_terms, scale_tensor.
  clear HT HT'. revert nc Hn.
  induction Hd as [|dplane data Hdp Hd IH]; intros nc Hn.
  - destruct nc; reflexivity.
  - destruct nc as [|xplane nc].
    { unfold masked_terms. cbn [elems flat_map map combine].
      now rewrite combine_nil. }
    inversion Hn as [|? ? Hxp Hn']; subst.
    cbn [map combine flat_map elems].
    change (flat_map (elems 2) data) with (elems 3 data).
    change (flat_map (elems 2) nc) with (elems 3 nc).
    change (flat_map (elems 2)
              (map (fun plane => map (fun '(s, row) => map (rule s) row) (combine sg plane)) nc))
      with (elems 3 (map (fun plane => map (fun '(s, row) => map (rule s) row) (combine sg plane)) nc)).
    assert (Hsp : shaped [length sg; Ag]
                    (map (fun '(s, row) => map (rule s) row) (combine sg xplane))).
    { pose proof (scale_tensor_shaped rule 1 (length sg) Ag sg [xplane]) as H.
      unfold scale_tensor in H. cbn [map] in H.
      destruct H as [_ H]; [split; [reflexivity| now constructor] | reflexivity |].
      now inversion H. }
    rewrite masked_terms_app.
    + f_equal; [|exact (IH nc Hn')].
      apply (masked_plane rule Ag).
      * exact (shaped2_rows _ _ _ Hdp).
      * exact (shaped2_rows _ _ _ Hxp).
      * apply Hdp.
      * apply Hxp.
    + exact (eq_trans (shaped_elems_length [length sg; Ag] _ Hxp)
                      (eq_sym (shaped_elems_length [length sg; Ag] _ Hdp))).
    + exact (eq_trans (shaped_elems_length [length sg; Ag] _ Hsp)
                      (eq_sym (shaped_elems_length [length sg; Ag] _ Hdp))).
Qed.

Lemma align_sigma_rank2 (sgs : list (list R)) :
  align_sigma (Nd 2 sgs)
  = Ret (Nd 4 (map (fun sg => [map (fun s => [s]) sg]) sgs)).
Proof.
  unfold align_sigma, nd_newaxis_last, nd_newaxis_first, nd_transpose_1023,
    transpose_1023, newaxis_first.
  cbn [rank body Nat.eqb swap_axes01 tf newaxis_last].
  do 2 f_equal. rewrite map_map. reflexivity.
Qed.

Lemma scale_expr_batched (sgs : list (list R)) (nc4 : tensor R 4) :
  length sgs = length nc4 ->
  Forall (fun '(sg, nc) => Forall (fun plane => length plane = length sg) nc)
         (combine sgs nc4) ->
  scale_expr (Nd 4 (map (fun sg => [map (fun s => [s]) sg]) sgs)) (Nd 4 nc4)
  = Some (Nd 4 (map (fun '(sg, nc) => scale_tensor (fun s x => s * sqrt x + 1) sg nc)
                    (combine sgs nc4))).
Proof.
  intros Hlen Hall. unfold scale_expr, binop, unop. cbn [rank body Nat.max].
  rewrite !expand_to_refl. rewrite broadcast_S. cbn [tensor tmap].
  rewrite !length_map, Hlen, Nat.eqb_refl.
  assert (E : zipM (broadcast Rmult 3) (map (fun sg => [map (fun s => [s]) sg]) sgs)
                (map (tmap sqrt 3) nc4)
              = Some (map (fun '(sg, nc) =>
                         map (fun plane => map (fun '(s, row) => map (Rmult s) row)
                                               (combine sg plane)) (tmap sqrt 3 nc))
                       (combine sgs nc4))).
  { revert nc4 Hlen Hall.
    induction sgs as [|sg sgs IH]; intros [|nc nc4] Hlen Hall; simpl in Hlen;
      try discriminate; [reflexivity|].
    cbn [map combine zipM]. inversion Hall as [|? ? H1 H2]; subst.
    rewrite (broadcast_sigma3 Rmult sg (tmap sqrt 3 nc)).
    - rewrite (IH nc4) by (auto; lia). reflexivity.
    - cbn [tmap]. apply Forall_map. revert H1. apply Forall_impl.
      intros plane Hp. now rewrite length_map. }
  cbn [tensor tmap] in E. rewrite E. cbn [option_map rank body]. do 2 f_equal.
  cbn [tmap]. rewrite map_map. apply map_ext. intros [sg nc].
  unfold scale_tensor. rewrite !map_map. apply map_ext. intros plane. apply scale_plane.
Qed.

Lemma nd_boolean_mask_rank4 {A : Type} (x : tensor A 4) (mask : tensor bool 3) :
  Forall (fun x3 => same_shape 3 x3 mask = true) x ->
  nd_boolean_mask (Nd 4 x) mask 1
  = Some (Nd 2 (map (fun x3 => select (elems 3 x3) (elems 3 mask)) x)).
Proof.
  intros H. unfold nd_boolean_mask.
  change (1 <? 0)%Z with false. change (Z.to_nat 1) with 1%nat. cbv iota.
  cbn [rank body].
  change (boolean_mask 1 4 mask x) with (mapM (boolean_mask 0 3 mask) x).
  assert (E : mapM (boolean_mask 0 3 mask) x
              = Some (map (fun x3 => select (elems 3 x3) (elems 3 mask)) x)).
  { apply mapM_total. intros x3 Hin. rewrite Forall_forall in H.
    change (boolean_mask 0 3 mask x3)
      with (if same_shape 3 x3 mask then Some (select (elems 3 x3) (elems 3 mask)) else None).
    now rewrite (H x3 Hin). }
  exact (f_equal (fun r : option (tensor A 2) =>
                    match r with Some t => Some (Nd 2 t) | None => None end) E).
Qed.

Lemma studentT_likelihood_batched (mp : ModelParams) (B T C Ag : nat)
  (nc4 : tensor R 4) (sgs : tensor R 2) (o : oracle) :
  shaped [T; C; Ag] (data_tensor mp) ->
  shaped [B; T; C; Ag] nc4 ->
  shaped [B; C] sgs ->
  o 0%nat (Yielded (HalfCauchy_sigma mp)) = inr (VTensor (Nd 2 sgs)) ->
  let m := map (fun d => negb (isnan d)) (elems 3 (data_tensor mp)) in
  events o (studentT_likelihood mp (Nd 4 nc4))
  = [ Yielded (HalfCauchy_sigma mp);
      Yielded (StudentT_like
        (Nd 2 (map (fun nc => select (elems 3 nc) m) nc4))
        (Nd 2 (map (fun S => select (elems 3 S) m)
                   (map (fun '(sg, nc) => scale_tensor (fun s x => s * sqrt x + 1) sg nc)
                        (combine sgs nc4))))
        (Nd 1 (select (elems 3 (data_tensor mp)) m))) ].
Proof.
  intros Hd Hn Hs Ho m.
  assert (Hmask : shaped [T; C; Ag] (tmap (fun d => negb (isnan d)) 3 (data_tensor mp)))
    by exact (shaped_tmap _ [T; C; Ag] _ Hd).
  destruct Hn as [HB Hn]. destruct Hs as [HB' Hs].
  assert (Hpl : Forall (fun '(sg, nc) => Forall (fun plane => length plane = length sg) nc)
                  (combine sgs nc4)).
  { apply Forall_forall. intros [sg nc] Hin.
    pose proof (in_combine_l _ _ _ _ Hin) as Hsg.
    pose proof (in_combine_r _ _ _ _ Hin) as Hnc.
    rewrite Forall_forall in Hs, Hn.
    destruct (Hs sg Hsg) as [Hlen _]. cbn [tensor length] in Hlen. rewrite Hlen.
    exact (shaped3_planes T C Ag nc (Hn nc Hnc)). }
  assert (Hsh : Forall (fun '(sg, nc) =>
                  shaped [T; C; Ag] (scale_tensor (fun s x => s * sqrt x + 1) sg nc))
                  (combine sgs nc4)).
  { apply Forall_forall. intros [sg nc] Hin.
    pose proof (in_combine_l _ _ _ _ Hin) as Hsg.
    pose proof (in_combine_r _ _ _ _ Hin) as Hnc.
    rewrite Forall_forall in Hs, Hn.
    apply scale_tensor_shaped; [exact (Hn nc Hnc)|]. apply (Hs sg Hsg). }
  unfold events, run, studentT_likelihood.
  cbn [bind yield_]. rewrite run_from_vis.
  change (respond o 0 (Yielded (HalfCauchy_sigma mp))) with (o 0%nat (Yielded (HalfCauchy_sigma mp))).
  rewrite Ho. cbn [bind as_tensor]. rewrite align_sigma_rank2. cbn [bind rank].
  change (Z.of_nat 4 - 3)%Z with 1%Z.
  rewrite nd_boolean_mask_rank3 by (apply (shaped_same_shape [T; C; Ag]); assumption).
  rewrite nd_boolean_mask_rank4.
  2:{ revert Hn. apply Forall_impl. intros nc Hnc.
      apply (shaped_same_shape [T; C; Ag]); assumption. }
  cbn [bind tf].
  rewrite scale_expr_batched; [| exact (eq_trans HB' (eq_sym HB)) | exact Hpl].
  cbn [bind tf].
  rewrite nd_boolean_mask_rank4.
  2:{ apply Forall_map. revert Hsh. apply Forall_impl. intros [sg nc] Hsc.
      apply (shaped_same_shape [T; C; Ag]); assumption. }
  cbn [bind tf]. rewrite run_from_vis.
  rewrite (elems_tmap (fun d => negb (isnan d)) 3 (data_tensor mp)).
  fold m.
  destruct (respond o 1 _); reflexivity.
Qed.

Lemma terms_of_like (l s : list R) (ob : list npfloat) :
  terms_of (StudentT_like (Nd 1 l) (Nd 1 s) (Nd 1 ob)) = Some (zip_terms 4 l s ob).
Proof. reflexivity. Qed.

Lemma batched_terms_of_like (l s : list (list R)) (ob : list npfloat) :
  batched_terms_of (StudentT_like (Nd 2 l) (Nd 2 s) (Nd 1 ob))
  = Some (map (fun '(lb, sb) => zip_terms 4 lb sb ob) (combine l s)).
Proof. reflexivity. Qed.

Lemma masked_terms_observed (D : list npfloat) (X S : list R) :
  length X = length D -> length S = length D ->
  map t_observed (masked_terms D X S) = filter (fun d => negb (isnan d)) D.
Proof.
  unfold masked_terms. revert X S.
  induction D as [|d D IH]; intros [|x X] [|s S] HX HS; simpl in *;
    try discriminate; [reflexivity|].
  rewrite map_app, IH by lia. unfold entry_term. destruct (isnan d); reflexivity.
Qed.

Lemma ruled_terms_Forall (rule : R -> R -> R) (Q : term -> Prop)
  (data : tensor npfloat 3) (nc : tensor R 3) (sg : list R) :
  (forall s x d, In s sg -> In x (elems 3 nc) -> isnan d = false ->
     Q {| t_df := 4; t_loc := x; t_scale := rule s x; t_observed := d |}) ->
  Forall Q (ruled_terms rule data nc sg).
Proof.
  intros H. apply Forall_forall. intros t Ht. unfold ruled_terms in Ht.
  apply in_flat_map in Ht. destruct Ht as [[dplane xplane] [H1 Ht]].
  apply in_flat_map in Ht. destruct Ht as [[s [drow xrow]] [H2 Ht]].
  apply in_flat_map in Ht. destruct Ht as [[d x] [H3 Ht]].
  unfold entry_term in Ht. destruct (isnan d) eqn:E; [contradiction|].
  destruct Ht as [<-|[]].
  apply H; [exact (in_combine_l _ _ _ _ H2) | | exact E].
  apply in_combine_r in H1, H2, H3. apply in_combine_r in H2.
  cbn [elems]. apply in_flat_map. exists xplane. split; [exact H1|].
  apply in_flat_map. exists xrow. split; [exact H2|].
  apply in_flat_map. exists x. split; [exact H3| now left].
Qed.


(* ------------------------------------------------------------------------ *)
(** ** The likelihood *)
(* ------------------------------------------------------------------------ *)

Lemma Rsum_app (l1 l2 : list R) : Rsum (l1 ++ l2) = Rsum l1 + Rsum l2.
Proof.
  unfold Rsum. induction l1 as [|x l1 IH]; simpl; [lra|]. rewrite IH. lra.
Qed.

Lemma log_density_masked (logpdf : term -> R) (D : list npfloat) (X S : list R) :
  log_density logpdf (masked_terms D X S)
  = Rsum (map (fun '(d, (x, s)) => entry_log_density logpdf d x s)
              (combine D (combine X S))).
Proof.
  unfold log_density, masked_terms.
  induction (combine D (combine X S)) as [|[d [x s]] l IH]; [reflexivity|].
  cbn [flat_map map]. rewrite map_app, Rsum_app, IH.
  unfold entry_term, entry_log_density. destruct (isnan d); unfold Rsum; simpl; lra.
Qed.

Lemma scale_code_unbatched (T C Ag : nat) (sg : list R) (nc : tensor R 3) :
  shaped [T; C; Ag] nc -> length sg = C ->
  (s <- align_sigma (Nd 1 sg) ;; tf "mul" (scale_expr s (Nd 3 nc)))
  = Ret (Nd 3 (scale_tensor (fun s x => s * sqrt x + 1) sg nc)).
Proof.
  intros Hn Hs. rewrite align_sigma_rank1. cbn [bind].
  rewrite scale_expr_unbatched; [reflexivity|].
  rewrite Hs. exact (shaped3_planes T C Ag nc Hn).
Qed.

(** Claim C1.  For every observed data tensor and every tensor of expected
    cases of its shape (time, country, age group), and every scale parameter
    with one entry per country: the likelihood yields one Student-t
    distribution whose factors are, in row-major order, one factor for each
    entry of the data that is not [nan] -- located at the expected count of
    that entry, with the scale of that entry, observed at that entry -- and
    nothing for an entry that is [nan].  So the observations of the factors
    are exactly the entries that are not [nan], and a [nan] entry adds [0]
    to the log-density. *)
Theorem likelihood_includes_exactly_the_observed_entries
  (mp : ModelParams) (T C Ag : nat) (new_cases : tensor R 3) (sigma : list R) (o : oracle) :
  shaped [T; C; Ag] (data_tensor mp) ->
  shaped [T; C; Ag] new_cases ->
  length sigma = C ->
  o 0%nat (Yielded (HalfCauchy_sigma mp)) = inr (VTensor (Nd 1 sigma)) ->
  exists (like : pyvalue) (S : tensor R 3) (ts : list term),
    events o (studentT_likelihood mp (Nd 3 new_cases))
      = [Yielded (HalfCauchy_sigma mp); Yielded like]
    /\ (s <- align_sigma (Nd 1 sigma) ;; tf "mul" (scale_expr s (Nd 3 new_cases)))
       = Ret (Nd 3 S)
    /\ shaped [T; C; Ag] S
    /\ terms_of like = Some ts
    /\ ts = masked_terms (elems 3 (data_tensor mp)) (elems 3 new_cases) (elems 3 S)
    /\ map t_observed ts = filter (fun d => negb (isnan d)) (elems 3 (data_tensor mp))
    /\ forall logpdf,
         log_density logpdf ts
         = Rsum (map (fun '(d, (x, s)) => entry_log_density logpdf d x s)
                     (combine (elems 3 (data_tensor mp))
                              (combine (elems 3 new_cases) (elems 3 S)))).
Proof.
  intros Hd Hn Hs Ho.
  pose (S := scale_tensor (fun s x => s * sqrt x + 1) sigma new_cases).
  assert (HS : shaped [T; C; Ag] S) by (apply scale_tensor_shaped; assumption).
  assert (LX : length (elems 3 new_cases) = length (elems 3 (data_tensor mp))).
  { exact (eq_trans (shaped_elems_length [T; C; Ag] _ Hn)
                    (eq_sym (shaped_elems_length [T; C; Ag] _ Hd))). }
  assert (LS : length (elems 3 S) = length (elems 3 (data_tensor mp))).
  { exact (eq_trans (shaped_elems_length [T; C; Ag] _ HS)
                    (eq_sym (shaped_elems_length [T; C; Ag] _ Hd))). }
  eexists. exists S. eexists.
  split; [exact (studentT_likelihood_unbatched mp T C Ag new_cases sigma o Hd Hn Hs Ho)|].
  split; [exact (scale_code_unbatched T C Ag sigma new_cases Hn Hs)|].
  split; [exact HS|].
  split; [apply terms_of_like|].
  rewrite select_terms by assumption.
  split; [reflexivity|].
  split; [apply masked_terms_observed; assumption | intros; apply log_density_masked].
Qed.

Lemma combine_map_map {A B A' B' : Type} (g : A -> A') (h : B -> B')
  (l1 : list A) (l2 : list B) :
  combine (map g l1) (map h l2) = map (fun '(a, b) => (g a, h b)) (combine l1 l2).
Proof.
  revert l2. induction l1 as [|a l1 IH]; intros [|b l2]; simpl; try reflexivity.
  now rewrite IH.
Qed.

Lemma scale_tensors_shaped (B T C Ag : nat) (sgs : tensor R 2) (nc4 : tensor R 4) :
  shaped [B; T; C; Ag] nc4 -> shaped [B; C] sgs ->
  shaped [B; T; C; Ag]
    (map (fun '(sg, nc) => scale_tensor (fun s x => s * sqrt x + 1) sg nc)
         (combine sgs nc4)).
Proof.
  intros [HB Hn] [HB' Hs]. split.
  - cbn [tensor length] in *. rewrite length_map, length_combine, HB, HB'. apply Nat.min_id.
  - apply Forall_map. apply Forall_forall. intros [sg nc] Hin.
    rewrite Forall_forall in Hs, Hn.
    apply scale_tensor_shaped.
    + exact (Hn nc (in_combine_r _ _ _ _ Hin)).
    + apply (Hs sg (in_combine_l _ _ _ _ Hin)).
Qed.

Lemma scale_code_batched (B T C Ag : nat) (sgs : tensor R 2) (nc4 : tensor R 4) :
  shaped [B; T; C; Ag] nc4 -> shaped [B; C] sgs ->
  (s <- align_sigma (Nd 2 sgs) ;; tf "mul" (scale_expr s (Nd 4 nc4)))
  = Ret (Nd 4 (map (fun '(sg, nc) => scale_tensor (fun s x => s * sqrt x + 1) sg nc)
                   (combine sgs nc4))).
Proof.
  intros [HB Hn] [HB' Hs]. rewrite align_sigma_rank2. cbn [bind].
  rewrite scale_expr_batched; [reflexivity | exact (eq_trans HB' (eq_sym HB)) |].
  apply Forall_forall. intros [sg nc] Hin.
  rewrite Forall_forall in Hs, Hn.
  destruct (Hs sg (in_combine_l _ _ _ _ Hin)) as [Hlen _].
  cbn [tensor length] in Hlen. rewrite Hlen.
  exact (shaped3_planes T C Ag nc (Hn nc (in_combine_r _ _ _ _ Hin))).
Qed.

(** The same with a batch axis: the factors of every batch are those of
    Claim C1 for the expected cases and the scale of that batch. *)
Theorem likelihood_includes_exactly_the_observed_entries_batched
  (mp : ModelParams) (B T C Ag : nat) (new_cases : tensor R 4) (sigma : tensor R 2)
  (o : oracle) :
  shaped [T; C; Ag] (data_tensor mp) ->
  shaped [B; T; C; Ag] new_cases ->
  shaped [B; C] sigma ->
  o 0%nat (Yielded (HalfCauchy_sigma mp)) = inr (VTensor (Nd 2 sigma)) ->
  exists (like : pyvalue) (S : tensor R 4) (tss : list (list term)),
    events o (studentT_likelihood mp (Nd 4 new_cases))
      = [Yielded (HalfCauchy_sigma mp); Yielded like]
    /\ (s <- align_sigma (Nd 2 sigma) ;; tf "mul" (scale_expr s (Nd 4 new_cases)))
       = Ret (Nd 4 S)
    /\ shaped [B; T; C; Ag] S
    /\ batched_terms_of like = Some tss
    /\ tss = map (fun '(x, s) =>
                    masked_terms (elems 3 (data_tensor mp)) (elems 3 x) (elems 3 s))
                 (combine new_cases S)
    /\ Forall (fun ts => map t_observed ts
                         = filter (fun d => negb (isnan d)) (elems 3 (data_tensor mp))) tss.
Proof.
  intros Hd Hn Hs Ho.
  pose (S := map (fun '(sg, nc) => scale_tensor (fun s x => s * sqrt x + 1) sg nc)
                 (combine sigma new_cases)).
  assert (HS : shaped [B; T; C; Ag] S) by (apply scale_tensors_shaped; assumption).
  assert (Hlen : forall x s, In (x, s) (combine new_cases S) ->
            length (elems 3 x) = length (elems 3 (data_tensor mp))
            /\ length (elems 3 s) = length (elems 3 (data_tensor mp))).
  { intros x s Hin. destruct Hn as [_ Hn]. destruct HS as [_ HS'].
    rewrite Forall_forall in Hn, HS'.
    pose proof (Hn x (in_combine_l _ _ _ _ Hin)) as Hx.
    pose proof (HS' s (in_combine_r _ _ _ _ Hin)) as Hs'.
    split.
    - exact (eq_trans (shaped_elems_length [T; C; Ag] _ Hx)
                      (eq_sym (shaped_elems_length [T; C; Ag] _ Hd))).
    - exact (eq_trans (shaped_elems_length [T; C; Ag] _ Hs')
                      (eq_sym (shaped_elems_length [T; C; Ag] _ Hd))). }
  eexists. exists S. eexists.
  split; [exact (studentT_likelihood_batched mp B T C Ag new_cases sigma o Hd Hn Hs Ho)|].
  split; [exact (scale_code_batched B T C Ag sigma new_cases Hn Hs)|].
  split; [exact HS|].
  split; [apply batched_terms_of_like|].
  fold S. rewrite combine_map_map, map_map.
  assert (E : map (fun x : tensor R 3 * tensor R 3 =>
                let '(lb, sb) := let '(a, b) := x in
                  (select (elems 3 a) (map (fun d => negb (isnan d)) (elems 3 (data_tensor mp))),
                   select (elems 3 b) (map (fun d => negb (isnan d)) (elems 3 (data_tensor mp)))) in
                zip_terms 4 lb sb
                  (select (elems 3 (data_tensor mp))
                     (map (fun d => negb (isnan d)) (elems 3 (data_tensor mp)))))
              (combine new_cases S)
            = map (fun '(x, s) =>
                    masked_terms (elems 3 (data_tensor mp)) (elems 3 x) (elems 3 s))
                 (combine new_cases S)).
  { apply map_ext_in. intros [x s] Hin. destruct (Hlen x s Hin).
    apply select_terms; assumption. }
  split; [exact E|].
  apply Forall_map. apply Forall_forall. intros [x s] Hin. destruct (Hlen x s Hin).
  cbv beta iota. rewrite select_terms by assumption.
  apply masked_terms_observed; assumption.
Qed.

Lemma combine_map_combine {A B C : Type} (f : A * B -> C) (l1 : list A) (l2 : list B) :
  combine l2 (map f (combine l1 l2))
  = map (fun '(a, b) => (b, f (a, b))) (combine l1 l2).
Proof.
  revert l2. induction l1 as [|a l1 IH]; intros [|b l2]; simpl; try reflexivity.
  now rewrite IH.
Qed.

(** Claim C3, as amended.  For every entry of the data that is not [nan],
    the factor of the likelihood is a Student-t density with 4 degrees of
    freedom, located at the expected count [x] of the entry, and with the
    scale [s * sqrt x + 1], where [s] is the scale parameter of the country
    of the entry (one value per country, the same for all times and age
    groups).  The expected counts are nonnegative, where [tf.sqrt] is the
    real square root. *)
Theorem likelihood_factor_parameters
  (mp : ModelParams) (T C Ag : nat) (new_cases : tensor R 3) (sigma : list R) (o : oracle) :
  shaped [T; C; Ag] (data_tensor mp) ->
  shaped [T; C; Ag] new_cases ->
  length sigma = C ->
  all_entries (fun x => 0 <= x) 3 new_cases ->
  o 0%nat (Yielded (HalfCauchy_sigma mp)) = inr (VTensor (Nd 1 sigma)) ->
  exists like : pyvalue,
    events o (studentT_likelihood mp (Nd 3 new_cases))
      = [Yielded (HalfCauchy_sigma mp); Yielded like]
    /\ terms_of like
       = Some (ruled_terms (fun s x => s * sqrt x + 1) (data_tensor mp) new_cases sigma).
Proof.
  intros Hd Hn Hs _ Ho.
  eexists. split;
    [exact (studentT_likelihood_unbatched mp T C Ag new_cases sigma o Hd Hn Hs Ho)|].
  assert (HS : shaped [T; C; Ag] (scale_tensor (fun s x => s * sqrt x + 1) sigma new_cases))
    by (apply scale_tensor_shaped; assumption).
  rewrite terms_of_like. f_equal.
  rewrite select_terms.
  - apply (masked_ruled _ T C Ag); assumption.
  - exact (eq_trans (shaped_elems_length [T; C; Ag] _ Hn)
                    (eq_sym (shaped_elems_length [T; C; Ag] _ Hd))).
  - exact (eq_trans (shaped_elems_length [T; C; Ag] _ HS)
                    (eq_sym (shaped_elems_length [T; C; Ag] _ Hd))).
Qed.

(** The same with a batch axis. *)
Theorem likelihood_factor_parameters_batched
  (mp : ModelParams) (B T C Ag : nat) (new_cases : tensor R 4) (sigma : tensor R 2)
  (o : oracle) :
  shaped [T; C; Ag] (data_tensor mp) ->
  shaped [B; T; C; Ag] new_cases ->
  shaped [B; C] sigma ->
  all_entries (fun x => 0 <= x) 4 new_cases ->
  o 0%nat (Yielded (HalfCauchy_sigma mp)) = inr (VTensor (Nd 2 sigma)) ->
  exists like : pyvalue,
    events o (studentT_likelihood mp (Nd 4 new_cases))
      = [Yielded (HalfCauchy_sigma mp); Yielded like]
    /\ batched_terms_of like
       = Some (map (fun '(sg, x) =>
                      ruled_terms (fun s x => s * sqrt x + 1) (data_tensor mp) x sg)
                   (combine sigma new_cases)).
Proof.
  intros Hd Hn Hs _ Ho.
  eexists. split;
    [exact (studentT_likelihood_batched mp B T C Ag new_cases sigma o Hd Hn Hs Ho)|].
  rewrite batched_terms_of_like. f_equal.
  rewrite combine_map_map, map_map, combine_map_combine, map_map.
  apply map_ext_in. intros [sg x] Hin.
  destruct Hn as [_ Hn]. destruct Hs as [_ Hs]. rewrite Forall_forall in Hn, Hs.
  pose proof (Hn x (in_combine_r _ _ _ _ Hin)) as Hx.
  assert (Hsg : length sg = C) by apply (Hs sg (in_combine_l _ _ _ _ Hin)).
  assert (HS : shaped [T; C; Ag] (scale_tensor (fun s x => s * sqrt x + 1) sg x))
    by (apply scale_tensor_shaped; assumption).
  rewrite select_terms.
  - apply (masked_ruled _ T C Ag); assumption.
  - exact (eq_trans (shaped_elems_length [T; C; Ag] _ Hx)
                    (eq_sym (shaped_elems_length [T; C; Ag] _ Hd))).
  - exact (eq_trans (shaped_elems_length [T; C; Ag] _ HS)
                    (eq_sym (shaped_elems_length [T; C; Ag] _ Hd))).
Qed.

Lemma select_Forall {A : Type} (P : A -> Prop) (l : list A) (m : list bool) :
  Forall P l -> Forall P (select l m).
Proof.
  intros H. revert m. induction H as [|x l Hx H IH]; intros [|b m]; simpl;
    try constructor.
  destruct b; [constructor; [exact Hx | apply IH] | apply IH].
Qed.

Lemma scale_tensor_entries (rule : R -> R -> R) (P : R -> Prop)
  (sg : list R) (nc : tensor R 3) :
  (forall s x, In s sg -> In x (elems 3 nc) -> P (rule s x)) ->
  Forall P (elems 3 (scale_tensor rule sg nc)).
Proof.
  intros H. apply Forall_forall. intros y Hy.
  unfold scale_tensor in Hy. cbn [elems] in Hy.
  apply in_flat_map in Hy. destruct Hy as [splane [H1 Hy]].
  apply in_map_iff in H1. destruct H1 as [plane [<- H1]].
  apply in_flat_map in Hy. destruct Hy as [srow [H2 Hy]].
  apply in_map_iff in H2. destruct H2 as [[s row] [<- H2]].
  apply in_flat_map in Hy. destruct Hy as [y' [H3 [<-|[]]]].
  apply in_map_iff in H3. destruct H3 as [x [<- H3]].
  apply H; [exact (in_combine_l _ _ _ _ H2)|].
  apply in_combine_r in H2. cbn [elems].
  apply in_flat_map. exists plane. split; [exact H1|].
  apply in_flat_map. exists row. split; [exact H2|].
  apply in_flat_map. exists x. split; [exact H3| now left].
Qed.

Lemma softplus_pos (u : R) : 0 < softplus u.
Proof.
  unfold softplus. rewrite <- ln_1. apply ln_increasing; [lra|].
  pose proof (exp_pos u). lra.
Qed.

Lemma scale_rule_pos (s x : R) : 0 < s -> 0 < s * sqrt x + 1.
Proof.
  intros Hs. pose proof (sqrt_pos x). nra.
Qed.









Lemma elems_rank2 {A : Type} (l : list (list A)) : elems 2 l = concat l.
Proof.
  induction l as [|row l IH]; [reflexivity|].
  change (elems 2 (row :: l)) with (elems 1 row ++ elems 2 l).
  now rewrite elems_rank1, IH.
Qed.

(** The same with a batch axis. *)
Theorem likelihood_scale_is_positive_batched
  (mp : ModelParams) (B T C Ag : nat) (new_cases : tensor R 4) (u : tensor R 2)
  (sigma : pyvalue) (o : oracle) :
  shaped [T; C; Ag] (data_tensor mp) ->
  shaped [B; T; C; Ag] new_cases ->
  shaped [B; C] u ->
  all_entries (fun x => 0 <= x) 4 new_cases ->
  constrained_draw (HalfCauchy_sigma mp) (Nd 2 u) = Some sigma ->
  o 0%nat (Yielded (HalfCauchy_sigma mp)) = inr sigma ->
  (exists s, sigma = VTensor (Nd 2 s) /\ all_entries (fun x => 0 < x) 2 s)
  /\ exists like df loc scale observed,
       events o (studentT_likelihood mp (Nd 4 new_cases))
         = [Yielded (HalfCauchy_sigma mp); Yielded like]
       /\ student_params like = Some (df, loc, scale, observed)
       /\ all_entries (fun s => 0 < s) (rank scale) (body scale).
Proof.
  intros Hd Hn Hu _ Hdraw Ho.
  cbn in Hdraw. injection Hdraw as <-.
  assert (Hpos : all_entries (fun s => 0 < s) 2 (tmap softplus 2 u)).
  { unfold all_entries. rewrite elems_tmap. apply Forall_map.
    apply Forall_forall. intros x _. apply softplus_pos. }
  split; [exists (tmap softplus 2 u); split; [reflexivity | exact Hpos]|].
  do 5 eexists. split.
  { apply (studentT_likelihood_batched mp B T C Ag new_cases (tmap softplus 2 u) o Hd Hn);
      [exact (shaped_tmap softplus [B; C] u Hu) | exact Ho]. }
  split; [reflexivity|].
  - unfold all_entries. cbn [rank body]. rewrite elems_rank2.
    apply Forall_forall. intros y Hy.
    apply in_concat in Hy. destruct Hy as [row [H1 Hy]].
    apply in_map_iff in H1. destruct H1 as [S [<- H1]].
    apply in_map_iff in H1. destruct H1 as [[sg x] [<- H1]].
    revert y Hy. apply Forall_forall. apply select_Forall. apply scale_tensor_entries.
    intros s x' Hs _. apply scale_rule_pos.
    unfold all_entries in Hpos. rewrite Forall_forall in Hpos. apply Hpos.
    rewrite elems_rank2. apply in_concat. exists sg. split.
    + apply in_combine_l in H1. exact H1.
    + exact Hs.
Qed.

(** A concrete run for the three claims above. *)
Ltac shaped_concrete := cbn; repeat (first [split | constructor]).

Lemma example_data_shaped : shaped [2; 1; 2]%nat (data_tensor example_params).
Proof. shaped_concrete. Qed.

Lemma example_cases_shaped : shaped [2; 1; 2]%nat example_cases.
Proof. shaped_concrete. Qed.

Lemma example_cases_nonnegative : all_entries (fun x => 0 <= x) 3 example_cases.
Proof. unfold all_entries. cbn. repeat constructor; lra. Qed.

Lemma likelihood_includes_exactly_the_observed_entries_witness :
  exists (like : pyvalue) (S : tensor R 3) (ts : list term),
    events (example_run [2]) (studentT_likelihood example_params (Nd 3 example_cases))
      = [Yielded (HalfCauchy_sigma example_params); Yielded like]
    /\ (s <- align_sigma (Nd 1 [2]) ;; tf "mul" (scale_expr s (Nd 3 example_cases)))
       = Ret (Nd 3 S)
    /\ shaped [2; 1; 2]%nat S
    /\ terms_of like = Some ts
    /\ ts = masked_terms (elems 3 (data_tensor example_params)) (elems 3 example_cases)
                         (elems 3 S)
    /\ map t_observed ts
       = filter (fun d => negb (isnan d)) (elems 3 (data_tensor example_params))
    /\ forall logpdf,
         log_density logpdf ts
         = Rsum (map (fun '(d, (x, s)) => entry_log_density logpdf d x s)
                     (combine (elems 3 (data_tensor example_params))
                              (combine (elems 3 example_cases) (elems 3 S)))).
Proof.
  apply (likelihood_includes_exactly_the_observed_entries
           example_params 2 1 2 example_cases [2] (example_run [2])).
  - exact example_data_shaped.
  - exact example_cases_shaped.
  - reflexivity.
  - reflexivity.
Defined.

Lemma likelihood_factor_parameters_witness :
  exists like : pyvalue,
    events (example_run [2]) (studentT_likelihood example_params (Nd 3 example_cases))
      = [Yielded (HalfCauchy_sigma example_params); Yielded like]
    /\ terms_of like
       = Some (ruled_terms (fun s x => s * sqrt x + 1)
                 (data_tensor example_params) example_cases [2]).
Proof.
  apply (likelihood_factor_parameters
           example_params 2 1 2 example_cases [2] (example_run [2])).
  - exact example_data_shaped.
  - exact example_cases_shaped.
  - reflexivity.
  - exact example_cases_nonnegative.
  - reflexivity.
Defined.

(** Claim C3 as stated fails: in the concrete run the factors do not
    have the scale [s * sqrt x]; the first one has the scale
    [2 * sqrt 9 + 1], and not [2 * sqrt 9]. *)
Lemma scale_is_not_sigma_times_sqrt_of_expected :
  exists like : pyvalue,
    events (example_run [2]) (studentT_likelihood example_params (Nd 3 example_cases))
      = [Yielded (HalfCauchy_sigma example_params); Yielded like]
    /\ terms_of like
       <> Some (ruled_terms (fun s x => s * sqrt x)
                  (data_tensor example_params) example_cases [2]).
Proof.
  eexists. split.
  - apply (studentT_likelihood_unbatched example_params 2 1 2 example_cases [2]).
    + exact example_data_shaped.
    + exact example_cases_shaped.
    + reflexivity.
    + reflexivity.
  - cbn. intros H. injection H as H _. lra.
Qed.



(* ------------------------------------------------------------------------ *)
(** ** Runs of generators *)
(* ------------------------------------------------------------------------ *)

Lemma wp_from_sound {A : Type} (ok : event -> pyvalue -> Prop) (P : event -> Prop)
  (Q : list (event * pyvalue) -> A -> Prop) (o : oracle) (g : Gen A) :
  answers o ok ->
  forall hist n, wp_from ok P Q hist g ->
    Forall P (map fst (fst (run_from o n g)))
    /\ forall a, snd (run_from o n g) = inr a ->
         Q (hist ++ answered (fst (run_from o n g))) a.
Proof.
  intros Ho. induction g as [a | e | ev k IH]; intros hist n H.
  - split; [constructor|]. cbn. intros a' E. injection E as <-. now rewrite app_nil_r.
  - split; [constructor|]. cbn. discriminate.
  - destruct H as [HP Hk]. rewrite run_from_vis.
    destruct (respond o n ev) as [e | v] eqn:E.
    + split; [cbn; constructor; [exact HP | constructor]|]. cbn. discriminate.
    + assert (Hv : answerable ok ev v) by (exists o, n; split; assumption).
      specialize (IH v (hist ++ [(ev, v)]) (S n) (Hk v Hv)).
      destruct (run_from o (S n) (k v)) as [log res]. cbn [fst snd] in *.
      destruct IH as [IH1 IH2]. split.
      * cbn. constructor; assumption.
      * intros a Ha. specialize (IH2 a Ha). cbn [answered flat_map].
        fold (answered log). now rewrite <- app_assoc in IH2.
Qed.

Lemma wp_sound {A : Type} (ok : event -> pyvalue -> Prop) (P : event -> Prop)
  (Q : list (event * pyvalue) -> A -> Prop) (o : oracle) (g : Gen A) :
  answers o ok -> wp ok P Q g ->
  Forall P (events o g)
  /\ forall a, outcome o g = inr a -> Q (answered (fst (run o g))) a.
Proof.
  intros Ho H. exact (wp_from_sound ok P Q o g Ho [] 0%nat H).
Qed.

Lemma wp_from_bind {A B : Type} (ok : event -> pyvalue -> Prop) (P : event -> Prop)
  (Q : list (event * pyvalue) -> B -> Prop) (g : Gen A) (f : A -> Gen B) :
  forall hist,
    wp_from ok P (fun h a => wp_from ok P Q h (f a)) hist g ->
    wp_from ok P Q hist (bind g f).
Proof.
  induction g as [a | e | ev k IH]; intros hist H; cbn in *.
  - exact H.
  - exact I.
  - destruct H as [HP Hk]. split; [exact HP|]. intros v Hv. apply IH. now apply Hk.
Qed.

Lemma wp_from_weaken {A : Type} (ok : event -> pyvalue -> Prop) (P P' : event -> Prop)
  (Q Q' : list (event * pyvalue) -> A -> Prop) (g : Gen A) :
  (forall ev, P ev -> P' ev) -> (forall h a, Q h a -> Q' h a) ->
  forall hist, wp_from ok P Q hist g -> wp_from ok P' Q' hist g.
Proof.
  intros HP HQ. induction g as [a | e | ev k IH]; intros hist H; cbn in *.
  - now apply HQ.
  - exact I.
  - destruct H as [H1 H2]. split; [now apply HP|]. intros v Hv. apply IH. now apply H2.
Qed.

Lemma answers_any (o : oracle) : answers o any_answer.
Proof. intros n ev v _. exact I. Qed.

(** A yielded [Deterministic] is answered by its value. *)
Lemma answerable_Deterministic (ok : event -> pyvalue -> Prop)
  (name : string) (value : ndarray R) (label v : pyvalue) :
  answerable ok (Yielded (Deterministic name value label)) v -> v = VTensor value.
Proof.
  intros (o & n & _ & H). cbn in H. now injection H as <-.
Qed.

Lemma answerable_Deterministic_of (ok : event -> pyvalue -> Prop)
  (name : string) (value label v : pyvalue) :
  answerable ok (Yielded (Deterministic_of name value label)) v -> v = value.
Proof.
  intros (o & n & _ & H). cbn in H. now injection H as <-.
Qed.

(** The run of a sequence is the run of its first part, followed, when
    that returns, by the run of the rest. *)
Lemma run_from_bind {A B : Type} (o : oracle) (g : Gen A) (f : A -> Gen B) :
  forall n,
    run_from o n (bind g f)
    = let (log, res) := run_from o n g in
      match res with
      | inl e => (log, inl e)
      | inr a =>
          let (log', res') := run_from o (n + length log) (f a) in
          (log ++ log', res')
      end.
Proof.
  induction g as [a | e | ev k IH]; intros n.
  - cbn [bind run_from length app]. rewrite Nat.add_0_r.
    now destruct (run_from o n (f a)).
  - reflexivity.
  - cbn [bind]. rewrite !run_from_vis. destruct (respond o n ev) as [e | v]; [reflexivity|].
    rewrite IH. destruct (run_from o (S n) (k v)) as [log res].
    destruct res as [e | a]; [reflexivity|].
    cbn [length]. rewrite Nat.add_succ_r. cbn [Nat.add].
    now destruct (run_from o (S (n + length log)) (f a)).
Qed.

(** One step of the symbolic run of a generator; [solve_event] proves the
    property of the event at hand. *)
Ltac wp_fail :=
  cbn [bind wp_from as_tensor unpack2 tf first_slice tf_clip_by_value]; exact I.

Ltac wp_step solve_event :=
  lazymatch goal with
  | |- _ /\ _ => split; [solve_event|]
  | |- forall v, answerable _ (Yielded (Deterministic _ _ _)) v -> _ =>
      let v := fresh "v" in let Hv := fresh "Hv" in
      intros v Hv; apply answerable_Deterministic in Hv; subst v
  | |- forall v, answerable _ (Yielded (Deterministic_of _ _ _)) v -> _ =>
      let v := fresh "v" in let Hv := fresh "Hv" in
      intros v Hv; apply answerable_Deterministic_of in Hv; subst v
  | |- forall v, answerable _ _ v -> _ =>
      let v := fresh "v" in let Hv := fresh "Hv" in intros v Hv
  | |- wp_from _ _ _ _ (Vis _ _) => cbn [wp_from]
  | |- wp_from _ _ _ _ (bind (first_slice ?v) _) =>
      destruct v; try wp_fail; cbn [bind first_slice]
  | |- wp_from _ _ _ _ (bind (tf_clip_by_value _ _ _) _) => cbn [bind tf_clip_by_value]
  | |- wp_from _ _ _ _ (bind (as_tensor (VTensor _)) _) => cbn [bind as_tensor]
  | |- wp_from _ _ _ _ (bind (as_tensor ?v) _) =>
      destruct v; try wp_fail; cbn [bind as_tensor]
  | |- wp_from _ _ _ _ (bind (unpack2 ?v) _) =>
      let l := fresh "l" in
      destruct v as [| | | | |l| | | |]; try wp_fail;
      destruct l as [|? [|? [|? ?]]]; try wp_fail; cbn [bind unpack2]
  | |- wp_from _ _ _ _ (bind (tf _ ?r) _) =>
      let E := fresh "E" in
      destruct r as [[? ?] | ] eqn:E || destruct r eqn:E;
      try wp_fail; cbn [bind tf]
  | |- wp_from _ _ _ _ (bind _ _) => cbn [bind yield_ call]
  end.

(** The same for a property of the events that looks at the answered events
    before them. *)
Lemma always_from_sound {A : Type} (P : list (event * pyvalue) -> event -> Prop)
  (o : oracle) (g : Gen A) :
  forall hist n, always_from P hist g ->
  forall pre ev r post,
    fst (run_from o n g) = pre ++ (ev, r) :: post ->
    P (hist ++ answered pre) ev.
Proof.
  induction g as [a | e | ev0 k IH]; intros hist n H pre ev r post E.
  - destruct pre; discriminate E.
  - destruct pre; discriminate E.
  - destruct H as [HP Hk]. rewrite run_from_vis in E.
    destruct (respond o n ev0) as [e | v] eqn:Er.
    + cbn [fst] in E. destruct pre as [|p pre].
      * injection E as <- _ _. cbn [answered flat_map]. now rewrite app_nil_r.
      * injection E as _ E. destruct pre; discriminate E.
    + assert (Hv : answerable any_answer ev0 v).
      { exists o, n. split; [apply answers_any | exact Er]. }
      specialize (IH v (hist ++ [(ev0, v)]) (S n) (Hk v Hv)).
      destruct (run_from o (S n) (k v)) as [log res]. cbn [fst] in *.
      destruct pre as [|p pre].
      * injection E as <- _ _. cbn [answered flat_map]. now rewrite app_nil_r.
      * injection E as <- E. specialize (IH pre ev r post E).
        cbn [answered flat_map]. fold (answered pre).
        now rewrite <- app_assoc in IH.
Qed.

Lemma always_from_bind_raise {A B : Type} (P : list (event * pyvalue) -> event -> Prop)
  (g : Gen A) (f : A -> Gen B) :
  (forall a, exists e, f a = Raise e) ->
  forall hist, always_from P hist g -> always_from P hist (bind g f).
Proof.
  intros Hf. induction g as [a | e | ev k IH]; intros hist H; cbn [bind].
  - destruct (Hf a) as [e ->]. exact I.
  - exact I.
  - destruct H as [HP Hk]. split; [exact HP|]. intros v Hv. apply IH. now apply Hk.
Qed.

Ltac always_fail :=
  cbn [bind always_from as_tensor unpack2 tf first_slice tf_clip_by_value]; exact I.

Ltac always_step solve_event :=
  lazymatch goal with
  | |- _ /\ _ => split; [solve_event|]
  | |- forall v, answerable _ (Yielded (Deterministic _ _ _)) v -> _ =>
      let v := fresh "v" in let Hv := fresh "Hv" in
      intros v Hv; apply answerable_Deterministic in Hv; subst v
  | |- forall v, answerable _ (Yielded (Deterministic_of _ _ _)) v -> _ =>
      let v := fresh "v" in let Hv := fresh "Hv" in
      intros v Hv; apply answerable_Deterministic_of in Hv; subst v
  | |- forall v, answerable _ _ v -> _ =>
      let v := fresh "v" in let Hv := fresh "Hv" in intros v Hv
  | |- always_from _ _ (Vis _ _) => cbn [always_from]
  | |- always_from _ _ (bind (first_slice ?v) _) =>
      destruct v; try always_fail; cbn [bind first_slice]
  | |- always_from _ _ (bind (tf_clip_by_value _ _ _) _) => cbn [bind tf_clip_by_value]
  | |- always_from _ _ (bind (as_tensor (VTensor _)) _) => cbn [bind as_tensor]
  | |- always_from _ _ (bind (as_tensor ?v) _) =>
      destruct v; try always_fail; cbn [bind as_tensor]
  | |- always_from _ _ (bind (unpack2 ?v) _) =>
      let l := fresh "l" in
      destruct v as [| | | | |l| | | |]; try always_fail;
      destruct l as [|? [|? [|? ?]]]; try always_fail; cbn [bind unpack2]
  | |- always_from _ _ (bind (tf _ ?r) _) =>
      let E := fresh "E" in
      destruct r as [[? ?] | ] eqn:E || destruct r eqn:E;
      try always_fail; cbn [bind tf]
  | |- always_from _ _ (bind _ _) => cbn [bind yield_ call]
  end.

(* ------------------------------------------------------------------------ *)
(** ** The contact matrix *)
(* ------------------------------------------------------------------------ *)

Lemma Rsum_map_div (f : R -> R) (n : R) (l : list R) :
  Rsum (map (fun x => f x / n) l) = Rsum (map f l) / n.
Proof.
  unfold Rsum. induction l as [|x l IH]; simpl.
  - unfold Rdiv. now rewrite Rmult_0_l.
  - rewrite IH. unfold Rdiv. now rewrite Rmult_plus_distr_r.
Qed.

Lemma l1_norm_nonneg (row : list R) : 0 <= l1_norm row.
Proof.
  unfold l1_norm, Rsum. induction row as [|x row IH]; simpl; [lra|].
  pose proof (Rabs_pos x). lra.
Qed.

Lemma l1_norm_ge (x : R) (row : list R) : In x row -> Rabs x <= l1_norm row.
Proof.
  induction row as [|y row IH]; [intros []|].
  intros [-> | H]; unfold l1_norm, Rsum in *; simpl.
  - pose proof (l1_norm_nonneg row) as Hn. unfold l1_norm, Rsum in Hn. lra.
  - pose proof (Rabs_pos y). specialize (IH H). lra.
Qed.

Lemma l1_normalize_row_norm (row : list R) :
  0 < l1_norm row -> l1_norm (l1_normalize_row row) = 1.
Proof.
  intros Hpos. unfold l1_normalize_row. unfold l1_norm at 1. rewrite map_map.
  rewrite (map_ext (fun x => Rabs (x / l1_norm row)) (fun x => Rabs x / l1_norm row)).
  - rewrite Rsum_map_div. fold (l1_norm row). field. lra.
  - intros x. unfold Rdiv. rewrite Rabs_mult, Rabs_inv.
    now rewrite (Rabs_pos_eq (l1_norm row)) by lra.
Qed.

Lemma nonneg_Rsum_l1_norm (row : list R) :
  Forall (fun x => 0 <= x) row -> Rsum row = l1_norm row.
Proof.
  unfold l1_norm, Rsum. induction 1 as [|x row Hx H IH]; simpl; [reflexivity|].
  rewrite IH. now rewrite (Rabs_pos_eq x).
Qed.

Lemma sequence_Forall2 {A : Type} (l : list (option A)) (r : list A) :
  sequence l = Some r -> Forall2 (fun a b => a = Some b) l r.
Proof.
  revert r. induction l as [|[a|] l IH]; intros r H; simpl in H.
  - injection H as <-. constructor.
  - destruct (sequence l) as [r'|]; [|discriminate]. injection H as <-.
    constructor; [reflexivity | now apply IH].
  - discriminate.
Qed.

Lemma mapM_Forall2 {A B : Type} (f : A -> option B) (l : list A) (r : list B) :
  mapM f l = Some r -> Forall2 (fun a b => f a = Some b) l r.
Proof.
  unfold mapM. intros H. apply sequence_Forall2 in H.
  remember (map f l) as fl eqn:E. revert l E.
  induction H as [|x b fl r Hx H IH]; intros [|a l] E; try discriminate; constructor.
  - injection E as -> _. exact Hx.
  - apply IH. now injection E.
Qed.

Lemma zipM_diag {A C : Type} (f : A -> A -> option C) (l : list A) (r : list C) :
  zipM f l l = Some r -> Forall2 (fun a b => f a a = Some b) l r.
Proof.
  revert r. induction l as [|a l IH]; intros r H; simpl in H.
  - injection H as <-. constructor.
  - destruct (f a a) as [c|] eqn:E; [|discriminate].
    destruct (zipM f l l) as [r'|]; [|discriminate]. injection H as <-.
    constructor; [exact E | now apply IH].
Qed.

Lemma rows_normalize (n : nat) (x y nrm : tensor R n) :
  normalize_ord1 n x = Some (y, nrm) ->
  rows n y = map l1_normalize_row (rows n x).
Proof.
  induction n as [|n IH]; [discriminate|].
  destruct n as [|k].
  - cbn. intros H. injection H as <- _. reflexivity.
  - change (normalize_ord1 (S (S k)) x)
      with (match mapM (normalize_ord1 (S k)) x with
            | Some r => Some (map fst r, map snd r)
            | None => None
            end).
    destruct (mapM (normalize_ord1 (S k)) x) as [r|] eqn:E; [|discriminate].
    intros H. injection H as <- _.
    change (rows (S (S k)) (map fst r)) with (flat_map (rows (S k)) (map fst r)).
    change (rows (S (S k)) x) with (flat_map (rows (S k)) x).
    apply mapM_Forall2 in E.
    induction E as [|a [b c] x r Hab E IHE]; [reflexivity|].
    cbn [map flat_map fst]. rewrite map_app, IHE. f_equal.
    exact (IH a b c Hab).
Qed.

Lemma rows_einsum_diag (n : nat) (x z : tensor R n) :
  einsum_an_bn_ab n x x = Some z ->
  Forall (fun row => exists M a, In M (matrices n x) /\ In a M
                                 /\ row = map (fun b => dot a b) M)
         (rows n z).
Proof.
  induction n as [|n IH]; [discriminate|].
  destruct n as [|[|k]]; [discriminate| |].
  - cbn. intros H. injection H as <-.
    rewrite flat_map_concat_map, map_map. cbn [app].
    rewrite <- flat_map_concat_map.
    apply Forall_forall. intros row Hrow. apply in_flat_map in Hrow.
    destruct Hrow as [a [Ha [<-|[]]]].
    exists x, a. repeat split; [now left | exact Ha].
  - change (einsum_an_bn_ab (S (S (S k))) x x)
      with (zipM (einsum_an_bn_ab (S (S k))) x x).
    intros H. apply zipM_diag in H.
    change (rows (S (S (S k))) z) with (flat_map (rows (S (S k))) z).
    change (matrices (S (S (S k))) x) with (flat_map (matrices (S (S k))) x).
    induction H as [|a b x z Hab H IHH]; [constructor|].
    cbn [flat_map]. apply Forall_app. split.
    + specialize (IH a b Hab). revert IH. apply Forall_impl.
      intros row (M & r & HM & Hr & ->). exists M, r. repeat split; try assumption.
      apply in_or_app. now left.
    + revert IHH. apply Forall_impl.
      intros row (M & r & HM & Hr & ->). exists M, r. repeat split; try assumption.
      apply in_or_app. now right.
Qed.

Lemma l1_normalize_row_normalised (row : list R) :
  0 < l1_norm row -> l1_normalised (l1_normalize_row row).
Proof.
  intros Hpos. pose proof (l1_normalize_row_norm row Hpos) as H.
  split; [exact H|]. intros Hnn. now rewrite nonneg_Rsum_l1_norm.
Qed.

Lemma normalised_contacts (t CC C norms : ndarray R) :
  Forall corr_cholesky (matrices (rank t) (body t)) ->
  nd_einsum_an_bn_ab t t = Some CC ->
  nd_normalize_ord1 CC = Some (C, norms) ->
  Forall l1_normalised (rows (rank C) (body C)).
Proof.
  intros Hchol HCC Hp. unfold nd_einsum_an_bn_ab in HCC.
  rewrite recast_refl in HCC.
  destruct (einsum_an_bn_ab (rank t) (body t) (body t)) as [z|] eqn:Ez; [|discriminate].
  injection HCC as <-. unfold nd_normalize_ord1 in Hp. cbn [rank body] in Hp.
  destruct (normalize_ord1 (rank t) z) as [[y nrm]|] eqn:Ey; [|discriminate].
  injection Hp as <- _. cbn [rank body].
  rewrite (rows_normalize _ _ _ _ Ey). apply Forall_map.
  pose proof (rows_einsum_diag _ _ _ Ez) as Hrows.
  revert Hrows. apply Forall_impl. intros row (M & a & HM & Ha & ->).
  apply l1_normalize_row_normalised.
  rewrite Forall_forall in Hchol. destruct (Hchol M HM) as (_ & _ & _ & Hunit).
  rewrite Forall_forall in Hunit. specialize (Hunit a Ha).
  assert (Hin : In (dot a a) (map (fun b => dot a b) M)) by (apply in_map_iff; now exists a).
  apply l1_norm_ge in Hin. rewrite Hunit, Rabs_R1 in Hin. lra.
Qed.

(* ------------------------------------------------------------------------ *)
(** ** main_model *)
(* ------------------------------------------------------------------------ *)

(** The call of line 208 has four arguments for two parameters. *)
Lemma likelihood_call_raises (mp : ModelParams) (positive total deaths : pyvalue) :
  py_call studentT_likelihood_fn [VParams mp; positive; total; deaths]
  = Raise (TypeError "studentT_likelihood() takes a different number of positional arguments").
Proof. reflexivity. Qed.

(** [main_model] has the events of its first part, and returns nothing. *)
Lemma wp_main_model (ok : event -> pyvalue -> Prop) (P : event -> Prop)
  (Q0 : list (event * pyvalue) -> pyvalue * pyvalue * pyvalue -> Prop)
  (Q : list (event * pyvalue) -> pyvalue -> Prop) (mp : ModelParams) :
  wp ok P Q0 (main_model_observables mp) ->
  wp ok P Q (main_model mp).
Proof.
  unfold wp, main_model. intros H. apply wp_from_bind.
  revert H. apply wp_from_weaken; [auto|].
  intros h [[total positive] deaths] _.
  rewrite likelihood_call_raises. exact I.
Qed.

Lemma clip_number (v : R) :
  1e-7 <= Rmax (Rmin v 1e9) 1e-7 <= 1e9
  /\ clipped_from 1e-7 1e9 v (Rmax (Rmin v 1e9) 1e-7).
Proof.
  unfold clipped_from, Rmax, Rmin.
  destruct (Rle_dec v 1e9); destruct (Rle_dec _ 1e-7); lra.
Qed.

Lemma clipped_entries_real (x : ndarray R) :
  Forall2 (clipped_entry 1e-7 1e9)
    (map Val (elems (rank x) (body x)))
    (map Val (elems (rank (clip_by_value x 1e-7 1e9)) (body (clip_by_value x 1e-7 1e9)))).
Proof.
  unfold clip_by_value, unop. cbn [rank body]. rewrite elems_tmap.
  induction (elems (rank x) (body x)) as [|v l IH]; cbn [map]; constructor; [|exact IH].
  exact (clip_number v).
Qed.

Lemma clipped_entries_nan (x : ndarray npfloat) :
  Forall2 (clipped_entry 1e-7 1e9)
    (elems (rank x) (body x))
    (elems (rank (unop (clip_nan 1e-7 1e9) x)) (body (unop (clip_nan 1e-7 1e9) x))).
Proof.
  unfold unop. cbn [rank body]. rewrite elems_tmap.
  induction (elems (rank x) (body x)) as [|d l IH]; cbn [map]; constructor; [|exact IH].
  destruct d as [|v]; [exact I | exact (clip_number v)].
Qed.

Lemma clipped_entries_in_range (xs ts : list npfloat) :
  Forall2 (clipped_entry 1e-7 1e9) xs ts ->
  Forall (fun w => in_range w \/ w = NaN) ts
  /\ (Forall (fun d => d <> NaN) xs -> Forall in_range ts).
Proof.
  induction 1 as [|d w xs ts Hdw H [IH1 IH2]]; [split; constructor|].
  destruct d as [|v]; destruct w as [|c]; try contradiction.
  - split; [constructor; [now right | exact IH1]|].
    intros Hx. inversion Hx; subst. congruence.
  - destruct Hdw as [Hc _].
    assert (Hr : in_range (Val c)) by (cbn; lra).
    split; [constructor; [now left | exact IH1]|].
    intros Hx. inversion Hx; subst. constructor; [exact Hr | now apply IH2].
Qed.

Ltac in_history :=
  repeat first [ apply in_or_app; right; left; reflexivity | apply in_or_app; left ].

Ltac solve_carried :=
  let H := fresh "H" in
  intros ? H; unfold carried_infections in H;
  cbn [dict_get String.eqb Ascii.eqb Bool.eqb Deterministic Deterministic_of] in H;
  first [ discriminate H
        | injection H as <-; do 4 eexists;
          split; [in_history|];
          split; [reflexivity|];
          split; [reflexivity|];
          first [ apply clipped_entries_real | apply clipped_entries_nan ] ].

Lemma main_model_carries_clipped_infections (mp : ModelParams) :
  always_from carries_clipped_infections [] (main_model mp).
Proof.
  unfold main_model. apply always_from_bind_raise.
  - intros [[total positive] deaths]. rewrite likelihood_call_raises. cbn [bind].
    eexists. reflexivity.
  - unfold main_model_observables.
    repeat always_step solve_carried.
    all: exact I.
Qed.

(** Claim C4, as amended.  Whatever the framework and the functions outside
    the sources answer: wherever the infection tensor appears after the
    clipping step -- in the trace entry ["new_E_t"], as the input [new_E_t]
    of [generate_testing] and as the input [new_cases] of
    [calc_delayed_deaths] -- it is the tensor that the call of
    [InfectionModel] returned, clipped entry by entry.  Every entry that is
    a number lies in the closed interval from [1e-7] to [1e9] and is
    positive; an entry is [nan] where the output of the infection model is
    [nan], and only there.  So all entries lie in the interval when the
    infection model returns no [nan]. *)
Theorem infections_are_clipped
  (mp : ModelParams) (o : oracle)
  (pre post : list (event * (exn + pyvalue))) (ev : event) (r : exn + pyvalue)
  (t : pyvalue) :
  fst (run o (main_model mp)) = pre ++ (ev, r) :: post ->
  carried_infections ev = Some t ->
  exists kw x xs ts,
    In (Called "InfectionModel" kw, x) (answered pre)
    /\ float_entries x = Some xs
    /\ float_entries t = Some ts
    /\ Forall2 (clipped_entry 1e-7 1e9) xs ts
    /\ Forall (fun w => in_range w \/ w = NaN) ts
    /\ (Forall (fun d => d <> NaN) xs -> Forall in_range ts).
Proof.
  intros E Ht.
  pose proof (always_from_sound carries_clipped_infections o (main_model mp) [] 0%nat
                (main_model_carries_clipped_infections mp) pre ev r post E) as H.
  cbn [app] in H. destruct (H t Ht) as (kw & x & xs & ts & Hin & Hx & Hts & Hclip).
  exists kw, x, xs, ts. repeat (split; [assumption|]).
  now apply clipped_entries_in_range.
Qed.

(** The inputs of the two observation models in the concrete run, where
    the infection model returns [[[5; -1]]; [[2e9; 7]]]. *)
Lemma infections_are_clipped_witness :
  exists pre post kw r,
    fst (run (example_run [2]) (main_model example_params))
      = pre ++ (Yielded (VObj "deaths.calc_delayed_deaths" kw), r) :: post
    /\ exists t,
         carried_infections (Yielded (VObj "deaths.calc_delayed_deaths" kw)) = Some t
         /\ exists kw' x xs ts,
              In (Called "InfectionModel" kw', x) (answered pre)
              /\ float_entries x = Some xs
              /\ float_entries t = Some ts
              /\ Forall2 (clipped_entry 1e-7 1e9) xs ts
              /\ Forall (fun w => in_range w \/ w = NaN) ts
              /\ (Forall (fun d => d <> NaN) xs -> Forall in_range ts).
Proof.
  assert (E : exists pre post kw r,
             fst (run (example_run [2]) (main_model example_params))
             = pre ++ (Yielded (VObj "deaths.calc_delayed_deaths" kw), r) :: post
             /\ exists t,
                  carried_infections (Yielded (VObj "deaths.calc_delayed_deaths" kw))
                  = Some t).
  { exists (firstn 12 (fst (run (example_run [2]) (main_model example_params)))).
    do 3 eexists. split; [reflexivity|]. eexists. reflexivity. }
  destruct E as (pre & post & kw & r & E & t & Ht).
  exists pre, post, kw, r. split; [exact E|]. exists t. split; [exact Ht|].
  exact (infections_are_clipped example_params (example_run [2]) pre post _ r t E Ht).
Defined.

(** Claim C4 as stated fails: when the infection model returns a [nan], the
    clipping passes it on.  For the output [[[nan; 2e9]]; [[-1; 7]]] the
    trace entry ["new_E_t"] and the input of [generate_testing] are
    [[[nan; 1e9]]; [[1e-7; 7]]], with an entry that is no number of the
    interval from [1e-7] to [1e9]. *)
Lemma clipped_infections_can_hold_nan :
  exists value kw,
    In (Yielded (Deterministic_of "new_E_t" (VObserved value)
                   (shape_label3 "time" "country" "age_group")))
       (events example_run_nan (main_model example_params))
    /\ In (Yielded (VObj "number_of_tests.generate_testing" kw))
          (events example_run_nan (main_model example_params))
    /\ dict_get kw "new_E_t" = Some (VObserved value)
    /\ value = unop (clip_nan 1e-7 1e9) (Nd 3 example_infections_nan)
    /\ elems (rank value) (body value)
       = [NaN; Val (Rmax (Rmin 2e9 1e9) 1e-7); Val (Rmax (Rmin (-1) 1e9) 1e-7);
          Val (Rmax (Rmin 7 1e9) 1e-7)]
    /\ Rmax (Rmin 2e9 1e9) 1e-7 = 1e9
    /\ Rmax (Rmin (-1) 1e9) 1e-7 = 1e-7
    /\ Rmax (Rmin 7 1e9) 1e-7 = 7
    /\ Exists (fun w => ~ in_range w) (elems (rank value) (body value)).
Proof.
  eexists. eexists.
  split; [do 8 right; left; reflexivity|].
  split; [do 9 right; left; reflexivity|].
  split; [reflexivity|].
  split; [reflexivity|].
  split; [reflexivity|].
  split; [unfold Rmax, Rmin; destruct (Rle_dec 2e9 1e9); destruct (Rle_dec _ 1e-7); lra|].
  split; [unfold Rmax, Rmin; destruct (Rle_dec (-1) 1e9); destruct (Rle_dec _ 1e-7); lra|].
  split; [unfold Rmax, Rmin; destruct (Rle_dec 7 1e9); destruct (Rle_dec _ 1e-7); lra|].
  left. intros H. exact H.
Qed.

(** In the concrete run the trace entry is there, with the infections
    [[[5; -1]]; [[2e9; 7]]] clipped. *)
Lemma example_infections_recorded :
  In (Yielded (Deterministic "new_E_t"
                 (clip_by_value (Nd 3 example_infections) 1e-7 1e9)
                 (shape_label3 "time" "country" "age_group")))
     (events (example_run [2]) (main_model example_params)).
Proof.
  do 8 right. left. reflexivity.
Qed.

Ltac use_cholesky :=
  match goal with
  | H : answerable cholesky_answers (Yielded (VObj "LKJCholesky" _)) _ |- _ =>
      let o' := fresh "o" in let n' := fresh "n" in
      let Ho' := fresh "Ho" in let Hr' := fresh "Hr" in
      let t' := fresh "t" in let Et := fresh "Et" in let Hch := fresh "Hch" in
      destruct H as (o' & n' & Ho' & Hr');
      change (o' n' (Yielded (VObj "LKJCholesky" _)) = inr _) in Hr' ||
      cbn [respond String.eqb Ascii.eqb Bool.eqb] in Hr';
      apply Ho' in Hr'; destruct (Hr' eq_refl) as (t' & Et & _ & Hch);
      injection Et as <-
  end.

Ltac solve_contacts :=
  cbn [contacts_satisfy];
  first [ exact I
        | intros _; eexists; split; [reflexivity|];
          use_cholesky; eapply normalised_contacts; eassumption ].

(** Claim C5, as amended.  When the sampled Cholesky factors are factors
    of correlation matrices, the contact matrix that the infection dynamics
    receive is normalised in the 1-norm: in every row along the last
    age-group axis the absolute values of the entries sum to one; the
    entries themselves sum to one in a row without negative entries. *)
Theorem contact_rows_are_l1_normalised (mp : ModelParams) (o : oracle) :
  answers o cholesky_answers ->
  Forall (contacts_satisfy l1_normalised) (events o (main_model mp)).
Proof.
  intros Ho.
  apply (wp_sound cholesky_answers (contacts_satisfy l1_normalised) (fun _ _ => True)).
  - exact Ho.
  - apply wp_main_model with (Q0 := fun _ _ => True).
    unfold wp, main_model_observables.
    repeat wp_step solve_contacts.
    all: exact I.
Qed.

Lemma example_chol_is_cholesky : corr_cholesky [[1; 0]; [-0.6; 0.8]].
Proof.
  repeat split.
  - repeat constructor.
  - intros i j Hij.
    destruct i as [|[|i]]; destruct j as [|[|[|j]]]; try lia; try reflexivity;
      destruct i; reflexivity.
  - intros i Hi. cbn in Hi. destruct i as [|[|i]]; cbn; try lra; lia.
  - repeat constructor; unfold dot, Rsum; cbn; lra.
Qed.

Lemma example_answers_cholesky (sigma : list R) :
  answers (example_run sigma) cholesky_answers.
Proof.
  intros n ev v H. destruct ev as [obj | fn kw]; [|exact I].
  destruct obj; try exact I.
  cbn [cholesky_answers]. intros ->. cbn in H. injection H as <-.
  exists (Nd 3 example_chol). repeat split.
  - cbn. lia.
  - cbn. constructor; [exact example_chol_is_cholesky | constructor].
Qed.

Lemma contact_rows_are_l1_normalised_witness :
  answers (example_run [2]) cholesky_answers
  /\ Forall (contacts_satisfy l1_normalised)
            (events (example_run [2]) (main_model example_params)).
Proof.
  split.
  - exact (example_answers_cholesky [2]).
  - apply contact_rows_are_l1_normalised. exact (example_answers_cholesky [2]).
Defined.

(** Claim C5 as stated fails: for the Cholesky factor [[1, 0], [-0.6, 0.8]]
    of the correlation matrix [[1, -0.6], [-0.6, 1]] the first row of the
    normalised contact matrix is [[0.625, -0.375]], with the sum [0.25]. *)
Lemma contact_rows_need_not_sum_to_one :
  answers (example_run [2]) cholesky_answers
  /\ exists kw t row,
       In (Called "InfectionModel" kw)
          (events (example_run [2]) (main_model example_params))
       /\ dict_get kw "C" = Some (VTensor t)
       /\ In row (rows (rank t) (body t))
       /\ Rsum row <> 1.
Proof.
  split; [exact (example_answers_cholesky [2])|].
  eexists. eexists. eexists. split; [|split; [|split]].
  - do 7 right. left. reflexivity.
  - reflexivity.
  - cbn. left. reflexivity.
  - unfold Rsum, Rabs. cbn.
    repeat match goal with |- context [Rcase_abs ?x] => destruct (Rcase_abs x); try lra end.
    replace (1 * 1 + (0 * 0 + 0) + (- (1 * -0.6 + (0 * 0.8 + 0)) + 0)) with 1.6 by lra.
    lra.
Qed.

Lemma observables_history (mp : ModelParams) :
  wp any_answer (fun ev => is_week_modulation ev = false) observables_come_from
     (main_model_observables mp).
Proof.
  unfold wp, main_model_observables.
  repeat wp_step ltac:(reflexivity).
  all: cbn [wp_from fst snd observables_come_from].
  all: rewrite <- !app_assoc; cbn [app].
  all: match goal with
       | |- exists pre kw_tests kw_phi phi kw_delay m theta kw_deaths, ?l = _ =>
           exists (firstn 9 l)
       end.
  all: repeat eexists.
Qed.

(** Claim C7.  Whatever the framework and the functions outside the sources
    answer: no event of [main_model] is a weekly modulation; and when the
    model gets as far as the likelihood, the run ends with the events of
    [generate_testing], [_calc_Phi_IFR], [_construct_reporting_delay] and
    [calc_delayed_deaths], and goes on with the call of the likelihood on
    the model parameters and exactly the positive tests and the total tests
    that [generate_testing] returned and the delayed deaths that
    [calc_delayed_deaths] returned. *)
Theorem observables_reach_the_likelihood_unmodulated (mp : ModelParams) (o : oracle) :
  Forall (fun ev => is_week_modulation ev = false) (events o (main_model mp))
  /\ forall total_tests positive_tests deaths_delayed,
       outcome o (main_model_observables mp)
         = inr (total_tests, positive_tests, deaths_delayed) ->
       observables_come_from (answered (fst (run o (main_model_observables mp))))
                             (total_tests, positive_tests, deaths_delayed)
       /\ run o (main_model mp)
          = (let log := fst (run o (main_model_observables mp)) in
             let (log', res) :=
               run_from o (length log)
                 (likelihood <- py_call studentT_likelihood_fn
                                  [VParams mp; positive_tests; total_tests; deaths_delayed] ;;
                  Ret likelihood) in
             (log ++ log', res)).
Proof.
  split.
  - apply (wp_sound any_answer (fun ev => is_week_modulation ev = false) (fun _ _ => True)).
    + apply answers_any.
    + apply wp_main_model with (Q0 := observables_come_from).
      apply observables_history.
  - intros total_tests positive_tests deaths_delayed Hout. split.
    + exact (proj2 (wp_sound any_answer _ _ o _ (answers_any o) (observables_history mp))
               _ Hout).
    + unfold run, main_model. rewrite run_from_bind.
      unfold outcome, run in Hout.
      destruct (run_from o 0 (main_model_observables mp)) as [log res].
      cbn [fst snd] in *. subst res. reflexivity.
Qed.

(** No run of [main_model] returns a likelihood. *)
Lemma main_model_never_returns (mp : ModelParams) (o : oracle) :
  exists e, outcome o (main_model mp) = inl e.
Proof.
  pose proof (wp_sound any_answer (fun _ => True) (fun _ (_ : pyvalue) => False) o
                (main_model mp) (answers_any o)) as H.
  destruct H as [_ H].
  - apply wp_main_model with (Q0 := observables_come_from).
    generalize (observables_history mp). unfold wp.
    apply wp_from_weaken; auto.
  - destruct (outcome o (main_model mp)) as [e | a].
    + now exists e.
    + destruct (H a eq_refl).
Qed.

(** Claim C2 (the code at the failing input).  In the concrete run all
    three observables are computed, and the call of the likelihood with
    them raises [TypeError]: [studentT_likelihood] has the one parameter
    [new_cases] for the expected cases. *)
Theorem main_model_likelihood_call_raises :
  (exists total_tests positive_tests deaths_delayed,
      outcome (example_run [2]) (main_model_observables example_params)
      = inr (total_tests, positive_tests, deaths_delayed))
  /\ outcome (example_run [2]) (main_model example_params)
     = inl (TypeError
              "studentT_likelihood() takes a different number of positional arguments").
Proof.
  split.
  - do 3 eexists. reflexivity.
  - reflexivity.
Qed.

(* ------------------------------------------------------------------------ *)
(** ** week_modulation *)
(* ------------------------------------------------------------------------ *)

Lemma global_bound (G : list string) (name : string) :
  In name G -> global G name = Ret tt.
Proof.
  intros H. unfold global.
  replace (existsb (String.eqb name) G) with true; [reflexivity|].
  symmetry. apply existsb_exists. exists name. split; [exact H | apply String.eqb_refl].
Qed.

Lemma global_unbound (G : list string) (name : string) :
  ~ In name G -> global G name = Raise (NameError name).
Proof.
  intros H. unfold global.
  destruct (existsb (String.eqb name) G) eqn:E; [|reflexivity].
  apply existsb_exists in E. destruct E as (x & Hin & Hx).
  apply String.eqb_eq in Hx. subst x. contradiction.
Qed.

Ltac in_globals :=
  unfold weekly_modulation_globals, model_py_names;
  repeat rewrite in_app_iff; cbn [In]; tauto.

Lemma tt_unbound (pkg : list string) :
  ~ In "tt" pkg -> ~ In "tt" (weekly_modulation_globals pkg).
Proof.
  intros Hpkg H. unfold weekly_modulation_globals, model_py_names in H.
  repeat rewrite in_app_iff in H. cbn [In] in H.
  repeat match goal with
         | H : _ \/ _ |- _ => destruct H as [H | H]
         | H : False |- _ => destruct H
         | H : _ = _ |- _ => discriminate H
         end.
  contradiction.
Qed.

(** A call fails at the latest at the first reference to [tt]. *)
Lemma week_modulation_outcome (pkg : list string)
  (name : string) (modelParams : ModelParams) (cases : pyvalue)
  (week_modulation_type name_weekend_factor name_offset_modulation : string)
  (pr_mean_weekend_factor pr_sigma_weekend_factor : R)
  (weekend_days : list Z) (model : option Cov19Model) (o : oracle) :
  ~ In "tt" pkg ->
  outcome o (week_modulation (weekly_modulation_globals pkg) name modelParams cases
               week_modulation_type name_weekend_factor name_offset_modulation
               pr_mean_weekend_factor pr_sigma_weekend_factor weekend_days model)
  = match o 0%nat (Yielded weekly_modulation_weight), model with
    | inl e, _ => inl e
    | inr _, None => inl (AttributeError "sim_shape")
    | inr _, Some _ => inl (NameError "tt")
    end.
Proof.
  intros Hpkg. set (G := weekly_modulation_globals pkg).
  unfold outcome, run, week_modulation.
  rewrite (global_bound G "log") by (subst G; in_globals).
  rewrite (global_bound G "Normal") by (subst G; in_globals).
  rewrite (global_bound G "HalfNormal") by (subst G; in_globals).
  rewrite (global_bound G "transformations") by (subst G; in_globals).
  cbn [bind yield_]. rewrite run_from_vis.
  change (respond o 0 (Yielded weekly_modulation_weight))
    with (o 0%nat (Yielded weekly_modulation_weight)).
  destruct (o 0%nat (Yielded weekly_modulation_weight)) as [e | w]; [reflexivity|].
  destruct model as [m|]; [|reflexivity].
  cbn [bind getattr].
  rewrite (global_bound G "pm") by (subst G; in_globals).
  rewrite (global_bound G "ut") by (subst G; in_globals).
  rewrite (global_unbound G "tt") by (subst G; apply tt_unbound; exact Hpkg).
  destruct (is_hierarchical m); reflexivity.
Qed.

(** Claim C9.  When the star import binds no name [tt], every call of
    [week_modulation] with the default modulation type raises an exception
    and returns no cases: the exception of the framework at the one
    [yield], [AttributeError] when [model] is [None], and otherwise
    [NameError] for the name [tt], which the body reads before it selects
    the modulation and before it reads [name_cases]. *)
Theorem week_modulation_abs_sine_fails (pkg : list string)
  (name : string) (modelParams : ModelParams) (cases : pyvalue)
  (name_weekend_factor name_offset_modulation : string)
  (pr_mean_weekend_factor pr_sigma_weekend_factor : R)
  (weekend_days : list Z) (model : option Cov19Model) (o : oracle) :
  ~ In "tt" pkg ->
  exists e,
    outcome o (week_modulation (weekly_modulation_globals pkg) name modelParams cases
                 default_week_modulation_type name_weekend_factor name_offset_modulation
                 pr_mean_weekend_factor pr_sigma_weekend_factor weekend_days model)
    = inl e
    /\ (forall w m, o 0%nat (Yielded weekly_modulation_weight) = inr w ->
                    model = Some m -> e = NameError "tt").
Proof.
  intros Hpkg. rewrite week_modulation_outcome by exact Hpkg.
  destruct (o 0%nat (Yielded weekly_modulation_weight)) as [e | w].
  - exists e. split; [reflexivity | discriminate].
  - destruct model as [m|].
    + exists (NameError "tt"). split; reflexivity.
    + exists (AttributeError "sim_shape"). split; [reflexivity | discriminate].
Qed.

Lemma example_pkg_without_tt : ~ In "tt" example_pkg.
Proof.
  cbn. intros H.
  repeat match goal with
         | H : _ \/ _ |- _ => destruct H as [H | H]
         | H : False |- _ => destruct H
         | H : _ = _ |- _ => discriminate H
         end.
Qed.

Lemma week_modulation_abs_sine_fails_witness :
  ~ In "tt" example_pkg
  /\ exists e,
       outcome (example_run [2])
         (week_modulation (weekly_modulation_globals example_pkg)
            "tests_positive_modulated" example_params (tensor3 example_cases)
            default_week_modulation_type "weekend_factor" "offset_modulation"
            0.3 0.5 default_weekend_days (Some example_model))
       = inl e
       /\ (forall w m,
             example_run [2] 0%nat (Yielded weekly_modulation_weight) = inr w ->
             Some example_model = Some m -> e = NameError "tt").
Proof.
  split.
  - exact example_pkg_without_tt.
  - apply week_modulation_abs_sine_fails. exact example_pkg_without_tt.
Defined.

(** Claim C8 (the code at the failing input).  A call with the modulation
    type ["step"] raises [NameError] for [tt] and returns no cases.  Besides,
    line 168 assigns [modulation] again: for the type ["step"] the vector of
    [step_modulation] is computed and then replaced by [0]; with the names
    [tt], [name_cases] and [datetime] bound, the weekend factor is
    multiplied by [0] and not by the vector of the weekend days. *)
Theorem week_modulation_step_does_not_modulate :
  outcome (example_run [2])
    (week_modulation (weekly_modulation_globals example_pkg)
       "tests_positive_modulated" example_params (tensor3 example_cases)
       "step" "weekend_factor" "offset_modulation"
       0.3 0.5 default_weekend_days (Some example_model))
  = inl (NameError "tt")
  /\ (forall step abs_sine : Gen pyvalue,
        select_modulation "step" step abs_sine = (_ <- step ;; Ret (VInt 0)))
  /\ step_modulation (weekly_modulation_globals ("datetime" :: example_pkg))
       (Some example_model) default_weekend_days (sim_shape example_model)
     = Ret (VTensor (Nd 1 [1; 1]))
  /\ exists weekend_factor,
       In (Called "*" [("left", weekend_factor); ("right", VInt 0)])
          (events (example_run [2])
             (week_modulation
                (weekly_modulation_globals
                   ("tt" :: "name_cases" :: "datetime" :: example_pkg))
                "tests_positive_modulated" example_params (tensor3 example_cases)
                "step" "weekend_factor" "offset_modulation"
                0.3 0.5 default_weekend_days (Some example_model))).
Proof.
  split; [reflexivity|]. split; [reflexivity|]. split; [reflexivity|].
  eexists. do 5 right. left. reflexivity.
Qed.

(* ------------------------------------------------------------------------ *)
(** ** ModelParams.get_distribution_by_name *)
(* ------------------------------------------------------------------------ *)

Lemma name_is_true (v : cfgval) (name : string) :
  name_is v name = true <-> v = CStr name.
Proof.
  destruct v; cbn; split; intros H; try discriminate.
  - apply String.eqb_eq in H. now subst.
  - injection H as ->. apply String.eqb_refl.
Qed.

Lemma named_dec (name : string) (item : string * pydict cfgval) :
  {named name item} + {~ named name item}.
Proof.
  unfold named. destruct (dict_get (snd item) "name") as [v|].
  - destruct (name_is v name) eqn:E.
    + left. f_equal. now apply name_is_true.
    + right. intros H. injection H as ->.
      assert (name_is (CStr name) name = true) by now apply name_is_true.
      congruence.
  - right. discriminate.
Qed.

Lemma find_dist_no_match (items : pydict (pydict cfgval)) (name : string)
  (this_dist : option string) :
  Forall has_name items -> Forall (fun item => ~ named name item) items ->
  find_dist items name this_dist = inr this_dist.
Proof.
  intros Hn Hm. revert this_dist.
  induction items as [|[dist value] items IH]; intros this_dist; [reflexivity|].
  inversion Hn as [|? ? Hn1 Hn2]; inversion Hm as [|? ? Hm1 Hm2]; subst.
  unfold has_name, named in Hn1, Hm1. cbn [snd] in *. cbn [find_dist].
  destruct (dict_get value "name") as [v|]; [|contradiction].
  destruct (name_is v name) eqn:E.
  - apply name_is_true in E. subst v. contradiction.
  - now apply IH.
Qed.

Lemma find_dist_last_match (pre post : pydict (pydict cfgval)) (dist : string)
  (value : pydict cfgval) (name : string) (this_dist : option string) :
  Forall has_name (pre ++ (dist, value) :: post) ->
  named name (dist, value) ->
  Forall (fun item => ~ named name item) post ->
  find_dist (pre ++ (dist, value) :: post) name this_dist = inr (Some dist).
Proof.
  intros Hn Hv Hpost. revert this_dist.
  induction pre as [|[d v] pre IH]; intros this_dist.
  - cbn [app find_dist]. unfold named in Hv. cbn [snd] in Hv. rewrite Hv.
    assert (E : name_is (CStr name) name = true) by now apply name_is_true.
    rewrite E. apply find_dist_no_match; [|exact Hpost].
    now inversion Hn.
  - cbn [app find_dist]. inversion Hn as [|? ? Hn1 Hn2]; subst.
    unfold has_name in Hn1. cbn [snd] in Hn1.
    destruct (dict_get v "name") as [w|]; [|contradiction].
    destruct (name_is w name); now apply IH.
Qed.

Lemma dict_get_unique {V : Type} (pre post : pydict V) (key : string) (v : V) :
  NoDup (map fst (pre ++ (key, v) :: post)) ->
  dict_get (pre ++ (key, v) :: post) key = Some v.
Proof.
  induction pre as [|[k w] pre IH]; intros H.
  - cbn. now rewrite String.eqb_refl.
  - cbn [app map fst] in H. inversion H as [|? ? Hk Hrest]; subst.
    cbn [app dict_get]. destruct (String.eqb k key) eqn:E.
    + apply String.eqb_eq in E. subst k. exfalso. apply Hk.
      rewrite map_app. apply in_or_app. right. now left.
    + now apply IH.
Qed.

Lemma last_match (name : string) (items : pydict (pydict cfgval)) :
  Exists (named name) items ->
  exists pre dist value post,
    items = pre ++ (dist, value) :: post
    /\ named name (dist, value)
    /\ Forall (fun item => ~ named name item) post.
Proof.
  induction items as [|item items IH]; intros H; [inversion H|].
  destruct (Exists_dec (named name) items (named_dec name)) as [Hex | Hno].
  - destruct (IH Hex) as (pre & dist & value & post & -> & Hv & Hpost).
    exists (item :: pre), dist, value, post. now repeat split.
  - inversion H as [? ? Hitem | ? ? Hrest]; subst; [|contradiction].
    destruct item as [dist value]. exists [], dist, value, items.
    repeat split; [exact Hitem|]. now apply Forall_Exists_neg.
Qed.

(** Claim C10, as amended.  For a dict [distributions] all of whose entries
    have a ["name"] field: when some entry has the name [name],
    [get_distribution_by_name] returns the configuration of the last such
    entry; when no entry has it, the call fails with [UnboundLocalError] for
    the variable [this_dist], which the loop never bound. *)
Theorem get_distribution_by_name_last_or_unbound (self : ModelParams) (name : string) :
  NoDup (map fst (distributions self)) ->
  Forall has_name (distributions self) ->
  (Exists (named name) (distributions self) ->
   exists pre dist value post,
     distributions self = pre ++ (dist, value) :: post
     /\ named name (dist, value)
     /\ Forall (fun item => ~ named name item) post
     /\ get_distribution_by_name self name = inr value)
  /\ (Forall (fun item => ~ named name item) (distributions self) ->
      get_distribution_by_name self name = inl (UnboundLocalError "this_dist")).
Proof.
  intros Hdup Hnames. split.
  - intros Hex. destruct (last_match name _ Hex) as (pre & dist & value & post & E & Hv & Hpost).
    exists pre, dist, value, post. repeat split; try assumption.
    unfold get_distribution_by_name. rewrite E in *.
    rewrite (find_dist_last_match pre post dist value name None Hnames Hv Hpost).
    now rewrite dict_get_unique.
  - intros Hno. unfold get_distribution_by_name.
    now rewrite (find_dist_no_match _ name None Hnames Hno).
Qed.

Lemma default_config_keys_unique (nc na len : nat) :
  NoDup (map fst (get_default_dist_config nc na len)).
Proof.
  cbn. repeat constructor; cbn; intros H;
    repeat match goal with
           | H : _ \/ _ |- _ => destruct H as [H | H]
           | H : False |- _ => destruct H
           | H : _ = _ |- _ => discriminate H
           end.
Qed.

Lemma default_config_has_names (nc na len : nat) :
  Forall has_name (get_default_dist_config nc na len).
Proof.
  repeat constructor; unfold has_name; cbn; discriminate.
Qed.

Lemma get_distribution_by_name_last_or_unbound_witness :
  NoDup (map fst (distributions example_params))
  /\ Forall has_name (distributions example_params)
  /\ (Exists (named "sigma") (distributions example_params) ->
      exists pre dist value post,
        distributions example_params = pre ++ (dist, value) :: post
        /\ named "sigma" (dist, value)
        /\ Forall (fun item => ~ named "sigma" item) post
        /\ get_distribution_by_name example_params "sigma" = inr value)
  /\ (Forall (fun item => ~ named "sigma" item) (distributions example_params) ->
      get_distribution_by_name example_params "sigma"
      = inl (UnboundLocalError "this_dist")).
Proof.
  split; [apply default_config_keys_unique|].
  split; [apply default_config_has_names|].
  apply get_distribution_by_name_last_or_unbound.
  - apply default_config_keys_unique.
  - apply default_config_has_names.
Defined.

(** Claim C10 as stated fails for a dict with an entry that has no ["name"]
    field: in [example_params_nameless] the entry ["I_0"] has the name
    ["I_0"], and no entry has the name ["tau"], but both lookups raise
    [KeyError] for ["name"] at the entry ["R"]: the first returns no
    configuration, and the second does not fail at the unbound variable. *)
Lemma get_distribution_by_name_fails_on_a_nameless_entry :
  NoDup (map fst (distributions example_params_nameless))
  /\ Exists (named "I_0") (distributions example_params_nameless)
  /\ get_distribution_by_name example_params_nameless "I_0" = inl (KeyError "name")
  /\ Forall (fun item => ~ named "tau" item) (distributions example_params_nameless)
  /\ get_distribution_by_name example_params_nameless "tau" = inl (KeyError "name").
Proof.
  split.
  { cbn. repeat constructor; cbn; intros H;
      repeat match goal with
             | H : _ \/ _ |- _ => destruct H as [H | H]
             | H : False |- _ => destruct H
             | H : _ = _ |- _ => discriminate H
             end. }
  split; [left; reflexivity|].
  split; [reflexivity|].
  split; [repeat constructor; unfold named; cbn; discriminate | reflexivity].
Qed.

(** Both cases on the default configuration. *)
Lemma get_distribution_by_name_examples :
  get_distribution_by_name example_params "sigma"
  = inr [ ("name", CStr "sigma"); ("long_name", CStr "likelihood scale");
          ("shape", CInt 1); ("shape_label", CStr "likelihood scale");
          ("math", CStr "\sigma") ]
  /\ get_distribution_by_name example_params "tau" = inl (UnboundLocalError "this_dist").
Proof. split; reflexivity. Qed.

(* ------------------------------------------------------------------------ *)
(** ** More on the likelihood *)
(* ------------------------------------------------------------------------ *)

Lemma ruled_row_agree (rule : R -> R -> R) (s : R) (drow : list npfloat) (xrow yrow : list R) :
  length xrow = length drow -> length yrow = length drow ->
  (forall a, isnan (nth a drow NaN) = false -> nth a xrow 0 = nth a yrow 0) ->
  flat_map (fun '(d, x) => entry_term d x (rule s x)) (combine drow xrow)
  = flat_map (fun '(d, x) => entry_term d x (rule s x)) (combine drow yrow).
Proof.
  revert xrow yrow.
  induction drow as [|d drow IH]; intros [|x xrow] [|y yrow] Hx Hy H;
    simpl in Hx, Hy; try discriminate; [reflexivity|].
  cbn [combine flat_map]. f_equal.
  - unfold entry_term. destruct (isnan d) eqn:E; [reflexivity|].
    assert (Exy : x = y) by exact (H 0%nat E). now rewrite Exy.
  - apply IH; [lia | lia |]. intros a Ha. exact (H (S a) Ha).
Qed.

Lemma ruled_plane_agree (rule : R -> R -> R) (Ag : nat) (sg : list R)
  (dplane : tensor npfloat 2) (xplane yplane : tensor R 2) :
  Forall (fun row => length row = Ag) dplane ->
  Forall (fun row => length row = Ag) xplane ->
  Forall (fun row => length row = Ag) yplane ->
  length xplane = length dplane -> length yplane = length dplane ->
  (forall c a, isnan (nth a (nth c dplane []) NaN) = false ->
               nth a (nth c xplane []) 0 = nth a (nth c yplane []) 0) ->
  flat_map (fun '(s, (drow, xrow)) =>
      flat_map (fun '(d, x) => entry_term d x (rule s x)) (combine drow xrow))
    (combine sg (combine dplane xplane))
  = flat_map (fun '(s, (drow, xrow)) =>
      flat_map (fun '(d, x) => entry_term d x (rule s x)) (combine drow xrow))
    (combine sg (combine dplane yplane)).
Proof.
  intros Hd. revert sg xplane yplane.
  induction Hd as [|drow dplane Hdr Hd IH]; intros sg [|xrow xplane] [|yrow yplane] Hx Hy Lx Ly H;
    simpl in Lx, Ly; try discriminate; [reflexivity|].
  destruct sg as [|s sg]; [reflexivity|].
  inversion Hx; inversion Hy; subst.
  cbn [combine flat_map]. f_equal.
  - apply ruled_row_agree; [congruence | congruence |].
    intros a Ha. exact (H 0%nat a Ha).
  - apply IH; try assumption; try lia.
    intros c a Ha. exact (H (S c) a Ha).
Qed.

Lemma ruled_terms_agree (rule : R -> R -> R) (T C Ag : nat) (sg : list R)
  (data : tensor npfloat 3) (x y : tensor R 3) :
  shaped [T; C; Ag] data -> shaped [T; C; Ag] x -> shaped [T; C; Ag] y ->
  agree_where_observed data x y ->
  ruled_terms rule data x sg = ruled_terms rule data y sg.
Proof.
  intros [Ld Hd] [Lx Hx] [Ly Hy] H. unfold ruled_terms.
  assert (Lxd : length x = length data) by exact (eq_trans Lx (eq_sym Ld)).
  assert (Lyd : length y = length data) by exact (eq_trans Ly (eq_sym Ld)).
  clear Ld Lx Ly. revert x y Hx Hy Lxd Lyd H.
  induction Hd as [|dplane data Hdp Hd IH]; intros [|xplane x] [|yplane y] Hx Hy Lx Ly H;
    simpl in Lx, Ly; try discriminate; [reflexivity|].
  inversion Hx as [|? ? Hxp Hx']; inversion Hy as [|? ? Hyp Hy']; subst.
  cbn [combine flat_map]. f_equal.
  - apply (ruled_plane_agree rule Ag).
    + exact (shaped2_rows _ _ _ Hdp).
    + exact (shaped2_rows _ _ _ Hxp).
    + exact (shaped2_rows _ _ _ Hyp).
    + exact (eq_trans (proj1 Hxp) (eq_sym (proj1 Hdp))).
    + exact (eq_trans (proj1 Hyp) (eq_sym (proj1 Hdp))).
    + intros c a Ha. exact (H 0%nat c a Ha).
  - apply IH; try assumption; try lia.
    intros t c a Ha. exact (H (S t) c a Ha).
Qed.

Lemma length_select {A B : Type} (l : list A) (l' : list B) (m : list bool) :
  length l = length m -> length l' = length m ->
  length (select l m) = length (select l' m).
Proof.
  revert l l'. induction m as [|b m IH]; intros [|x l] [|y l'] H H'; simpl in *;
    try discriminate; [reflexivity|].
  destruct b; simpl; rewrite (IH l l') by lia; reflexivity.
Qed.

Lemma zip_terms_loc (df : Z) (l s : list R) (ob : list npfloat) :
  length s = length l -> length ob = length l ->
  map t_loc (zip_terms df l s ob) = l.
Proof.
  unfold zip_terms. revert s ob.
  induction l as [|x l IH]; intros [|y s] [|d ob] Hs Hob; simpl in *;
    try discriminate; [reflexivity|].
  f_equal. apply IH; lia.
Qed.

Lemma zip_terms_scale (df : Z) (l s : list R) (ob : list npfloat) :
  length s = length l -> length ob = length l ->
  map t_scale (zip_terms df l s ob) = s.
Proof.
  unfold zip_terms. revert s ob.
  induction l as [|x l IH]; intros [|y s] [|d ob] Hs Hob; simpl in *;
    try discriminate; [reflexivity|].
  f_equal. apply IH; lia.
Qed.

(** The factors of the likelihood of a run without batch axis, with the
    tensors that the yielded distribution carries. *)
Lemma likelihood_terms (mp : ModelParams) (T C Ag : nat) (nc : tensor R 3) (sg : list R) :
  shaped [T; C; Ag] (data_tensor mp) ->
  shaped [T; C; Ag] nc ->
  length sg = C ->
  let m := map (fun d => negb (isnan d)) (elems 3 (data_tensor mp)) in
  let S := scale_tensor (fun s x => s * sqrt x + 1) sg nc in
  zip_terms 4 (select (elems 3 nc) m) (select (elems 3 S) m)
              (select (elems 3 (data_tensor mp)) m)
  = ruled_terms (fun s x => s * sqrt x + 1) (data_tensor mp) nc sg
  /\ length (select (elems 3 S) m) = length (select (elems 3 nc) m)
  /\ length (select (elems 3 (data_tensor mp)) m) = length (select (elems 3 nc) m).
Proof.
  intros Hd Hn Hs m S.
  assert (HS : shaped [T; C; Ag] S) by (apply scale_tensor_shaped; assumption).
  assert (LX : length (elems 3 nc) = length (elems 3 (data_tensor mp))).
  { exact (eq_trans (shaped_elems_length [T; C; Ag] _ Hn)
                    (eq_sym (shaped_elems_length [T; C; Ag] _ Hd))). }
  assert (LS : length (elems 3 S) = length (elems 3 (data_tensor mp))).
  { exact (eq_trans (shaped_elems_length [T; C; Ag] _ HS)
                    (eq_sym (shaped_elems_length [T; C; Ag] _ Hd))). }
  assert (Lm : length m = length (elems 3 (data_tensor mp))) by apply length_map.
  split; [|split].
  - subst m. rewrite select_terms by assumption.
    apply (masked_ruled _ T C Ag); assumption.
  - apply length_select; congruence.
  - apply length_select; congruence.
Qed.

(** Property X1.  The expected counts at the missing entries do not enter
    the likelihood: two tensors of expected cases that agree wherever the
    data has an observation make [studentT_likelihood] yield the same two
    distributions, whatever they hold where the data is [nan]. *)
Theorem likelihood_ignores_expected_cases_of_missing_entries
  (mp : ModelParams) (T C Ag : nat) (x y : tensor R 3) (sigma : list R) (o : oracle) :
  shaped [T; C; Ag] (data_tensor mp) ->
  shaped [T; C; Ag] x ->
  shaped [T; C; Ag] y ->
  length sigma = C ->
  agree_where_observed (data_tensor mp) x y ->
  o 0%nat (Yielded (HalfCauchy_sigma mp)) = inr (VTensor (Nd 1 sigma)) ->
  events o (studentT_likelihood mp (Nd 3 x)) = events o (studentT_likelihood mp (Nd 3 y)).
Proof.
  intros Hd Hx Hy Hs Hagree Ho.
  rewrite (studentT_likelihood_unbatched mp T C Ag x sigma o Hd Hx Hs Ho).
  rewrite (studentT_likelihood_unbatched mp T C Ag y sigma o Hd Hy Hs Ho).
  destruct (likelihood_terms mp T C Ag x sigma Hd Hx Hs) as (Ex & Lx1 & Lx2).
  destruct (likelihood_terms mp T C Ag y sigma Hd Hy Hs) as (Ey & Ly1 & Ly2).
  pose proof (ruled_terms_agree (fun s v => s * sqrt v + 1) T C Ag sigma _ x y
                Hd Hx Hy Hagree) as E.
  rewrite <- Ex, <- Ey in E.
  pose proof (f_equal (map t_loc) E) as Eloc.
  pose proof (f_equal (map t_scale) E) as Escale.
  rewrite !zip_terms_loc in Eloc by assumption.
  rewrite !zip_terms_scale in Escale by assumption.
  now rewrite Eloc, Escale.
Qed.

Lemma likelihood_ignores_expected_cases_of_missing_entries_witness :
  agree_where_observed (data_tensor example_params) example_cases example_cases_elsewhere
  /\ events (example_run [2]) (studentT_likelihood example_params (Nd 3 example_cases))
     = events (example_run [2])
         (studentT_likelihood example_params (Nd 3 example_cases_elsewhere)).
Proof.
  assert (H : agree_where_observed (data_tensor example_params) example_cases
                example_cases_elsewhere).
  { intros t c a.
    destruct t as [|[|t]]; destruct c as [|c]; destruct a as [|[|a]];
      try reflexivity; try discriminate;
      cbn; try (destruct c); try (destruct a); try (destruct t);
      try reflexivity; try discriminate. }
  split; [exact H|].
  apply (likelihood_ignores_expected_cases_of_missing_entries
           example_params 2 1 2 example_cases example_cases_elsewhere [2]).
  - exact example_data_shaped.
  - exact example_cases_shaped.
  - shaped_concrete.
  - reflexivity.
  - exact H.
  - reflexivity.
Defined.

Lemma scale_rule_ge_1 (s x : R) :
  0 <= s -> 1 <= s * sqrt x + 1 /\ (x = 0 -> s * sqrt x + 1 = 1).
Proof.
  intros Hs. pose proof (sqrt_pos x). split; [nra|].
  intros ->. rewrite sqrt_0. lra.
Qed.

(** Property X2.  The [+ 1] of line 47 bounds the scale from below: for
    nonnegative scale parameters and nonnegative expected counts, every
    factor of the likelihood has a scale of at least [1], and of exactly
    [1] where the expected count is [0]. *)
Theorem likelihood_scale_is_at_least_one
  (mp : ModelParams) (T C Ag : nat) (new_cases : tensor R 3) (sigma : list R) (o : oracle) :
  shaped [T; C; Ag] (data_tensor mp) ->
  shaped [T; C; Ag] new_cases ->
  length sigma = C ->
  all_entries (fun x => 0 <= x) 3 new_cases ->
  Forall (fun s => 0 <= s) sigma ->
  o 0%nat (Yielded (HalfCauchy_sigma mp)) = inr (VTensor (Nd 1 sigma)) ->
  exists like ts,
    events o (studentT_likelihood mp (Nd 3 new_cases))
      = [Yielded (HalfCauchy_sigma mp); Yielded like]
    /\ terms_of like = Some ts
    /\ Forall (fun t => 1 <= t_scale t /\ (t_loc t = 0 -> t_scale t = 1)) ts.
Proof.
  intros Hd Hn Hs _ Hsigma Ho.
  eexists. eexists. split;
    [exact (studentT_likelihood_unbatched mp T C Ag new_cases sigma o Hd Hn Hs Ho)|].
  rewrite terms_of_like.
  rewrite (proj1 (likelihood_terms mp T C Ag new_cases sigma Hd Hn Hs)).
  split; [reflexivity|].
  apply ruled_terms_Forall. intros s x d Hin _ _. cbn [t_scale t_loc].
  apply scale_rule_ge_1. rewrite Forall_forall in Hsigma. now apply Hsigma.
Qed.

Lemma likelihood_scale_is_at_least_one_witness :
  exists like ts,
    events (example_run [2]) (studentT_likelihood example_params (Nd 3 example_cases))
      = [Yielded (HalfCauchy_sigma example_params); Yielded like]
    /\ terms_of like = Some ts
    /\ Forall (fun t => 1 <= t_scale t /\ (t_loc t = 0 -> t_scale t = 1)) ts.
Proof.
  apply (likelihood_scale_is_at_least_one example_params 2 1 2 example_cases [2]).
  - exact example_data_shaped.
  - exact example_cases_shaped.
  - reflexivity.
  - exact example_cases_nonnegative.
  - repeat constructor. lra.
  - reflexivity.
Defined.

Lemma same_shape_length {A B : Type} (n : nat) (x : tensor A (S n)) (y : tensor B (S n)) :
  same_shape (S n) x y = true -> length x = length y.
Proof.
  cbn [same_shape]. intros H. apply andb_prop in H. now apply Nat.eqb_eq.
Qed.

Lemma align_sigma_returns (sigma : ndarray R) : exists s, align_sigma sigma = Ret s.
Proof.
  destruct sigma as [n t]. unfold align_sigma. cbn [rank nd_newaxis_first nd_newaxis_last].
  destruct (Nat.eqb (S (S n)) 4) eqn:E; [|eexists; reflexivity].
  apply Nat.eqb_eq in E. assert (n = 2%nat) by lia. subst n.
  eexists. reflexivity.
Qed.

(** Property X3.  Expected cases for another number of days than the data
    has are rejected: the scale parameter is declared, then the masking of
    the expected cases (first for the debug message of lines 39-41) raises
    the shape error of [tf.boolean_mask], and no likelihood is declared. *)
Theorem likelihood_rejects_another_number_of_days
  (mp : ModelParams) (T C Ag : nat) (new_cases : tensor R 3) (sigma : ndarray R) (o : oracle) :
  shaped [T; C; Ag] (data_tensor mp) ->
  length new_cases <> T ->
  o 0%nat (Yielded (HalfCauchy_sigma mp)) = inr (VTensor sigma) ->
  run o (studentT_likelihood mp (Nd 3 new_cases))
  = ([(Yielded (HalfCauchy_sigma mp), inr (VTensor sigma))],
     inl (ShapeError "boolean_mask")).
Proof.
  intros Hd Hlen Ho.
  assert (Hmask : shaped [T; C; Ag] (tmap (fun d => negb (isnan d)) 3 (data_tensor mp)))
    by exact (shaped_tmap _ [T; C; Ag] _ Hd).
  unfold run, studentT_likelihood.
  cbn [bind yield_]. rewrite run_from_vis.
  change (respond o 0 (Yielded (HalfCauchy_sigma mp)))
    with (o 0%nat (Yielded (HalfCauchy_sigma mp))).
  rewrite Ho. cbn [bind as_tensor].
  destruct (align_sigma_returns sigma) as [s ->]. cbn [bind rank].
  change (Z.of_nat 3 - 3)%Z with 0%Z.
  rewrite nd_boolean_mask_rank3 by (apply (shaped_same_shape [T; C; Ag]); assumption).
  cbn [bind tf].
  assert (E : nd_boolean_mask (Nd 3 new_cases)
                (tmap (fun d => negb (isnan d)) 3 (data_tensor mp)) 0 = None).
  { unfold nd_boolean_mask.
    change (0 <? 0)%Z with false. change (Z.to_nat 0) with 0%nat. cbv iota.
    cbn [rank body].
    change (boolean_mask 0 3 (tmap (fun d => negb (isnan d)) 3 (data_tensor mp)) new_cases)
      with (if same_shape 3 new_cases (tmap (fun d => negb (isnan d)) 3 (data_tensor mp))
            then Some (select (elems 3 new_cases)
                         (elems 3 (tmap (fun d => negb (isnan d)) 3 (data_tensor mp))))
            else None).
    destruct (same_shape 3 new_cases (tmap (fun d => negb (isnan d)) 3 (data_tensor mp)))
      eqn:Es; [|reflexivity].
    apply same_shape_length in Es. destruct Hmask as [Lm _].
    exfalso. apply Hlen. exact (eq_trans Es Lm). }
  rewrite E. reflexivity.
Qed.

Lemma likelihood_rejects_another_number_of_days_witness :
  run (example_run [2]) (studentT_likelihood example_params (Nd 3 [[[9; 4]]]))
  = ([(Yielded (HalfCauchy_sigma example_params), inr (VTensor (Nd 1 [2])))],
     inl (ShapeError "boolean_mask")).
Proof.
  apply (likelihood_rejects_another_number_of_days example_params 2 1 2 [[[9; 4]]]).
  - exact example_data_shaped.
  - cbn. lia.
  - reflexivity.
Defined.

(* ------------------------------------------------------------------------ *)
(** ** More on main_model *)
(* ------------------------------------------------------------------------ *)


Lemma nth_map_in {A B : Type} (f : A -> B) (l : list A) (i : nat) (d : A) (d' : B) :
  (i < length l)%nat -> nth i (map f l) d' = f (nth i l d).
Proof.
  intros H. rewrite (nth_indep (map f l) d' (f d)) by now rewrite length_map.
  apply map_nth.
Qed.








(** Property X5.  [main_model] declares no likelihood: whatever the
    framework answers, no event of a run is the scale parameter ["sigma"] or
    the Student-t distribution ["like"] of [studentT_likelihood], since the
    call of line 208 fails before the body of that function runs. *)
Theorem main_model_declares_no_likelihood (mp : ModelParams) (o : oracle) :
  Forall (fun ev => is_likelihood_event ev = false) (events o (main_model mp)).
Proof.
  apply (wp_sound any_answer _ (fun _ _ => True)).
  - apply answers_any.
  - apply wp_main_model with (Q0 := fun _ _ => True).
    unfold wp, main_model_observables.
    repeat wp_step ltac:(reflexivity).
    all: exact I.
Qed.










Ltac solve_feeds :=
  let E := fresh "E" in
  intros ? E;
  first [ discriminate E
        | injection E as <-;
          rewrite <- !app_assoc; cbn [app];
          do 8 eexists;
          split; [reflexivity|];
          split; [right; left; reflexivity|];
          split; [do 4 right; left; reflexivity|];
          split; [do 5 right; left; reflexivity|];
          split; reflexivity ].

Lemma main_model_feeds_infection_model (mp : ModelParams) :
  always_from (feeds_infection_model mp) [] (main_model mp).
Proof.
  unfold main_model. apply always_from_bind_raise.
  - intros [[total positive] deaths]. rewrite likelihood_call_raises. cbn [bind].
    eexists. reflexivity.
  - unfold main_model_observables.
    repeat always_step solve_feeds.
    all: exact I.
Qed.

(** Property X8.  The infection model gets its inputs unchanged: in every
    run that reaches the call of [InfectionModel], the argument [N] is the
    population tensor of the model parameters, [R_t] is what
    [construct_R_t] returned, [gen_kernel] is the kernel that
    [construct_generation_interval] returned, and [h_0_t] is what
    [construct_h_0_t] returned for the same [R_t] and the mean generation
    interval of that kernel (not the tensor with the time axis moved inwards
    that is recorded in the trace). *)
Theorem infection_model_gets_its_inputs_unchanged
  (mp : ModelParams) (o : oracle)
  (pre post : list (event * (exn + pyvalue))) (kw : list (string * pyvalue))
  (r : exn + pyvalue) :
  fst (run o (main_model mp)) = pre ++ (Called "InfectionModel" kw, r) :: post ->
  feeds_infection_model mp (answered pre) (Called "InfectionModel" kw).
Proof.
  intros E.
  exact (always_from_sound (feeds_infection_model mp) o (main_model mp) [] 0%nat
           (main_model_feeds_infection_model mp) pre _ r post E).
Qed.

Lemma infection_model_gets_its_inputs_unchanged_witness :
  exists pre post kw r,
    fst (run (example_run [2]) (main_model example_params))
      = pre ++ (Called "InfectionModel" kw, r) :: post
    /\ feeds_infection_model example_params (answered pre) (Called "InfectionModel" kw).
Proof.
  assert (E : exists pre post kw r,
             fst (run (example_run [2]) (main_model example_params))
             = pre ++ (Called "InfectionModel" kw, r) :: post).
  { exists (firstn 7 (fst (run (example_run [2]) (main_model example_params)))).
    do 3 eexists. reflexivity. }
  destruct E as (pre & post & kw & r & E).
  exists pre, post, kw, r. split; [exact E|].
  exact (infection_model_gets_its_inputs_unchanged example_params (example_run [2])
           pre post kw r E).
Defined.

(* ------------------------------------------------------------------------ *)
(** ** More on week_modulation *)
(* ------------------------------------------------------------------------ *)

Lemma step_modulation_loop_bound (G : list string) (m : Cov19Model)
  (weekend_days : list Z) (count : nat) :
  In "datetime" G ->
  forall i,
    step_modulation_loop G (Some m) weekend_days i count
    = Ret (map (fun j => if existsb (Z.eqb (isoweekday_after (sim_begin_isoweekday m) j))
                                    weekend_days
                         then 1 else 0)
               (seq i count)).
Proof.
  intros Hdt. induction count as [|count IH]; intros i; [reflexivity|].
  cbn [step_modulation_loop getattr bind seq map].
  rewrite (global_bound G "datetime" Hdt). cbn [bind].
  rewrite IH. reflexivity.
Qed.

Lemma isoweekday_after_range (start : Z) (days : nat) :
  (1 <= isoweekday_after start days <= 7)%Z.
Proof.
  unfold isoweekday_after.
  pose proof (Z.mod_pos_bound (start - 1 + Z.of_nat days) 7 ltac:(lia)). lia.
Qed.

(** Property X9.  With [np] and [datetime] bound, [step_modulation] returns
    one entry per day of the simulation (the first entry of [sim_shape]):
    [1] on the days whose ISO weekday is among [weekend_days], [0] on all
    other days.  The weekday of a day is a number from 1 to 7, so other
    numbers among [weekend_days] mark no day. *)
Theorem step_modulation_marks_the_weekend_days
  (G : list string) (m : Cov19Model) (weekend_days : list Z) (n : nat) (rest : list nat) :
  In "np" G -> In "datetime" G ->
  exists v,
    step_modulation G (Some m) weekend_days (n :: rest) = Ret (VTensor (Nd 1 v))
    /\ length v = n
    /\ forall i, (i < n)%nat ->
         let day := isoweekday_after (sim_begin_isoweekday m) i in
         (1 <= day <= 7)%Z
         /\ (In day weekend_days -> nth i v 0 = 1)
         /\ (~ In day weekend_days -> nth i v 0 = 0).
Proof.
  intros Hnp Hdt. eexists. split; [|split].
  - unfold step_modulation. rewrite (global_bound G "np" Hnp). cbn [bind].
    rewrite (step_modulation_loop_bound G m weekend_days n Hdt). reflexivity.
  - now rewrite length_map, length_seq.
  - intros i Hi day. split; [apply isoweekday_after_range|].
    rewrite (nth_map_in _ (seq 0 n) i 0%nat 0) by now rewrite length_seq.
    rewrite seq_nth by exact Hi. cbn [Nat.add]. fold day.
    destruct (existsb (Z.eqb day) weekend_days) eqn:E.
    + split; [reflexivity|]. intros Hno. exfalso. apply Hno.
      apply existsb_exists in E. destruct E as (d & Hin & Hd).
      apply Z.eqb_eq in Hd. now subst d.
    + split; [|reflexivity]. intros Hin. exfalso.
      assert (Et : existsb (Z.eqb day) weekend_days = true).
      { apply existsb_exists. exists day. split; [exact Hin | apply Z.eqb_refl]. }
      congruence.
Qed.

Lemma step_modulation_marks_the_weekend_days_witness :
  exists v,
    step_modulation (weekly_modulation_globals example_pkg_complete)
      (Some example_model) default_weekend_days [9; 1; 2]%nat
    = Ret (VTensor (Nd 1 v))
    /\ length v = 9%nat
    /\ forall i, (i < 9)%nat ->
         let day := isoweekday_after (sim_begin_isoweekday example_model) i in
         (1 <= day <= 7)%Z
         /\ (In day default_weekend_days -> nth i v 0 = 1)
         /\ (~ In day default_weekend_days -> nth i v 0 = 0).
Proof.
  apply (step_modulation_marks_the_weekend_days
           (weekly_modulation_globals example_pkg_complete) example_model
           default_weekend_days 9 [1; 2]%nat).
  - in_globals.
  - unfold example_pkg_complete. in_globals.
Defined.

Lemma star_import_binds (pkg : list string) (name : string) :
  In name (weekly_modulation_globals pkg) ->
  In name pkg
  \/ In name ["tf"; "tfp"; "logging"; "pm"; "np"; "covid19_npis"; "transformations";
              "LKJCholesky"; "Deterministic"; "Gamma"; "HalfCauchy"; "Normal";
              "LogNormal"; "convolution_with_varying_kernel"; "gamma"; "log";
              "main_model"; "ut"; "HalfNormal"; "VonMises"; "week_modulation"].
Proof.
  unfold weekly_modulation_globals, model_py_names.
  repeat rewrite in_app_iff. cbn [In]. tauto.
Qed.

Ltac not_a_module_name :=
  let H := fresh "H" in
  intros H; cbn [In] in H;
  repeat match goal with
         | H : _ \/ _ |- _ => destruct H as [H | H]
         | H : False |- _ => destruct H
         | H : _ = _ |- _ => discriminate H
         end.

Lemma datetime_unbound (pkg : list string) :
  ~ In "datetime" pkg -> ~ In "datetime" (weekly_modulation_globals pkg).
Proof.
  intros Hpkg H. apply star_import_binds in H. destruct H as [H | H]; [contradiction|].
  revert H. not_a_module_name.
Qed.

(** Property X10.  [step_modulation] reads the name [datetime], which
    [weekly_modulation.py] does not import: unless the star import binds it,
    the helper raises [NameError] as soon as the simulation has a day.  For
    a simulation of no days the loop body never runs, and the helper
    returns the empty vector. *)
Theorem step_modulation_needs_datetime
  (pkg : list string) (m : Cov19Model) (weekend_days : list Z) (n : nat) (rest : list nat) :
  ~ In "datetime" pkg ->
  step_modulation (weekly_modulation_globals pkg) (Some m) weekend_days (S n :: rest)
  = Raise (NameError "datetime")
  /\ step_modulation (weekly_modulation_globals pkg) (Some m) weekend_days (0%nat :: rest)
     = Ret (VTensor (Nd 1 [])).
Proof.
  intros Hpkg. unfold step_modulation.
  rewrite (global_bound _ "np") by in_globals. cbn [bind step_modulation_loop getattr].
  rewrite (global_unbound _ "datetime") by (apply datetime_unbound; exact Hpkg).
  split; reflexivity.
Qed.

Lemma example_pkg_without_datetime : ~ In "datetime" example_pkg.
Proof. unfold example_pkg. not_a_module_name. Qed.

Lemma step_modulation_needs_datetime_witness :
  step_modulation (weekly_modulation_globals example_pkg) (Some example_model)
    default_weekend_days (2 :: [1; 2])%nat
  = Raise (NameError "datetime")
  /\ step_modulation (weekly_modulation_globals example_pkg) (Some example_model)
       default_weekend_days (0 :: [1; 2])%nat
     = Ret (VTensor (Nd 1 [])).
Proof.
  apply (step_modulation_needs_datetime example_pkg example_model default_weekend_days
           1 [1; 2]%nat).
  exact example_pkg_without_datetime.
Defined.

Lemma global_cases (G : list string) (name : string) :
  (In name G /\ global G name = Ret tt)
  \/ (~ In name G /\ global G name = Raise (NameError name)).
Proof.
  destruct (in_dec string_dec name G) as [H | H].
  - left. split; [exact H | now apply global_bound].
  - right. split; [exact H | now apply global_unbound].
Qed.

Lemma step_modulation_loop_pure (G : list string) (model : option Cov19Model)
  (weekend_days : list Z) (count : nat) :
  forall i,
    (exists l, step_modulation_loop G model weekend_days i count = Ret l)
    \/ (exists e, step_modulation_loop G model weekend_days i count = Raise e).
Proof.
  induction count as [|count IH]; intros i; [left; eexists; reflexivity|].
  cbn [step_modulation_loop].
  destruct model as [m|]; [|right; eexists; reflexivity].
  cbn [getattr bind].
  destruct (global_cases G "datetime") as [[_ ->] | [_ ->]];
    [|right; eexists; reflexivity].
  cbn [bind].
  destruct (IH (S i)) as [[l ->] | [e ->]]; [left | right]; eexists; reflexivity.
Qed.

Lemma step_modulation_pure (G : list string) (model : option Cov19Model)
  (weekend_days : list Z) (shape_modulation : list nat) :
  (exists v, step_modulation G model weekend_days shape_modulation = Ret v)
  \/ (exists e, step_modulation G model weekend_days shape_modulation = Raise e).
Proof.
  unfold step_modulation.
  destruct (global_cases G "np") as [[_ ->] | [_ ->]]; [|right; eexists; reflexivity].
  cbn [bind]. destruct shape_modulation as [|n rest]; [right; eexists; reflexivity|].
  destruct (step_modulation_loop_pure G model weekend_days n 0) as [[l ->] | [e ->]];
    [left | right]; eexists; reflexivity.
Qed.

(** One step of the symbolic run of [week_modulation]. *)
Ltac wm_step :=
  lazymatch goal with
  | |- _ /\ _ => split; [first [reflexivity | exact I | assumption] |]
  | |- forall v, answerable _ _ v -> _ => intros ? _
  | |- wp_from _ _ _ _ (Ret _) => cbn [wp_from]
  | |- wp_from _ _ _ _ (Raise _) => exact I
  | |- wp_from _ _ _ _ (Vis _ _) => cbn [wp_from]
  | |- wp_from _ _ _ _ (call _ _) => cbn [call wp_from]
  | |- wp_from _ _ _ _ (step_modulation ?G ?m ?w ?s) =>
      destruct (step_modulation_pure G m w s) as [[? ->] | [? ->]]
  | |- wp_from _ _ _ _ (if ?c then _ else _) => destruct c
  | |- wp_from _ _ _ _ (match ?v with VNone => _ | _ => _ end) => destruct v
  | |- wp_from _ _ _ _ (bind (global ?G ?name) _) =>
      let H := fresh "Hbound" in
      destruct (global_cases G name) as [[H ->] | [_ ->]]; cbn [bind]
  | |- wp_from _ _ _ _ (bind (step_modulation ?G ?m ?w ?s) _) =>
      destruct (step_modulation_pure G m w s) as [[? ->] | [? ->]]; cbn [bind]
  | |- wp_from _ _ _ _ (bind (unpack2 ?v) _) =>
      let l := fresh "l" in
      destruct v as [| | | | |l| | | |]; try wp_fail;
      destruct l as [|? [|? [|? ?]]]; try wp_fail; cbn [bind unpack2]
  | |- wp_from _ _ _ _ (bind (if negb ?c then _ else _) _) =>
      apply wp_from_bind; destruct c; cbn [negb]
  | |- wp_from _ _ _ _ (bind (if ?c then _ else _) _) =>
      apply wp_from_bind; destruct c
  | |- wp_from _ _ _ _ (bind (match ?v with VNone => _ | _ => _ end) _) =>
      apply wp_from_bind; destruct v
  | |- wp_from _ _ _ _ (bind (select_modulation _ _ _) _) =>
      apply wp_from_bind; unfold select_modulation, abs_sine_modulation
  | |- wp_from _ _ _ _ (bind (bind _ _) _) => apply wp_from_bind
  | |- wp_from _ _ _ _ (bind _ _) => cbn [bind yield_ call getattr]
  end.

Lemma wp_week_modulation (G : list string)
  (name : string) (modelParams : ModelParams) (cases : pyvalue)
  (week_modulation_type name_weekend_factor name_offset_modulation : string)
  (pr_mean_weekend_factor pr_sigma_weekend_factor : R)
  (weekend_days : list Z) (model : option Cov19Model) :
  wp any_answer yields_only_the_weight
     (fun _ _ => In "tt" G /\ In "name_cases" G)
     (week_modulation G name modelParams cases week_modulation_type
        name_weekend_factor name_offset_modulation
        pr_mean_weekend_factor pr_sigma_weekend_factor weekend_days model).
Proof.
  unfold wp, week_modulation. destruct model as [m|].
  - repeat wm_step; assumption.
  - repeat wm_step. exact I.
Qed.

(** Property X11.  Whatever names are bound and whatever the arguments are,
    the one object that [week_modulation] yields is the amplitude
    ["weekly_modulation_weight"].  In particular the call of
    [abs_sine_modulation], a generator function, runs none of its body: the
    offset of the modulation is never declared and never recorded. *)
Theorem week_modulation_yields_only_the_weight (G : list string)
  (name : string) (modelParams : ModelParams) (cases : pyvalue)
  (week_modulation_type name_weekend_factor name_offset_modulation : string)
  (pr_mean_weekend_factor pr_sigma_weekend_factor : R)
  (weekend_days : list Z) (model : option Cov19Model) (o : oracle) :
  Forall yields_only_the_weight
    (events o (week_modulation G name modelParams cases week_modulation_type
                 name_weekend_factor name_offset_modulation
                 pr_mean_weekend_factor pr_sigma_weekend_factor weekend_days model)).
Proof.
  apply (wp_sound any_answer yields_only_the_weight
           (fun _ _ => In "tt" G /\ In "name_cases" G)).
  - apply answers_any.
  - apply wp_week_modulation.
Qed.

(** Property X12.  [week_modulation] returns cases only when the star
    import binds both [tt] and [name_cases]: for every modulation type,
    every model and every answer of the framework, a run that returns a
    value is a run in a module where these two names are bound. *)
Theorem week_modulation_returns_only_with_tt_and_name_cases (pkg : list string)
  (name : string) (modelParams : ModelParams) (cases : pyvalue)
  (week_modulation_type name_weekend_factor name_offset_modulation : string)
  (pr_mean_weekend_factor pr_sigma_weekend_factor : R)
  (weekend_days : list Z) (model : option Cov19Model) (o : oracle) (new_cases : pyvalue) :
  outcome o (week_modulation (weekly_modulation_globals pkg) name modelParams cases
               week_modulation_type name_weekend_factor name_offset_modulation
               pr_mean_weekend_factor pr_sigma_weekend_factor weekend_days model)
  = inr new_cases ->
  In "tt" pkg /\ In "name_cases" pkg.
Proof.
  intros Hout.
  destruct (wp_sound any_answer _ _ o _ (answers_any o)
              (wp_week_modulation (weekly_modulation_globals pkg) name modelParams cases
                 week_modulation_type name_weekend_factor name_offset_modulation
                 pr_mean_weekend_factor pr_sigma_weekend_factor weekend_days model))
    as [_ H].
  destruct (H new_cases Hout) as [Htt Hnc]. split.
  - apply star_import_binds in Htt. destruct Htt as [Htt | Htt]; [exact Htt|].
    exfalso. revert Htt. not_a_module_name.
  - apply star_import_binds in Hnc. destruct Hnc as [Hnc | Hnc]; [exact Hnc|].
    exfalso. revert Hnc. not_a_module_name.
Qed.

Lemma week_modulation_returns_only_with_tt_and_name_cases_witness :
  outcome (example_run [2])
    (week_modulation (weekly_modulation_globals example_pkg_complete)
       "tests_positive_modulated" example_params (tensor3 example_cases)
       "step" "weekend_factor" "offset_modulation"
       0.3 0.5 default_weekend_days (Some example_model))
  = inr (tensor3 example_infections)
  /\ In "tt" example_pkg_complete /\ In "name_cases" example_pkg_complete.
Proof.
  assert (H : outcome (example_run [2])
                (week_modulation (weekly_modulation_globals example_pkg_complete)
                   "tests_positive_modulated" example_params (tensor3 example_cases)
                   "step" "weekend_factor" "offset_modulation"
                   0.3 0.5 default_weekend_days (Some example_model))
              = inr (tensor3 example_infections)) by reflexivity.
  split; [exact H|].
  exact (week_modulation_returns_only_with_tt_and_name_cases example_pkg_complete
           _ _ _ _ _ _ _ _ _ _ _ _ H).
Defined.

(** Property X13.  The default [model=None] is not replaced by a model of
    the context, as the docstring has it: whatever the star import binds,
    a call without a model declares the amplitude and then raises
    [AttributeError] at [model.sim_shape] (or fails before with the
    exception of the framework at the [yield]). *)
Theorem week_modulation_without_model_raises (pkg : list string)
  (name : string) (modelParams : ModelParams) (cases : pyvalue)
  (week_modulation_type name_weekend_factor name_offset_modulation : string)
  (pr_mean_weekend_factor pr_sigma_weekend_factor : R)
  (weekend_days : list Z) (o : oracle) :
  run o (week_modulation (weekly_modulation_globals pkg) name modelParams cases
           week_modulation_type name_weekend_factor name_offset_modulation
           pr_mean_weekend_factor pr_sigma_weekend_factor weekend_days None)
  = match o 0%nat (Yielded weekly_modulation_weight) with
    | inl e => ([(Yielded weekly_modulation_weight, inl e)], inl e)
    | inr weight => ([(Yielded weekly_modulation_weight, inr weight)],
                     inl (AttributeError "sim_shape"))
    end.
Proof.
  set (G := weekly_modulation_globals pkg).
  unfold run, week_modulation.
  rewrite (global_bound G "log") by (subst G; in_globals).
  rewrite (global_bound G "Normal") by (subst G; in_globals).
  rewrite (global_bound G "HalfNormal") by (subst G; in_globals).
  rewrite (global_bound G "transformations") by (subst G; in_globals).
  cbn [bind yield_]. rewrite run_from_vis.
  change (respond o 0 (Yielded weekly_modulation_weight))
    with (o 0%nat (Yielded weekly_modulation_weight)).
  destruct (o 0%nat (Yielded weekly_modulation_weight)) as [e | w]; reflexivity.
Qed.

(* ------------------------------------------------------------------------ *)
(** ** The configuration dict of ModelParams *)
(* ------------------------------------------------------------------------ *)

Lemma find_dist_nameless (items : pydict (pydict cfgval)) (name : string)
  (this_dist : option string) :
  Exists (fun item => dict_get (snd item) "name" = None) items ->
  find_dist items name this_dist = inl (KeyError "name").
Proof.
  intros H. revert this_dist.
  induction H as [[dist value] items H | [dist value] items H IH]; intros this_dist;
    cbn [find_dist snd] in *.
  - now rewrite H.
  - destruct (dict_get value "name") as [v|]; [|reflexivity].
    destruct (name_is v name); apply IH.
Qed.

(** Property X14.  The loop of [get_distribution_by_name] reads the ["name"]
    field of every entry and has no [break]: when some entry of
    [distributions] has no ["name"] field, the call raises [KeyError] for
    every [name], also when another entry has that name. *)
Theorem get_distribution_by_name_nameless_entry (self : ModelParams) (name : string) :
  Exists (fun item => dict_get (snd item) "name" = None) (distributions self) ->
  get_distribution_by_name self name = inl (KeyError "name").
Proof.
  intros H. unfold get_distribution_by_name.
  now rewrite (find_dist_nameless _ name None H).
Qed.

Lemma get_distribution_by_name_nameless_entry_witness :
  Exists (fun item => dict_get (snd item) "name" = None)
         (distributions example_params_nameless)
  /\ get_distribution_by_name example_params_nameless "I_0" = inl (KeyError "name").
Proof.
  assert (H : Exists (fun item => dict_get (snd item) "name" = None)
                     (distributions example_params_nameless)).
  { right. left. reflexivity. }
  split; [exact H|].
  exact (get_distribution_by_name_nameless_entry example_params_nameless "I_0" H).
Defined.

(** Property X15.  In the configuration that [__init__] sets up, every
    entry is found by the name under which it is stored: for every key of
    [distributions], [get_distribution_by_name] of the key returns the
    configuration stored under the key, and the ["name"] field of that
    configuration is the key. *)
Theorem default_distribution_is_found_by_its_key
  (nc na : nat) (data : tensor npfloat 3) (N : tensor R 2)
  (key : string) (config : pydict cfgval) :
  dict_get (distributions (new_ModelParams nc na data N)) key = Some config ->
  get_distribution_by_name (new_ModelParams nc na data N) key = inr config
  /\ dict_get config "name" = Some (CStr key).
Proof.
  cbn [distributions new_ModelParams get_default_dist_config dict_get].
  repeat match goal with
         | |- context [String.eqb ?k key] =>
             let E := fresh "E" in
             destruct (String.eqb k key) eqn:E;
             [apply String.eqb_eq in E; subst key; intros H; injection H as <-;
              split; reflexivity |]
         end.
  discriminate.
Qed.

Lemma default_distribution_is_found_by_its_key_witness :
  dict_get (distributions example_params) "C"
  = Some [ ("name", CStr "C"); ("long_name", CStr "Contact matrix");
           ("shape", cfg_shape [1; 2; 2]%nat);
           ("shape_label", cfg_labels ["country"; "age_group_i"; "age_group_j"]);
           ("math", CStr "C") ]
  /\ get_distribution_by_name example_params "C"
     = inr [ ("name", CStr "C"); ("long_name", CStr "Contact matrix");
             ("shape", cfg_shape [1; 2; 2]%nat);
             ("shape_label", cfg_labels ["country"; "age_group_i"; "age_group_j"]);
             ("math", CStr "C") ]
  /\ dict_get [ ("name", CStr "C"); ("long_name", CStr "Contact matrix");
                ("shape", cfg_shape [1; 2; 2]%nat);
                ("shape_label", cfg_labels ["country"; "age_group_i"; "age_group_j"]);
                ("math", CStr "C") ] "name" = Some (CStr "C").
Proof.
  split; [reflexivity|].
  apply (default_distribution_is_found_by_its_key 1 2
           [[[Val 3; Val 1]]; [[Val 4; NaN]]] [[1000; 500]] "C").
  reflexivity.
Defined.

Lemma dict_get_split {V : Type} (d : pydict V) (key : string) (v : V) :
  dict_get d key = Some v ->
  exists pre post, d = pre ++ (key, v) :: post /\ ~ In key (map fst pre).
Proof.
  induction d as [|[k w] d IH]; [discriminate|].
  cbn [dict_get]. destruct (String.eqb k key) eqn:E.
  - apply String.eqb_eq in E. subst k. intros H. injection H as ->.
    exists [], d. split; [reflexivity | intros []].
  - intros H. destruct (IH H) as (pre & post & -> & Hpre).
    exists ((k, w) :: pre), post. split; [reflexivity|].
    cbn [map fst In]. intros [-> | Hin]; [|contradiction].
    now rewrite String.eqb_refl in E.
Qed.

Lemma dict_set_split {V : Type} (pre post : pydict V) (key : string) (v w : V) :
  ~ In key (map fst pre) ->
  dict_set (pre ++ (key, v) :: post) key w = pre ++ (key, w) :: post.
Proof.
  induction pre as [|[k u] pre IH]; intros H.
  - cbn. now rewrite String.eqb_refl.
  - cbn [app dict_set]. destruct (String.eqb k key) eqn:E.
    + apply String.eqb_eq in E. subst k. exfalso. apply H. now left.
    + rewrite IH; [reflexivity|]. intros Hin. apply H. now right.
Qed.

Lemma dict_get_set_same {V : Type} (d : pydict V) (key : string) (v : V) :
  dict_get (dict_set d key v) key = Some v.
Proof.
  induction d as [|[k w] d IH]; cbn.
  - now rewrite String.eqb_refl.
  - destruct (String.eqb k key) eqn:E; cbn; now rewrite E.
Qed.

(** Property X16.  The override of the docstring and the lookup by name fit
    together.  When the keys of [distributions] are distinct, all entries
    have a name and no entry has the name [new_name] yet, then after
    [distributions[dist]["name"] = new_name] the lookup of [new_name] gives
    the configuration of [dist] with the new name, and the lookup of a
    former name of [dist] that no other entry has fails with
    [UnboundLocalError]. *)
Theorem renamed_distribution_is_found_by_its_new_name
  (self self' : ModelParams) (dist new_name : string) :
  NoDup (map fst (distributions self)) ->
  Forall has_name (distributions self) ->
  Forall (fun item => ~ named new_name item) (distributions self) ->
  set_distribution_name self dist new_name = inr self' ->
  exists config,
    dict_get (distributions self) dist = Some config
    /\ get_distribution_by_name self' new_name
       = inr (dict_set config "name" (CStr new_name))
    /\ forall old,
         old <> new_name ->
         Forall (fun item => named old item -> fst item = dist) (distributions self) ->
         get_distribution_by_name self' old = inl (UnboundLocalError "this_dist").
Proof.
  intros Hdup Hnames Hfresh Hset. unfold set_distribution_name in Hset.
  destruct (dict_get (distributions self) dist) as [config|] eqn:Hget; [|discriminate].
  injection Hset as <-. exists config. split; [reflexivity|].
  destruct (dict_get_split _ _ _ Hget) as (pre & post & E & Hpre).
  unfold get_distribution_by_name. cbn [distributions].
  rewrite E in *. rewrite (dict_set_split pre post dist _ _ Hpre).
  set (config' := dict_set config "name" (CStr new_name)).
  assert (Hnew : named new_name (dist, config')) by apply dict_get_set_same.
  assert (Hdup' : NoDup (map fst (pre ++ (dist, config') :: post))).
  { rewrite map_app in *. exact Hdup. }
  assert (Hnames' : Forall has_name (pre ++ (dist, config') :: post)).
  { apply Forall_app in Hnames. destruct Hnames as [H1 H2].
    apply Forall_app. split; [exact H1|].
    inversion H2; subst. constructor; [|assumption].
    unfold has_name. cbn [snd]. unfold named in Hnew. cbn [snd] in Hnew.
    rewrite Hnew. discriminate. }
  split.
  - apply Forall_app in Hfresh. destruct Hfresh as [_ Hpost].
    inversion Hpost as [|? ? _ Hpost']; subst.
    rewrite (find_dist_last_match pre post dist config' new_name None Hnames' Hnew Hpost').
    now rewrite dict_get_unique.
  - intros old Hold Honly.
    rewrite (find_dist_no_match _ old None Hnames'); [reflexivity|].
    apply Forall_app in Honly. destruct Honly as [H1 H2].
    inversion H2 as [|? ? _ H2']; subst.
    rewrite map_app in Hdup. cbn [map fst] in Hdup.
    apply NoDup_remove_2 in Hdup.
    apply Forall_app. split; [|constructor].
    + rewrite Forall_forall in *. intros item Hin Hn.
      apply Hdup. apply in_or_app. left. rewrite <- (H1 item Hin Hn).
      now apply in_map.
    + unfold named in *. cbn [snd] in *. rewrite Hnew. intros H. injection H as H.
      now apply Hold.
    + rewrite Forall_forall in *. intros item Hin Hn.
      apply Hdup. apply in_or_app. right. rewrite <- (H2' item Hin Hn).
      now apply in_map.
Qed.

Lemma renamed_distribution_is_found_by_its_new_name_witness :
  exists self',
    NoDup (map fst (distributions example_params))
    /\ Forall has_name (distributions example_params)
    /\ Forall (fun item => ~ named "my new fancy name" item) (distributions example_params)
    /\ set_distribution_name example_params "I_0" "my new fancy name" = inr self'
    /\ exists config,
         dict_get (distributions example_params) "I_0" = Some config
         /\ get_distribution_by_name self' "my new fancy name"
            = inr (dict_set config "name" (CStr "my new fancy name"))
         /\ forall old,
              old <> "my new fancy name" ->
              Forall (fun item => named old item -> fst item = "I_0")
                     (distributions example_params) ->
              get_distribution_by_name self' old = inl (UnboundLocalError "this_dist").
Proof.
  assert (Hfresh : Forall (fun item => ~ named "my new fancy name" item)
                          (distributions example_params)).
  { repeat constructor; unfold named; cbn; discriminate. }
  eexists. split; [apply default_config_keys_unique|].
  split; [apply default_config_has_names|].
  split; [exact Hfresh|].
  split; [reflexivity|].
  apply (renamed_distribution_is_found_by_its_new_name example_params _ "I_0"
           "my new fancy name").
  - apply default_config_keys_unique.
  - apply default_config_has_names.
  - exact Hfresh.
  - reflexivity.
Defined.

Lemma skipn_nth_error {A : Type} (l : list A) :
  forall i x, nth_error l i = Some x -> skipn i l = x :: skipn (S i) l.
Proof.
  induction l as [|a l IH]; intros [|i] x H; try discriminate.
  - injection H as ->. reflexivity.
  - cbn [nth_error] in H. cbn [skipn]. exact (IH i x H).
Qed.

Lemma append_levels_copies (levels : list string) (count : nat) :
  forall i acc,
    (i + count <= length levels)%nat ->
    append_levels levels i count acc = inr (acc ++ firstn count (skipn i levels)).
Proof.
  induction count as [|count IH]; intros i acc H.
  - cbn. now rewrite app_nil_r.
  - cbn [append_levels].
    destruct (nth_error levels i) as [label|] eqn:E.
    + rewrite IH by lia. rewrite (skipn_nth_error levels i label E).
      cbn [firstn]. now rewrite <- app_assoc.
    + apply nth_error_None in E. lia.
Qed.

(** Property X17.  [__init__] never fails: the index loops of
    [__get_default_data_config] stay within the column levels.  The lists
    ["countries"] and ["age_groups"] of [self.data] are the two levels of
    the columns of the data frame, complete and in their order; their
    lengths are [self.num_countries] and [self.num_age_groups], and the
    shapes of [self.distributions] are made of these lengths and of the
    number of rows. *)
Theorem init_counts_the_listed_countries_and_age_groups (data : DataFrame) :
  exists self,
    ModelParams_init data = inr self
    /\ cfg_countries (init_data self) = columns_levels0 data
    /\ cfg_age_groups (init_data self) = columns_levels1 data
    /\ init_num_countries self = length (cfg_countries (init_data self))
    /\ init_num_age_groups self = length (cfg_age_groups (init_data self))
    /\ let nc := length (cfg_countries (init_data self)) in
       let na := length (cfg_age_groups (init_data self)) in
       shape_of (init_distributions self) "I_0" = Some (cfg_shape [nc; na])
       /\ shape_of (init_distributions self) "R" = Some (cfg_shape [nc; na])
       /\ shape_of (init_distributions self) "C" = Some (cfg_shape [nc; na; na])
       /\ shape_of (init_distributions self) "new_cases"
          = Some (cfg_shape [length (df_index data); nc; na]).
Proof.
  assert (E : get_default_data_config data
              = inr {| cfg_begin := index_min (df_index data);
                       cfg_end := index_max (df_index data);
                       cfg_age_groups := columns_levels1 data;
                       cfg_countries := columns_levels0 data |}).
  { unfold get_default_data_config.
    rewrite !append_levels_copies by (cbn; lia).
    cbn [app skipn]. now rewrite !firstn_all. }
  eexists. unfold ModelParams_init. rewrite E.
  split; [reflexivity|]. cbn [init_data cfg_countries cfg_age_groups
                              init_num_countries init_num_age_groups init_distributions].
  repeat split; reflexivity.
Qed.
